(** * Edward: mean-field variational families and the wake-sleep objective

    A shallow embedding of [edward/variationals.py] and
    [edward/inferences/wake_sleep.py].

    - Part I models the variational families: Python objects become records,
      methods become functions that return a [res]ult (a value or a raised
      exception), arrays of rank 0, 1 and 2 become [tensor]s with NumPy's
      broadcasting written out.
    - Part II models [wake_sleep]: the TensorFlow graph it builds is a
      symbolic [expr]ession, the default graph is an explicit state, and the
      function runs in a state-and-exception monad. *)

From Stdlib Require Import ZArith QArith List Lia.
From stdpp Require Import base option list strings gmap pretty.

Local Open Scope Z_scope.

(** ** Exceptions and results *)

(** The exceptions the modelled code can raise.  [ReraiseNoActive] is what a
    bare [raise] outside of an [except] block produces. *)
Inductive exn : Set :=
| NotImplementedError
| ReraiseNoActive
| IndexError
| TypeError
| ValueError
| KeyError
| UnboundLocalError.

Inductive res (A : Type) : Type :=
| Ok (a : A)
| Raise (e : exn).
Arguments Ok {A} a.
Arguments Raise {A} e.

#[global] Instance res_ret : MRet res := fun _ a => Ok a.
#[global] Instance res_bind : MBind res := fun _ _ f m =>
  match m with
  | Ok a => f a
  | Raise e => Raise e
  end.
#[global] Instance res_fmap : FMap res := fun _ _ f m =>
  match m with
  | Ok a => Ok (f a)
  | Raise e => Raise e
  end.

Definition raises {A} (m : res A) : Prop := exists e, m = Raise e.
Definition returns {A} (m : res A) : Prop := exists a, m = Ok a.

(** ** Numbers

    The families are parametric in the scalar type: the code only adds,
    subtracts and multiplies.  Floating point is one instance, the rationals
    (used below where an identity of exact arithmetic is stated) another. *)
Class Num (R : Type) : Type := {
  n0 : R;
  n1 : R;
  nadd : R -> R -> R;
  nsub : R -> R -> R;
  nmul : R -> R -> R
}.

#[global] Instance Q_Num : Num Q := {|
  n0 := 0%Q;
  n1 := 1%Q;
  nadd := Qplus;
  nsub := Qminus;
  nmul := Qmult
|}.

(** ** Arrays

    An array of rank 0, 1 or 2.  A rank-2 array is the list of its rows,
    all of one length. *)
Inductive tensor (R : Type) : Type :=
| T0 (x : R)
| T1 (v : list R)
| T2 (rows : list (list R)).
Arguments T0 {R} x.
Arguments T1 {R} v.
Arguments T2 {R} rows.

(** Whether the array library accepts a negative index (counting from the
    end, as NumPy does) or rejects it (as the comment in
    [MFBernoulli.set_params] says of TensorFlow). *)
Class Indexing : Set := negative_indexing : bool.

Section Indexing.
Context `{Indexing}.

(** The position a Python index [i] denotes in a dimension of size [n]. *)
Definition index_in (n : nat) (i : Z) : res nat :=
  if 0 <=? i then
    if i <? Z.of_nat n then Ok (Z.to_nat i) else Raise IndexError
  else if negative_indexing then
    if - Z.of_nat n <=? i then Ok (Z.to_nat (Z.of_nat n + i))
    else Raise IndexError
  else Raise NotImplementedError.

(** [l[i]] on one dimension. *)
Definition item {A} (l : list A) (i : Z) : res A :=
  k ← index_in (length l) i;
  match l !! k with
  | Some x => Ok x
  | None => Raise IndexError
  end.

Context {R : Type}.

(** [t[i]]: the [i]-th entry along the first axis. *)
Definition getitem (t : tensor R) (i : Z) : res (tensor R) :=
  match t with
  | T0 _ => Raise IndexError
  | T1 v => T0 <$> item v i
  | T2 rows => T1 <$> item rows i
  end.

(** [t[i, :]]: row [i] of a rank-2 array. *)
Definition getrow (t : tensor R) (i : Z) : res (list R) :=
  match t with
  | T2 rows => item rows i
  | _ => Raise IndexError
  end.

(** [t[:, i]]: column [i] of a rank-2 array.  The sign of the index is
    checked before any row is looked at. *)
Definition getcol (t : tensor R) (i : Z) : res (list R) :=
  match t with
  | T2 rows =>
      if (i <? 0) && negb negative_indexing then Raise NotImplementedError
      else mapM (fun r => item r i) rows
  | _ => Raise IndexError
  end.

(** [t[:k]] along the first axis; the bound is clipped to the size.  A
    negative bound counts from the end where the library accepts it. *)
Definition slice_to (t : tensor R) (k : Z) : res (tensor R) :=
  let stop (n : nat) : res nat :=
    if 0 <=? k then Ok (Z.to_nat k)
    else if negative_indexing then Ok (Z.to_nat (Z.of_nat n + k))
    else Raise NotImplementedError in
  match t with
  | T0 _ => Raise IndexError
  | T1 v => n ← stop (length v); Ok (T1 (take n v))
  | T2 rows => n ← stop (length rows); Ok (T2 (take n rows))
  end.
End Indexing.

Section Arrays.
Context {R : Type}.

(** [tf.unpack(t)]: the list of the entries along the first axis. *)
Definition unpack (t : tensor R) : res (list (tensor R)) :=
  match t with
  | T0 _ => Raise ValueError
  | T1 v => Ok (T0 <$> v)
  | T2 rows => Ok (T1 <$> rows)
  end.

(** Modelled from the spec: [edward.util.get_dims], which is not among the
    sources.  The size of every dimension, as a list; a scalar counts as
    one dimension of size one. *)
Definition get_dims (t : tensor R) : list Z :=
  match t with
  | T0 _ => [1]
  | T1 v => [Z.of_nat (length v)]
  | T2 rows => [Z.of_nat (length rows); Z.of_nat (length (default [] (head rows)))]
  end.

(** [tf.expand_dims(t, 0)]: a new leading axis of size one. *)
Definition expand_dims0 (t : tensor R) : res (tensor R) :=
  match t with
  | T0 x => Ok (T1 [x])
  | T1 v => Ok (T2 [v])
  | T2 _ => Raise ValueError
  end.

Definition at_least_1d (t : tensor R) : tensor R :=
  match t with
  | T0 x => T1 [x]
  | _ => t
  end.

(** Modelled from the spec: [edward.util.concat], which is not among the
    sources.  The arrays joined along the first axis, a scalar counting as
    an array of one entry. *)
Fixpoint concat (ts : list (tensor R)) : res (tensor R) :=
  match ts with
  | [] => Raise ValueError
  | [t] => Ok (at_least_1d t)
  | t :: ts' =>
      r ← concat ts';
      match at_least_1d t, r with
      | T1 u, T1 v => Ok (T1 (u ++ v))
      | T2 a, T2 b => Ok (T2 (a ++ b))
      | _, _ => Raise ValueError
      end
  end.

(** An elementwise function of one argument. *)
Definition tmap {B} (f : R -> B) (t : tensor R) : tensor B :=
  match t with
  | T0 x => T0 (f x)
  | T1 v => T1 (map f v)
  | T2 rows => T2 (map (map f) rows)
  end.
End Arrays.

(** *** Broadcasting *)
Section Broadcasting.
Context {A B C : Type} (f : A -> B -> C).

(** One dimension against one dimension: equal sizes pair up, a size of one
    stretches, anything else is a shape error. *)
Definition bvec (u : list A) (v : list B) : res (list C) :=
  match u, v with
  | [x], _ => Ok (map (f x) v)
  | _, [y] => Ok (map (fun x => f x y) u)
  | _, _ =>
      if decide (length u = length v) then Ok (zip_with f u v)
      else Raise ValueError
  end.

Definition bmat (a : list (list A)) (b : list (list B)) : res (list (list C)) :=
  match a, b with
  | [u], _ => mapM (fun v => bvec u v) b
  | _, [v] => mapM (fun u => bvec u v) a
  | _, _ =>
      if decide (length a = length b)
      then mapM (fun uv => bvec (fst uv) (snd uv)) (zip a b)
      else Raise ValueError
  end.

(** An elementwise binary operator on two arrays, the lower rank promoted
    by leading axes of size one. *)
Definition broadcast (s : tensor A) (t : tensor B) : res (tensor C) :=
  match s, t with
  | T0 x, T0 y => Ok (T0 (f x y))
  | T0 x, T1 v => T1 <$> bvec [x] v
  | T1 u, T0 y => T1 <$> bvec u [y]
  | T1 u, T1 v => T1 <$> bvec u v
  | T0 x, T2 b => T2 <$> bmat [[x]] b
  | T1 u, T2 b => T2 <$> bmat [u] b
  | T2 a, T0 y => T2 <$> bmat a [[y]]
  | T2 a, T1 v => T2 <$> bmat a [v]
  | T2 a, T2 b => T2 <$> bmat a b
  end.
End Broadcasting.

(** An elementwise operator of three arguments. *)
Definition broadcast3 {A B C D} (f : A -> B -> C -> D)
    (s : tensor A) (t : tensor B) (u : tensor C) : res (tensor D) :=
  st ← broadcast pair s t;
  broadcast (fun p c => f (fst p) (snd p) c) st u.

Section Arithmetic.
Context {R : Type} `{Num R}.

Definition tadd : tensor R -> tensor R -> res (tensor R) := broadcast nadd.
Definition tsub : tensor R -> tensor R -> res (tensor R) := broadcast nsub.
Definition tmul : tensor R -> tensor R -> res (tensor R) := broadcast nmul.

Definition vsum (v : list R) : R := fold_right nadd n0 v.

(** [tf.reduce_sum(t)]: the sum of all entries. *)
Definition reduce_sum (t : tensor R) : tensor R :=
  match t with
  | T0 x => T0 x
  | T1 v => T0 (vsum v)
  | T2 rows => T0 (vsum (map vsum rows))
  end.
End Arithmetic.

(** * Part I: [edward/variationals.py]

    Modelled: the constructors, [set_params], [sample_noise], [reparam],
    [log_prob_zi] and the [sample] of the base class.  Left out, as nothing
    below reads them: [mapping], [print_params] and the [sample] methods that
    replace the one of the base class (they fill an array column by column
    from NumPy's generators). *)

(** ** What the module imports

    The density functions of [edward.stats] and the sampler of the standard
    normal are not among the sources; they are taken as given.  Each density
    takes the values first and the parameters after them. *)
Class Stats (R : Type) : Type := {
  (** densities of one value, applied elementwise with broadcasting *)
  bernoulli_logpmf : R -> R -> R;
  beta_logpdf : R -> R -> R -> R;
  norm_logpdf : R -> R -> R -> R;
  invgamma_logpdf : R -> R -> R -> R;
  (** the density of one vector under one vector of concentrations *)
  dirichlet_logpdf : list R -> list R -> R;
  (** [tf.nn.softplus], elementwise *)
  softplus : R -> R;
  (** the state of NumPy's random generator, and [norm.rvs(size=size)] *)
  rng : Type;
  norm_rvs : list Z -> rng -> res (tensor R) * rng
}.

(** A local variable that no statement has bound yet cannot be read. *)
Definition bound {A} (o : option A) : res A :=
  match o with
  | Some a => Ok a
  | None => Raise UnboundLocalError
  end.

(** An attribute that is still [None] cannot be indexed or multiplied. *)
Definition attr {A} (o : option A) : res A :=
  match o with
  | Some a => Ok a
  | None => Raise TypeError
  end.

(** ** The interface of a family

    The methods a subclass of [Likelihood] may override.  [self] is passed
    explicitly; a method that assigns to an attribute returns the object
    next to its result, also when it raises half-way. *)
Module Family.
Class t (R : Type) `{Stats R} (Self : Type) : Type := {
  set_params : Self -> list (tensor R) -> res unit * Self;
  sample_noise : Self -> list Z -> rng -> res (tensor R) * rng;
  reparam : Self -> tensor R -> res (tensor R);
  log_prob_zi : Self -> Z -> tensor R -> res (tensor R)
}.
End Family.

(** ** [class Likelihood] *)
Module Likelihood.
Section Likelihood.
Context {R : Type} `{Stats R}.

Record t : Type := { num_vars : Z; num_params : option Z }.

Definition __init__ (num_vars : Z) : t :=
  {| num_vars := num_vars; num_params := None |}.

Definition set_params {Self} (self : Self) (params : list (tensor R))
  : res unit * Self := (Raise NotImplementedError, self).

Definition sample_noise {Self} (self : Self) (size : list Z) (g : rng)
  : res (tensor R) * rng := (Raise NotImplementedError, g).

Definition reparam {Self} (self : Self) (eps : tensor R)
  : res (tensor R) := Raise NotImplementedError.

Definition log_prob_zi {Self} (self : Self) (i : Z) (z : tensor R)
  : res (tensor R) := Raise NotImplementedError.

(** [return self.reparam(self.sample_noise(size))]: both calls are
    resolved on the class of [self]. *)
Definition sample {Self} `{!Family.t R Self} (self : Self) (size : list Z)
    (g : rng) : res (tensor R) * rng :=
  match Family.sample_noise self size g with
  | (Ok eps, g') => (Family.reparam self eps, g')
  | (Raise e, g') => (Raise e, g')
  end.
End Likelihood.
End Likelihood.

(** ** [class MFDirichlet] *)
Module MFDirichlet.
Section MFDirichlet.
Context {R : Type} `{Indexing} `{Num R} `{Stats R}.

Record t : Type := {
  K : Z;
  num_vars : Z;
  num_params : Z;
  alpha_unconst : tensor R
}.

(** [alpha0] is the value [tf.random_normal([num_vars, K])] draws. *)
Definition __init__ (num_vars K : Z) (alpha0 : tensor R) : t :=
  {| K := K; num_vars := num_vars; num_params := K * num_vars;
     alpha_unconst := alpha0 |}.

Definition transform : tensor R -> tensor R := tmap softplus.

Definition log_prob_zi (self : t) (i : Z) (z : tensor R) : res (tensor R) :=
  if i >=? num_vars self then Raise ReraiseNoActive
  else
    alphai ← getrow (transform (alpha_unconst self)) i;
    zi ← getcol z i;
    Ok (T0 (dirichlet_logpdf zi alphai)).
End MFDirichlet.
End MFDirichlet.

(** ** [class MFInvGamma] *)
Module MFInvGamma.
Section MFInvGamma.
Context {R : Type} `{Indexing} `{Num R} `{Stats R}.

Record t : Type := {
  num_vars : Z;
  num_params : Z;
  a_unconst : tensor R;
  b_unconst : tensor R
}.

Definition __init__ (num_vars : Z) (a0 b0 : tensor R) : t :=
  {| num_vars := num_vars; num_params := 2 * num_vars;
     a_unconst := a0; b_unconst := b0 |}.

Definition transform : tensor R -> tensor R := tmap softplus.

Definition log_prob_zi (self : t) (i : Z) (z : tensor R) : res (tensor R) :=
  if i >=? num_vars self then Raise ReraiseNoActive
  else
    ai ← getitem (transform (a_unconst self)) i;
    bi ← getitem (transform (b_unconst self)) i;
    zi ← getcol z i;
    broadcast3 invgamma_logpdf (T1 zi) ai bi.
End MFInvGamma.
End MFInvGamma.

(** ** [class MFBernoulli(Likelihood)] *)
Module MFBernoulli.
Section MFBernoulli.
Context {R : Type} `{Indexing} `{Num R} `{Stats R}.

Record t : Type := { num_vars : Z; num_params : Z; p : option (tensor R) }.

Definition __init__ (num_vars : Z) : t :=
  {| num_vars := num_vars; num_params := num_vars; p := None |}.

Definition with_p (self : t) (v : tensor R) : t :=
  {| num_vars := num_vars self; num_params := num_params self; p := Some v |}.

(** The last coordinate, rebuilt from the others. *)
Definition constrain (p0 : tensor R) (d : Z) : res (tensor R) :=
  front ← slice_to p0 (d - 1);
  front' ← slice_to p0 (d - 1);
  rest ← tsub (T0 n1) (reduce_sum front');
  last ← expand_dims0 rest;
  concat [front; last].

Definition set_params (self : t) (params : list (tensor R)) : res unit * t :=
  match params !! 0%nat with
  | None => (Raise IndexError, self)
  | Some p0 =>
      let self := with_p self p0 in
      match get_dims p0 !! 0%nat with
      | None => (Raise IndexError, self)
      | Some d =>
          if d >? 1 then
            match constrain p0 d with
            | Ok p1 => (Ok tt, with_p self p1)
            | Raise e => (Raise e, self)
            end
          else (Ok tt, self)
      end
  end.

Definition log_prob_zi (self : t) (i : Z) (z : tensor R) : res (tensor R) :=
  if i >=? num_vars self then Raise ReraiseNoActive
  else
    zi ← getcol z i;
    pi ← attr (p self) ≫= fun p => getitem p i;
    broadcast bernoulli_logpmf (T1 zi) pi.

#[global] Instance family : Family.t R t := {|
  Family.set_params := set_params;
  Family.sample_noise := Likelihood.sample_noise;
  Family.reparam := Likelihood.reparam;
  Family.log_prob_zi := log_prob_zi
|}.
End MFBernoulli.
End MFBernoulli.

(** ** [class MFBeta(Likelihood)] *)
Module MFBeta.
Section MFBeta.
Context {R : Type} `{Indexing} `{Num R} `{Stats R}.

Record t : Type := {
  num_vars : Z;
  num_params : Z;
  a : option (tensor R);
  b : option (tensor R)
}.

Definition __init__ (num_vars : Z) : t :=
  {| num_vars := num_vars; num_params := 2 * num_vars; a := None; b := None |}.

Definition with_a (self : t) (v : tensor R) : t :=
  {| num_vars := num_vars self; num_params := num_params self;
     a := Some v; b := b self |}.
Definition with_b (self : t) (v : tensor R) : t :=
  {| num_vars := num_vars self; num_params := num_params self;
     a := a self; b := Some v |}.

Definition set_params (self : t) (params : list (tensor R)) : res unit * t :=
  match params !! 0%nat with
  | None => (Raise IndexError, self)
  | Some p0 =>
      let self := with_a self p0 in
      match params !! 1%nat with
      | None => (Raise IndexError, self)
      | Some p1 => (Ok tt, with_b self p1)
      end
  end.

Definition log_prob_zi (self : t) (i : Z) (z : tensor R) : res (tensor R) :=
  if i >=? num_vars self then Raise ReraiseNoActive
  else
    zi ← getcol z i;
    ai ← attr (a self) ≫= fun a => getitem a i;
    bi ← attr (b self) ≫= fun b => getitem b i;
    broadcast3 beta_logpdf (T1 zi) ai bi.

#[global] Instance family : Family.t R t := {|
  Family.set_params := set_params;
  Family.sample_noise := Likelihood.sample_noise;
  Family.reparam := Likelihood.reparam;
  Family.log_prob_zi := log_prob_zi
|}.
End MFBeta.
End MFBeta.

(** ** [class MFGaussian(Likelihood)] *)
Module MFGaussian.
Section MFGaussian.
Context {R : Type} `{Indexing} `{Num R} `{Stats R}.

Record t : Type := {
  num_vars : Z;
  num_params : Z;
  m : option (tensor R);
  s : option (tensor R)
}.

Definition __init__ (num_vars : Z) : t :=
  {| num_vars := num_vars; num_params := 2 * num_vars; m := None; s := None |}.

Definition with_m (self : t) (v : tensor R) : t :=
  {| num_vars := num_vars self; num_params := num_params self;
     m := Some v; s := s self |}.
Definition with_s (self : t) (v : tensor R) : t :=
  {| num_vars := num_vars self; num_params := num_params self;
     m := m self; s := Some v |}.

Definition set_params (self : t) (params : list (tensor R)) : res unit * t :=
  match params !! 0%nat with
  | None => (Raise IndexError, self)
  | Some p0 =>
      let self := with_m self p0 in
      match params !! 1%nat with
      | None => (Raise IndexError, self)
      | Some p1 => (Ok tt, with_s self p1)
      end
  end.

Definition sample_noise (self : t) (size : list Z) (g : rng)
  : res (tensor R) * rng := norm_rvs size g.

(** [return self.m + eps * self.s]: the product is evaluated first. *)
Definition reparam (self : t) (eps : tensor R) : res (tensor R) :=
  es ← attr (s self) ≫= fun s => tmul eps s;
  m ← attr (m self);
  tadd m es.

Definition log_prob_zi (self : t) (i : Z) (z : tensor R) : res (tensor R) :=
  if i >=? num_vars self then Raise ReraiseNoActive
  else
    mi ← attr (m self) ≫= fun m => getitem m i;
    si ← attr (s self) ≫= fun s => getitem s i;
    zs ← unpack z;
    terms ← mapM (fun zm => zmi ← getitem zm i;
                            broadcast3 norm_logpdf zmi mi si) zs;
    concat terms.

#[global] Instance family : Family.t R t := {|
  Family.set_params := set_params;
  Family.sample_noise := sample_noise;
  Family.reparam := reparam;
  Family.log_prob_zi := log_prob_zi
|}.

(** [MFGaussian] has no [sample] of its own: the name resolves to the one
    of [Likelihood]. *)
Definition sample : t -> list Z -> rng -> res (tensor R) * rng :=
  Likelihood.sample.
End MFGaussian.
End MFGaussian.

(** ** [class PointMass(Likelihood)] *)
Module PointMass.
Section PointMass.
Context {R : Type} `{Indexing} `{Num R} `{Stats R}.

Record t : Type := {
  num_vars : Z;
  num_params : Z;
  transform : tensor R -> tensor R;
  params : option (tensor R)
}.

Definition __init__ (num_vars : Z) (transform : tensor R -> tensor R) : t :=
  {| num_vars := num_vars; num_params := num_vars; transform := transform;
     params := None |}.

Definition set_params (self : t) (ps : list (tensor R)) : res unit * t :=
  match ps !! 0%nat with
  | None => (Raise IndexError, self)
  | Some p0 =>
      (Ok tt, {| num_vars := num_vars self; num_params := num_params self;
                 transform := transform self; params := Some p0 |})
  end.


(** Neither [sample_noise], [reparam] nor [log_prob_zi] is defined in the
    class body: all three are the ones of [Likelihood]. *)
#[global] Instance family : Family.t R t := {|
  Family.set_params := set_params;
  Family.sample_noise := Likelihood.sample_noise;
  Family.reparam := Likelihood.reparam;
  Family.log_prob_zi := Likelihood.log_prob_zi
|}.

Definition log_prob_zi : t -> Z -> tensor R -> res (tensor R) :=
  Family.log_prob_zi.
End PointMass.
End PointMass.

(** ** [class MFMixGaussian] *)
Module MFMixGaussian.
Section MFMixGaussian.
Context {R : Type} `{Indexing} `{Num R} `{Stats R}.

Record t : Type := {
  K : Z;
  dirich : MFDirichlet.t (R:=R);
  gauss : MFGaussian.t (R:=R);
  invgam : MFInvGamma.t (R:=R);
  num_vars : Z;
  num_params : Z
}.

(** [alpha0], [a0] and [b0] are the values the sub-families draw for
    their unconstrained parameters. *)
Definition __init__ (D K : Z) (alpha0 a0 b0 : tensor R) : t :=
  let dirich := MFDirichlet.__init__ K K alpha0 in
  let gauss := MFGaussian.__init__ (K * D) in
  let invgam := MFInvGamma.__init__ (K * D) a0 b0 in
  {| K := K; dirich := dirich; gauss := gauss; invgam := invgam;
     num_vars := MFDirichlet.num_vars dirich + MFGaussian.num_vars gauss
                 + MFInvGamma.num_vars invgam;
     num_params := MFDirichlet.num_params dirich + MFGaussian.num_params gauss
                   + MFInvGamma.num_params invgam |}.

(** [if c: log_prob += f(i, z)] *)
Definition add_if (c : bool) (f : res (tensor R)) (log_prob : tensor R)
  : res (tensor R) :=
  if c then (x ← f; tadd log_prob x) else Ok log_prob.

Definition log_prob_zi (self : t) (i : Z) (z : tensor R) : res (tensor R) :=
  let log_prob := T0 n0 in
  log_prob ← add_if (i <? MFDirichlet.num_vars (dirich self))
                    (MFDirichlet.log_prob_zi (dirich self) i z) log_prob;
  log_prob ← add_if (i <? MFGaussian.num_vars (gauss self))
                    (MFGaussian.log_prob_zi (gauss self) i z) log_prob;
  log_prob ← add_if (i <? MFInvGamma.num_vars (invgam self))
                    (MFInvGamma.log_prob_zi (invgam self) i z) log_prob;
  if i >=? num_vars self then Raise ReraiseNoActive
  else Ok log_prob.
End MFMixGaussian.
End MFMixGaussian.

(** * Part II: [edward/inferences/wake_sleep.py] *)

(** ** The graph under construction *)

(** A random variable of the caller's model, and a trainable variable. *)
Definition rv : Type := nat.
Definition var : Type := nat.

(** A handle on a copy made by [copy]: the position of its node. *)
Definition rvcopy : Type := nat.

(** The tensors [wake_sleep] builds, as terms.  [EGiven] is a tensor the
    caller supplies (an observed value, a scale, a registered loss);
    [EPack] is a Python list of tensors handed to an operator. *)
#[warnings="-register-all"]
Inductive expr : Type :=
| EFloat (q : Q)
| EGiven (n : nat)
| EValue (c : rvcopy)
| ELogProb (c : rvcopy) (t : expr)
| EStopGradient (t : expr)
| EMul (a b : expr)
| EAdd (a b : expr)
| ENeg (a : expr)
| EReduceSum (t : expr)
| EReduceMean (t : expr)
| EPack (ts : list expr).

(** A key of the data binding is a random variable or something else (a
    placeholder); a value is a random variable or a plain tensor. *)
Inductive dkey : Type :=
| KRandomVariable (x : rv)
| KOther (n : nat).

Inductive dval : Type :=
| VRandomVariable (qx : rv)
| VTensor (e : expr).

(** What [copy] was asked for. *)
Record copy_node : Type := {
  c_org : rv;
  c_dict_swap : option (gmap rv expr);
  c_scope : string
}.

Record summary : Type := {
  s_name : string;
  s_tensor : expr;
  s_collections : list string
}.

(** The default graph: how often each name was handed to [unique_name], the
    copies made, the registered regularization losses, the summaries. *)
Record graph : Type := {
  names : gmap string nat;
  nodes : list copy_node;
  regularization_losses : list expr;
  summaries : list summary
}.

(** ** Graph construction: state and exceptions *)
Definition M (A : Type) : Type := graph -> res A * graph.

#[global] Instance M_ret : MRet M := fun _ a g => (Ok a, g).
#[global] Instance M_bind : MBind M := fun _ _ f m g =>
  match m g with
  | (Ok a, g') => f a g'
  | (Raise e, g') => (Raise e, g')
  end.

Definition raise {A} (e : exn) : M A := fun g => (Raise e, g).
Definition lift {A} (r : res A) : M A := fun g => (r, g).

(** [for x in xs: acc = body(x, acc)] *)
Fixpoint for_each {A S} (xs : list A) (body : A -> S -> M S) (acc : S) : M S :=
  match xs with
  | [] => mret acc
  | x :: xs' => acc' ← body x acc; for_each xs' body acc'
  end.

(** The [k]-th name [unique_name] makes of [name]. *)
Definition issued (name : string) (k : nat) : string :=
  if decide (k = 0%nat) then name else name +:+ "_" +:+ pretty k.

Definition use_name (name : string) (g : graph) : graph :=
  {| names := <[name := S (default 0%nat (names g !! name))]> (names g);
     nodes := nodes g;
     regularization_losses := regularization_losses g;
     summaries := summaries g |}.

Definition add_node (nd : copy_node) (g : graph) : graph :=
  {| names := names g;
     nodes := nodes g ++ [nd];
     regularization_losses := regularization_losses g;
     summaries := summaries g |}.

Definition add_summary (sm : summary) (g : graph) : graph :=
  {| names := names g;
     nodes := nodes g;
     regularization_losses := regularization_losses g;
     summaries := summaries g ++ [sm] |}.

(** [tf.get_default_graph().unique_name(name)]: the name itself the first
    time, [name_k] the [k]-th time after. *)
Definition unique_name (name : string) : M string := fun g =>
  (Ok (issued name (default 0%nat (names g !! name))), use_name name g).

(** Modelled from the spec: [edward.util.copy], which is not among the
    sources.  A new expression, structurally the original, in which every
    reference to a key of the substitution map is redirected to its value,
    under the given scope; here a new node that records the request. *)
Definition copy (org : rv) (dict_swap : option (gmap rv expr)) (scope : string)
  : M rvcopy := fun g =>
  (Ok (length (nodes g)),
   add_node {| c_org := org; c_dict_swap := dict_swap; c_scope := scope |} g).

(** [tf.losses.get_regularization_losses()] *)
Definition get_regularization_losses : M (list expr) := fun g =>
  (Ok (regularization_losses g), g).

(** [tf.summary.scalar(name, tensor, collections=collections)] *)
Definition summary_scalar (name : string) (t : expr) (collections : list string)
  : M unit := fun g =>
  (Ok tt, add_summary {| s_name := name; s_tensor := t;
                         s_collections := collections |} g).

(** [d[k]] on a dictionary. *)
Definition dict_get (d : gmap rv expr) (k : rv) : M expr :=
  match d !! k with
  | Some e => mret e
  | None => raise KeyError
  end.

(** [l[s] += e] on a list. *)
Definition list_iadd (l : list expr) (s : nat) (e : M expr) : M (list expr) :=
  match l !! s with
  | Some x => y ← e; mret (<[s := EAdd x y]> l)
  | None => raise IndexError
  end.

(** [tf.gradients(loss, xs)]: one entry for each of [xs]. *)
Inductive grad : Type := Grad (loss : expr) (x : var).

Definition gradients (loss : expr) (xs : list var) : list grad :=
  map (Grad loss) xs.

(** ** [wake_sleep] *)
Section WakeSleep.
(** The collaborators of [edward.inferences.inference] and [edward.util]
    that are not among the sources.  The first five normalise the
    arguments and may reject them; [get_descendants v rvs] lists the
    random variables of [rvs] that depend on (the tensor of) [v]. *)
Context {extra : Type}.
Variable check_and_maybe_build_latent_vars :
  option (list (rv * rv)) -> res (list (rv * rv)).
Variable check_and_maybe_build_data :
  option (list (dkey * dval)) -> res (list (dkey * dval)).
Variable transform : list (rv * rv) -> bool -> res (list (rv * rv) * extra).
Variable check_and_maybe_build_dict :
  option (gmap rv expr) -> res (gmap rv expr).
Variable check_and_maybe_build_var_list :
  option (list var) -> list (rv * rv) -> list (dkey * dval) -> res (list var).
Variable get_descendants : var -> list rv -> list rv.

(** [scale.get(k, 1.0)] *)
Definition scale_get (scale : gmap rv expr) (k : rv) : expr :=
  default (EFloat 1) (scale !! k).

(** Lines 85-91: the substitutions for the observed random variables. *)
Definition swap_data (scope : string) (data : list (dkey * dval))
    (dict_swap : gmap rv expr) : M (gmap rv expr) :=
  for_each data (fun '(x, qx) dict_swap =>
    match x with
    | KRandomVariable x =>
        match qx with
        | VRandomVariable qx =>
            qx_copy ← copy qx None scope;
            mret (<[x := EValue qx_copy]> dict_swap)
        | VTensor qx => mret (<[x := qx]> dict_swap)
        end
    | KOther _ => mret dict_swap
    end) dict_swap.

(** Lines 95-103: a sample of every [qz], and [log q(z)] outside of the
    sleep phase. *)
Definition sample_q (scope : string) (phase_q : string) (s : nat)
    (scale : gmap rv expr) (latent_vars : list (rv * rv))
    (acc : gmap rv expr * list expr) : M (gmap rv expr * list expr) :=
  for_each latent_vars (fun '(z, qz) '(q_dict_swap, q_log_prob) =>
    qz_copy ← copy qz None scope;
    let q_dict_swap := <[z := EValue qz_copy]> q_dict_swap in
    if decide (phase_q ≠ "sleep") then
      q_log_prob ← list_iadd q_log_prob s (
        v ← dict_get q_dict_swap z;
        mret (EReduceSum (EMul (scale_get scale z)
                               (ELogProb qz_copy (EStopGradient v)))));
      mret (q_dict_swap, q_log_prob)
    else mret (q_dict_swap, q_log_prob)) acc.

(** Lines 105-108: [log p(z)] at the sample. *)
Definition score_latent (scope : string) (s : nat) (scale : gmap rv expr)
    (q_dict_swap : gmap rv expr) (latent_vars : list (rv * rv))
    (p_log_prob : list expr) : M (list expr) :=
  for_each (latent_vars.*1) (fun z p_log_prob =>
    z_copy ← copy z (Some q_dict_swap) scope;
    list_iadd p_log_prob s (
      v ← dict_get q_dict_swap z;
      mret (EReduceSum (EMul (scale_get scale z) (ELogProb z_copy v)))))
    p_log_prob.

(** Lines 110-114: [log p(x | z)] for the observed random variables. *)
Definition score_data (scope : string) (s : nat) (scale : gmap rv expr)
    (q_dict_swap : gmap rv expr) (data : list (dkey * dval))
    (p_log_prob : list expr) : M (list expr) :=
  for_each (data.*1) (fun x p_log_prob =>
    match x with
    | KRandomVariable x =>
        x_copy ← copy x (Some q_dict_swap) scope;
        list_iadd p_log_prob s (
          v ← dict_get q_dict_swap x;
          mret (EReduceSum (EMul (scale_get scale x) (ELogProb x_copy v))))
    | KOther _ => mret p_log_prob
    end) p_log_prob.

(** Lines 120-123: a sample of every [z] from the prior, filed under its
    [qz]. *)
Definition sample_p (scope : string) (latent_vars : list (rv * rv))
    (p_dict_swap : gmap rv expr) : M (gmap rv expr) :=
  for_each latent_vars (fun '(z, qz) p_dict_swap =>
    z_copy ← copy z None scope;
    mret (<[qz := EValue z_copy]> p_dict_swap)) p_dict_swap.

(** Lines 124-128: [log q(z)] at the prior sample.  [z] is not bound by
    this loop: it is the variable the loops before left behind. *)
Definition score_q (scope : string) (s : nat) (scale : gmap rv expr)
    (p_dict_swap : gmap rv expr) (z : option rv)
    (latent_vars : list (rv * rv)) (q_log_prob : list expr) : M (list expr) :=
  for_each (latent_vars.*2) (fun qz q_log_prob =>
    qz_copy ← copy qz (Some p_dict_swap) scope;
    list_iadd q_log_prob s (
      z ← lift (bound z);
      v ← dict_get p_dict_swap qz;
      mret (EReduceSum (EMul (scale_get scale z)
                             (ELogProb qz_copy (EStopGradient v))))))
    q_log_prob.

(** Lines 81-128: the body of the loop over the samples. *)
Definition sample_step (base_scope : string) (phase_q : string)
    (scale : gmap rv expr) (latent_vars : list (rv * rv))
    (data : list (dkey * dval)) (s : nat)
    (acc : list expr * list expr) : M (list expr * list expr) :=
  let '(p_log_prob, q_log_prob) := acc in
  name ← unique_name "q_sample";
  let scope := base_scope +:+ name in
  dict_swap ← swap_data scope data ∅;
  let q_dict_swap := dict_swap in
  '(q_dict_swap, q_log_prob) ←
    sample_q scope phase_q s scale latent_vars (q_dict_swap, q_log_prob);
  p_log_prob ← score_latent scope s scale q_dict_swap latent_vars p_log_prob;
  p_log_prob ← score_data scope s scale q_dict_swap data p_log_prob;
  if decide (phase_q = "sleep") then
    name ← unique_name "p_sample";
    let scope := base_scope +:+ name in
    let p_dict_swap := dict_swap in
    p_dict_swap ← sample_p scope latent_vars p_dict_swap;
    let z := last (latent_vars.*1) in
    q_log_prob ← score_q scope s scale p_dict_swap z latent_vars q_log_prob;
    mret (p_log_prob, q_log_prob)
  else mret (p_log_prob, q_log_prob).

(** Lines 71-143: the arguments normalised and the two objectives. *)
Definition objectives (latent_vars : option (list (rv * rv)))
    (data : option (list (dkey * dval))) (n_samples : Z) (phase_q : string)
    (auto_transform : bool) (scale : option (gmap rv expr))
    (var_list : option (list var)) (collections : option (list string))
    : M (list (rv * rv) * list var * expr * expr) :=
  latent_vars ← lift (check_and_maybe_build_latent_vars latent_vars);
  data ← lift (check_and_maybe_build_data data);
  '(latent_vars, _) ← lift (transform latent_vars auto_transform);
  scale ← lift (check_and_maybe_build_dict scale);
  var_list ← lift (check_and_maybe_build_var_list var_list latent_vars data);
  let p_log_prob := replicate (Z.to_nat n_samples) (EFloat 0) in
  let q_log_prob := replicate (Z.to_nat n_samples) (EFloat 0) in
  name ← unique_name "inference";
  let base_scope := name +:+ "/" in
  '(p_log_prob, q_log_prob) ←
    for_each (seq 0 (Z.to_nat n_samples))
             (sample_step base_scope phase_q scale latent_vars data)
             (p_log_prob, q_log_prob);
  let p_log_prob := EReduceMean (EPack p_log_prob) in
  let q_log_prob := EReduceMean (EPack q_log_prob) in
  regs ← get_regularization_losses;
  let reg_penalty := EReduceSum (EPack regs) in
  _ ← match collections with
      | Some collections =>
          _ ← summary_scalar "loss/p_log_prob" p_log_prob collections;
          _ ← summary_scalar "loss/q_log_prob" q_log_prob collections;
          summary_scalar "loss/reg_penalty" reg_penalty collections
      | None => mret tt
      end;
  let loss_p := EAdd (ENeg p_log_prob) reg_penalty in
  let loss_q := EAdd (ENeg q_log_prob) reg_penalty in
  mret (latent_vars, var_list, loss_p, loss_q).

(** Lines 145-151: the variables split between the two objectives.
    [tf.convert_to_tensor(v)] is part of what [get_descendants] is given. *)
Definition q_vars_of (latent_vars : list (rv * rv)) (var_list : list var)
  : list var :=
  let q_rvs := latent_vars.*2 in
  filter (fun v => length (get_descendants v q_rvs) ≠ 0%nat) var_list.

Definition p_vars_of (q_vars : list var) (var_list : list var) : list var :=
  filter (fun v => v ∉ q_vars) var_list.

Definition wake_sleep (latent_vars : option (list (rv * rv)))
    (data : option (list (dkey * dval))) (n_samples : Z) (phase_q : string)
    (auto_transform : bool) (scale : option (gmap rv expr))
    (var_list : option (list var)) (collections : option (list string))
    : M (expr * list (grad * var)) :=
  '(latent_vars, var_list, loss_p, loss_q) ←
    objectives latent_vars data n_samples phase_q auto_transform scale
               var_list collections;
  let q_vars := q_vars_of latent_vars var_list in
  let q_grads := gradients loss_q q_vars in
  let p_vars := p_vars_of q_vars var_list in
  let p_grads := gradients loss_p p_vars in
  let grads_and_vars := zip q_grads q_vars ++ zip p_grads p_vars in
  mret (loss_p, grads_and_vars).
End WakeSleep.

(** * Specifications *)

(** ** The families *)

(** What [MFMixGaussian.log_prob_zi] is meant to return for an index in
    range: the sum, from zero, of the terms of the sub-families whose own
    range holds the index; a term that raises ends the sum. *)
Section MixSpec.
Context {R : Type} `{Indexing} `{Num R} `{Stats R}.

Definition terms_in_range (self : MFMixGaussian.t) (i : Z) (z : tensor R)
  : list (res (tensor R)) :=
  let dirich := MFMixGaussian.dirich self in
  let gauss := MFMixGaussian.gauss self in
  let invgam := MFMixGaussian.invgam self in
  (if i <? MFDirichlet.num_vars dirich
   then [MFDirichlet.log_prob_zi dirich i z] else [])
  ++ (if i <? MFGaussian.num_vars gauss
      then [MFGaussian.log_prob_zi gauss i z] else [])
  ++ (if i <? MFInvGamma.num_vars invgam
      then [MFInvGamma.log_prob_zi invgam i z] else []).

Definition sum_terms (ts : list (res (tensor R))) : res (tensor R) :=
  fold_left (fun acc t => a ← acc; x ← t; tadd a x) ts (Ok (T0 n0)).

(** An input on which column [i] can be read: a rank-2 array with at least
    one row, every row longer than [i]. *)
Definition has_column (z : tensor R) (i : Z) : Prop :=
  exists rows, z = T2 rows /\ rows <> [] /\
               Forall (fun r => i < Z.of_nat (length r)) rows.

(** A parameter that is set to a vector longer than [i]. *)
Definition has_entry (o : option (tensor R)) (i : Z) : Prop :=
  exists v, o = Some (T1 v) /\ i < Z.of_nat (length v).

Definition has_row (t : tensor R) (i : Z) : Prop :=
  exists rows, t = T2 rows /\ i < Z.of_nat (length rows).
End MixSpec.

(** The entries [set_params] of the Bernoulli family keeps: all but the
    last. *)
Definition simplex_front {R} (v : list R) : list R := take (length v - 1) v.

(** One row of noise, moved by [mv] and stretched by [sv]. *)
Definition affine {R} `{Num R} (mv sv row : list R) : list R :=
  zip_with nadd mv (zip_with nmul row sv).

(** A concrete instance over the rationals, for running the definitions:
    densities that only combine their arguments, a generator that counts
    its draws. *)
Definition example_stats : Stats Q := {|
  bernoulli_logpmf := fun x p => (x * p)%Q;
  beta_logpdf := fun x a b => (x * a + b)%Q;
  norm_logpdf := fun x m s => ((x - m) * s)%Q;
  invgamma_logpdf := fun x a b => (x * a - b)%Q;
  dirichlet_logpdf := fun x alpha => fold_right Qplus 0%Q (zip_with Qmult x alpha);
  softplus := fun x => (x * x + 1)%Q;
  rng := nat;
  norm_rvs := fun size g => (Ok (T2 [[1%Q; 2%Q]; [3%Q; 4%Q]]), S g)
|}.

Definition rejecting : Indexing := false.
Definition wrapping : Indexing := true.

(** What the running sum of [MFMixGaussian.log_prob_zi] can be on an input of
    [n] rows: a scalar, or a vector of [n] entries. *)
Definition sum_shape {R} (n : nat) (t : tensor R) : Prop :=
  (exists x, t = T0 x) \/ (exists v, t = T1 v /\ length v = n).

(** ** [wake_sleep] *)

(** [m], run on the graph [g], returns, and its result and the graph it
    leaves satisfy [Q]. *)
Definition wp {A} (m : M A) (g : graph) (Q : A -> graph -> Prop) : Prop :=
  exists a g', m g = (Ok a, g') /\ Q a g'.

(** Nothing but the nodes has changed. *)
Definition same_rest (g g' : graph) : Prop :=
  names g' = names g
  /\ regularization_losses g' = regularization_losses g
  /\ summaries g' = summaries g.

(** The random variables among the keys of the data binding. *)
Definition rv_keys (data : list (dkey * dval)) : list rv :=
  omap (fun k => match k with
                 | KRandomVariable x => Some x
                 | KOther _ => None
                 end) (data.*1).

(** The terms of the two sums: a scaled log-density, summed over its
    entries; in the sum for [q] the value is behind [stop_gradient]. *)
Definition p_term (scale : gmap rv expr) (t : expr) : Prop :=
  exists k c v, t = EReduceSum (EMul (scale_get scale k) (ELogProb c v)).

Definition q_term (scale : gmap rv expr) (t : expr) : Prop :=
  exists k c v,
    t = EReduceSum (EMul (scale_get scale k) (ELogProb c (EStopGradient v))).

(** The term of the wake phase for the latent variable [z] whose [qz] was
    copied as [c]: the log-density of the copy at its own value. *)
Definition wake_term (scale : gmap rv expr) (z : rv) (c : rvcopy) : expr :=
  EReduceSum (EMul (scale_get scale z) (ELogProb c (EStopGradient (EValue c)))).

Definition wake_terms (scale : gmap rv expr) (n : nat)
    (latent_vars : list (rv * rv)) : list expr :=
  imap (fun j zq => wake_term scale (fst zq) (n + j)%nat) latent_vars.

(** The nodes the loops make: a copy of [qz] and a copy of [z] without
    substitutions, a copy of a model variable under substitutions. *)
Definition q_node (scope : string) (zq : rv * rv) : copy_node :=
  {| c_org := snd zq; c_dict_swap := None; c_scope := scope |}.

Definition p_node (scope : string) (zq : rv * rv) : copy_node :=
  {| c_org := fst zq; c_dict_swap := None; c_scope := scope |}.

Definition swapped_node (scope : string) (d : gmap rv expr) (x : rv)
  : copy_node :=
  {| c_org := x; c_dict_swap := Some d; c_scope := scope |}.

(** A sum as the loop builds it: from [0.0], one term after the other. *)
Definition sum_of (ts : list expr) : expr := fold_left EAdd ts (EFloat 0).

Definition p_sum (scale : gmap rv expr) (e : expr) : Prop :=
  exists ts, e = sum_of ts /\ Forall (p_term scale) ts.

Definition q_sum (scale : gmap rv expr) (e : expr) : Prop :=
  exists ts, e = sum_of ts /\ Forall (q_term scale) ts.

(** [cs] are copies of the [qz] of [latent_vars], in order, made without
    substitutions under a scope of the q-samples. *)
Definition wake_copies (nodes : list copy_node) (base_scope : string)
    (latent_vars : list (rv * rv)) (cs : list rvcopy) : Prop :=
  Forall2 (fun zq c =>
             exists nd k, nodes !! c = Some nd
                          /\ c_org nd = snd zq
                          /\ c_dict_swap nd = None
                          /\ c_scope nd = base_scope +:+ issued "q_sample" k)
          latent_vars cs.

(** The sum for [q] of one sample in the wake phase: one term for each pair
    of [latent_vars], in order, the log-density of a fresh copy of [qz] at
    its own value, scaled by the multiplier of its [z]. *)
Definition wake_q_sum (nodes : list copy_node) (base_scope : string)
    (scale : gmap rv expr) (latent_vars : list (rv * rv)) (e : expr) : Prop :=
  exists cs : list rvcopy,
    e = sum_of (zip_with (fun zq c => wake_term scale (fst zq) c) latent_vars cs)
    /\ wake_copies nodes base_scope latent_vars cs.

(** The sum for [q] of one sample in the sleep phase: every term carries the
    multiplier of one and the same variable [z]. *)
Definition sleep_q_term (scale : gmap rv expr) (z : rv) (t : expr) : Prop :=
  exists c v,
    t = EReduceSum (EMul (scale_get scale z) (ELogProb c (EStopGradient v))).

Definition sleep_q_sum (scale : gmap rv expr) (z : rv) (e : expr) : Prop :=
  exists ts, e = sum_of ts /\ Forall (sleep_q_term scale z) ts.

(** A node as the wake phase makes them: under a scope of the q-samples,
    and, where it has substitutions, keyed by observed and latent variables
    only. *)
Definition wake_node (base_scope : string) (latent_vars : list (rv * rv))
    (data : list (dkey * dval)) (nd : copy_node) : Prop :=
  (exists k, c_scope nd = base_scope +:+ issued "q_sample" k)
  /\ (forall d, c_dict_swap nd = Some d ->
               forall x, is_Some (d !! x) ->
                         x ∈ rv_keys data \/ x ∈ latent_vars.*1).

(** What the loop over the samples has built, from the graph [g] on: the
    two lists of sums [ps] and [qs] and the graph [g']. *)
Definition built (base_scope phase_q : string) (scale : gmap rv expr)
    (latent_vars : list (rv * rv)) (data : list (dkey * dval)) (n : nat)
    (g : graph) (ps qs : list expr) (g' : graph) : Prop :=
  exists new,
    nodes g' = nodes g ++ new
    /\ regularization_losses g' = regularization_losses g
    /\ summaries g' = summaries g
    /\ length ps = n /\ length qs = n
    /\ Forall (p_sum scale) ps /\ Forall (q_sum scale) qs
    /\ (phase_q ≠ "sleep" ->
        names g' !! "p_sample" = names g !! "p_sample"
        /\ Forall (wake_node base_scope latent_vars data) new
        /\ Forall (wake_q_sum (nodes g') base_scope scale latent_vars) qs)
    /\ (phase_q = "sleep" ->
        forall z, last (latent_vars.*1) = Some z ->
                  Forall (sleep_q_sum scale z) qs).

(** An objective: minus the mean of the sums of the samples, plus the sum
    of the registered regularization losses. *)
Definition loss_of (sums regs : list expr) : expr :=
  EAdd (ENeg (EReduceMean (EPack sums))) (EReduceSum (EPack regs)).

(** The three summaries, where a collection is given. *)
Definition logged (collections : option (list string))
    (ps qs regs : list expr) : list summary :=
  match collections with
  | Some c =>
      [ {| s_name := "loss/p_log_prob"; s_tensor := EReduceMean (EPack ps);
           s_collections := c |};
        {| s_name := "loss/q_log_prob"; s_tensor := EReduceMean (EPack qs);
           s_collections := c |};
        {| s_name := "loss/reg_penalty"; s_tensor := EReduceSum (EPack regs);
           s_collections := c |} ]
  | None => []
  end.

(** The scope of the whole call. *)
Definition base_scope_of (g : graph) : string :=
  issued "inference" (default 0%nat (names g !! "inference")) +:+ "/".

(** Collaborators that accept everything, for running [wake_sleep]. *)
Definition accept {A} (d : A) (o : option A) : res A := Ok (default d o).
Definition example_transform (l : list (rv * rv)) (b : bool)
  : res (list (rv * rv) * unit) := Ok (l, tt).
Definition example_var_list (o : option (list var)) (l : list (rv * rv))
    (d : list (dkey * dval)) : res (list var) := Ok (default [] o).
Definition example_descendants (v : var) (rvs : list rv) : list rv :=
  if decide (v = 0%nat) then rvs else [].
Definition example_latent_vars : list (rv * rv) :=
  [(1%nat, 11%nat); (2%nat, 12%nat)].
Definition example_data : list (dkey * dval) :=
  [(KRandomVariable 5%nat, VTensor (EGiven 0))].
Definition example_scale : gmap rv expr := {[ 1%nat := EGiven 100 ]}.
Definition example_graph : graph :=
  {| names := ∅; nodes := []; regularization_losses := [EGiven 7];
     summaries := [] |}.


(** * Part III: sampling and [mapping] in [edward/variationals.py] *)

(** ** What the methods use

    The samplers of [edward.stats], [edward.util.Variable] and [tf.sigmoid]
    are not among the sources; they are taken as given.  A sampler returns a
    one-dimensional array, meant to have [size] entries. *)
Class Samplers (R : Type) `{Stats R} : Type := {
  bernoulli_rvs : tensor R -> Z -> rng -> res (list R) * rng;
  beta_rvs : tensor R -> tensor R -> Z -> rng -> res (list R) * rng;
  invgamma_rvs : tensor R -> tensor R -> Z -> rng -> res (list R) * rng
}.

Class Variables (R : Type) : Type := {
  (** the trainable variables made so far *)
  store : Type;
  (** [Variable(name, shape)] *)
  new_variable : string -> list Z -> store -> res (tensor R) * store;
  (** [tf.sigmoid], elementwise *)
  sigmoid : R -> R
}.

(** ** Arrays filled in place *)
Section Filling.
Context {R : Type} `{Num R}.

(** [np.zeros(size)] for a [size] of two dimensions. *)
Definition zeros (size : Z * Z) : res (list (list R)) :=
  if (fst size <? 0) || (snd size <? 0) then Raise ValueError
  else Ok (replicate (Z.to_nat (fst size)) (replicate (Z.to_nat (snd size)) n0)).

(** [z[:, d] = v] on an array of [ncols] columns: the column must exist, and
    [v] must have one entry for each row, or one entry for all. *)
Definition set_column (ncols : Z) (z : list (list R)) (d : Z) (v : list R)
  : res (list (list R)) :=
  k ← index_in (H:=wrapping) (Z.to_nat ncols) d;
  match v with
  | [x] => Ok (map (fun row => <[k := x]> row) z)
  | _ =>
      if decide (length v = length z)
      then Ok (zip_with (fun row x => <[k := x]> row) z v)
      else Raise ValueError
  end.
End Filling.

Section Sampling.
Context {R : Type} `{Num R} `{Stats R} `{!Samplers R}.

(** [for d in range(num_vars): z[:, d] = draw(d)], the generator threaded
    through the draws. *)
Fixpoint fill_columns (draw : Z -> rng -> res (list R) * rng) (ncols : Z)
    (ds : list Z) (z : list (list R)) (g : rng) : res (list (list R)) * rng :=
  match ds with
  | [] => (Ok z, g)
  | d :: ds' =>
      match draw d g with
      | (Ok v, g') =>
          match set_column ncols z d v with
          | Ok z' => fill_columns draw ncols ds' z' g'
          | Raise e => (Raise e, g')
          end
      | (Raise e, g') => (Raise e, g')
      end
  end.

(** [range(n)] *)
Definition range (n : Z) : list Z := Z.of_nat <$> seq 0 (Z.to_nat n).

(** A draw whose parameters are read first: an error in reading them
    leaves the generator alone. *)
Definition draw_with {P} (params : res P) (rvs : P -> rng -> res (list R) * rng)
    (g : rng) : res (list R) * rng :=
  match params with
  | Ok p => rvs p g
  | Raise e => (Raise e, g)
  end.

(** [MFBernoulli.sample(size, sess)]; [sess.run] gives the values of [p] as
    a NumPy array, which accepts every index a NumPy array accepts. *)
Definition MFBernoulli_sample (self : MFBernoulli.t) (size : Z * Z) (g : rng)
  : res (tensor R) * rng :=
  match attr (MFBernoulli.p self) with
  | Raise e => (Raise e, g)
  | Ok p =>
      match zeros size with
      | Raise e => (Raise e, g)
      | Ok z =>
          let r := fill_columns
                     (fun d => draw_with (getitem (H:=wrapping) p d)
                                 (fun pd => bernoulli_rvs pd (fst size)))
                     (snd size) (range (MFBernoulli.num_vars self)) z g in
          (T2 <$> fst r, snd r)
      end
  end.

(** [MFBeta.sample(size, sess)] *)
Definition MFBeta_sample (self : MFBeta.t) (size : Z * Z) (g : rng)
  : res (tensor R) * rng :=
  match (a ← attr (MFBeta.a self); b ← attr (MFBeta.b self); Ok (a, b)) with
  | Raise e => (Raise e, g)
  | Ok (a, b) =>
      match zeros size with
      | Raise e => (Raise e, g)
      | Ok z =>
          let r := fill_columns
                     (fun d => draw_with
                                 (ad ← getitem (H:=wrapping) a d;
                                  bd ← getitem (H:=wrapping) b d; Ok (ad, bd))
                                 (fun ab => beta_rvs (fst ab) (snd ab) (fst size)))
                     (snd size) (range (MFBeta.num_vars self)) z g in
          (T2 <$> fst r, snd r)
      end
  end.

(** [MFInvGamma.sample(size, sess)] *)
Definition MFInvGamma_sample (self : MFInvGamma.t) (size : Z * Z) (g : rng)
  : res (tensor R) * rng :=
  let a := MFInvGamma.transform (MFInvGamma.a_unconst self) in
  let b := MFInvGamma.transform (MFInvGamma.b_unconst self) in
  match zeros size with
  | Raise e => (Raise e, g)
  | Ok z =>
      let r := fill_columns
                 (fun d => draw_with
                             (ad ← getitem (H:=wrapping) a d;
                              bd ← getitem (H:=wrapping) b d; Ok (ad, bd))
                             (fun ab => invgamma_rvs (fst ab) (snd ab) (fst size)))
                 (snd size) (range (MFInvGamma.num_vars self)) z g in
      (T2 <$> fst r, snd r)
  end.
End Sampling.

(** ** [mapping] *)
Section Mapping.
Context {R : Type} `{Stats R} `{!Variables R}.

(** Two statements in a row, each of which may raise and change the
    store. *)
Definition then_ {A B} (m : store -> res A * store)
    (k : A -> store -> res B * store) (st : store) : res B * store :=
  match m st with
  | (Ok a, st') => k a st'
  | (Raise e, st') => (Raise e, st')
  end.




Definition MFGaussian_mapping {X} (self : MFGaussian.t (R:=R)) (x : X)
  : store -> res (list (tensor R)) * store :=
  then_ (new_variable "mu" [MFGaussian.num_vars self]) (fun mean =>
  then_ (new_variable "sigma" [MFGaussian.num_vars self]) (fun stddev st =>
  (Ok [mean; tmap softplus stddev], st))).

End Mapping.

(** ** What a sampling loop is meant to leave behind *)
Section SamplingSpec.
Context {R : Type} `{Stats R}.

(** The arrays drawn for the columns [ds], in order, and the generator they
    leave; the run ends with the first draw that raises. *)
Fixpoint draw_run (draw : Z -> rng -> res (list R) * rng) (ds : list Z)
    (g : rng) : list (list R) * rng :=
  match ds with
  | [] => ([], g)
  | d :: ds' =>
      match draw d g with
      | (Ok v, g') =>
          let r := draw_run draw ds' g' in (v :: fst r, snd r)
      | (Raise _, g') => ([], g')
      end
  end.

(** Entry [(r, j)] of an array given as the list of its rows. *)
Definition entry (z : list (list R)) (r j : nat) (d : R) : R :=
  nth j (nth r z []) d.

(** Every draw for a column below [hi] returns, with one value for each of
    [n] rows. *)
Definition draws_rows (draw : Z -> rng -> res (list R) * rng) (n : nat)
    (hi : Z) : Prop :=
  forall d g, 0 <= d < hi ->
              exists v g', draw d g = (Ok v, g') /\ length v = n.
End SamplingSpec.

(** Samplers and variables for running the definitions: a draw is as many
    copies of its first parameter as asked for, a variable is a vector of
    ones of the size asked for. *)
Definition example_draw (p : tensor Q) (n : Z) (g : nat)
  : res (list Q) * nat :=
  (Ok (replicate (Z.to_nat n) (match p with T0 x => x | _ => 0%Q end)), S g).

Definition example_samplers : @Samplers Q example_stats :=
  @Build_Samplers Q example_stats
    example_draw
    (fun a b => example_draw a)
    (fun a b => example_draw a).

Definition example_variables : Variables Q := {|
  store := list string;
  new_variable := fun name shape st =>
    (Ok (T1 (replicate (Z.to_nat (default 0 (head shape))) 1%Q)), st ++ [name]);
  sigmoid := fun x => (x / (1 + x))%Q
|}.

(** * Part IV: what [wake_sleep] copies and ignores *)

(** A key of the data binding that is a random variable. *)
Definition is_rv_key (k : dkey) : bool :=
  match k with
  | KRandomVariable _ => true
  | KOther _ => false
  end.

(** The bindings of the data whose key is a random variable. *)
Definition observed (data : list (dkey * dval)) : list (dkey * dval) :=
  filter (fun xq : dkey * dval => is_rv_key xq.1) data.

(** The random variables bound to observed random variables: the values
    that lines 85-91 copy. *)
Definition observed_rvs (data : list (dkey * dval)) : list rv :=
  omap (fun xq : dkey * dval =>
          match xq with
          | (KRandomVariable _, VRandomVariable qx) => Some qx
          | _ => None
          end) data.

(** What a node is a copy of, whether it was made under substitutions, and
    its scope. *)
Definition copied (nd : copy_node) : rv * bool * string :=
  (c_org nd, bool_decide (is_Some (c_dict_swap nd)), c_scope nd).

(** The copies of one sample, in the order they are made: under the scope
    of the q-sample, the observed random variables, every [qz], every [z]
    and every observed key; in the sleep phase, under the scope of the
    p-sample, every [z] and every [qz]. *)
Definition step_copies (scope_q scope_p : string) (phase_q : string)
    (latent_vars : list (rv * rv)) (data : list (dkey * dval))
  : list (rv * bool * string) :=
  ((fun qx => (qx, false, scope_q)) <$> observed_rvs data)
  ++ ((fun qz => (qz, false, scope_q)) <$> latent_vars.*2)
  ++ ((fun z => (z, true, scope_q)) <$> latent_vars.*1)
  ++ ((fun x => (x, true, scope_q)) <$> rv_keys data)
  ++ (if decide (phase_q = "sleep")
      then ((fun z => (z, false, scope_p)) <$> latent_vars.*1)
           ++ ((fun qz => (qz, true, scope_p)) <$> latent_vars.*2)
      else []).

(** The copies of the samples [k], [k + 1], ... of a call whose scope is
    [base_scope], when [q_sample] was used [kq] times before and [p_sample]
    [kp] times. *)
Definition all_copies (base_scope : string) (kq kp : nat) (phase_q : string)
    (latent_vars : list (rv * rv)) (data : list (dkey * dval)) (n : nat)
  : list (rv * bool * string) :=
  mjoin ((fun s => step_copies (base_scope +:+ issued "q_sample" (kq + s))
                               (base_scope +:+ issued "p_sample" (kp + s))
                               phase_q latent_vars data) <$> seq 0 n).

(** A term scaled by the multiplier of the variable [k]. *)
Definition scaled_by (scale : gmap rv expr) (k : rv) (t : expr) : Prop :=
  exists c v, t = EReduceSum (EMul (scale_get scale k) (ELogProb c v)).

(** The graph after a call that made no copy. *)
Definition after_no_samples (collections : option (list string)) (g : graph)
  : graph :=
  {| names := names (use_name "inference" g);
     nodes := nodes g;
     regularization_losses := regularization_losses g;
     summaries := summaries g
                  ++ logged collections [] [] (regularization_losses g) |}.

(** A collaborator that rejects its argument. *)
Definition reject {A B} (e : exn) (o : A) : res B := Raise e.

(** * Part I: properties of the families *)

(** ** Results *)
Lemma raises_Raise {A} (e : exn) : raises (@Raise A e).
Proof. by exists e. Qed.

Lemma returns_Ok {A} (a : A) : returns (Ok a).
Proof. by exists a. Qed.

Lemma raises_not_returns {A} (m : res A) : raises m -> ~ returns m.
Proof. intros [e ->] [a Ha]. discriminate. Qed.

Lemma raises_bind {A B} (m : res A) (f : A -> res B) :
  raises m -> raises (m ≫= f).
Proof. intros [e ->]. apply raises_Raise. Qed.

Lemma raises_fmap {A B} (m : res A) (f : A -> B) :
  raises m -> raises (f <$> m).
Proof. intros [e ->]. apply raises_Raise. Qed.

Lemma mapM_Ok {A B} (f : A -> res B) (g : A -> B) (l : list A) :
  Forall (fun x => f x = Ok (g x)) l -> mapM f l = Ok (map g l).
Proof.
  induction 1 as [|x l Hx _ IH]; [reflexivity|].
  cbn. rewrite Hx. cbn. rewrite IH. reflexivity.
Qed.

(** ** Broadcasting *)
Section BroadcastFacts.
Context {A B C : Type} (f : A -> B -> C).

Lemma bvec_same (u : list A) (v : list B) :
  length u = length v -> bvec f u v = Ok (zip_with f u v).
Proof.
  intros Hlen. unfold bvec.
  destruct u as [|x [|x' u]], v as [|y [|y' v]]; try discriminate;
    try reflexivity.
  rewrite decide_True; [reflexivity|done].
Qed.

Lemma bvec_scalar_r (u : list A) (y : B) :
  bvec f u [y] = Ok (map (fun x => f x y) u).
Proof. by destruct u as [|x [|x' u]]. Qed.

Lemma bvec_scalar_l (x : A) (v : list B) :
  bvec f [x] v = Ok (map (f x) v).
Proof. reflexivity. Qed.

(** A matrix against one row: the row is paired with every row. *)
Lemma bmat_row_r (a : list (list A)) (v : list B) :
  Forall (fun u => length u = length v) a ->
  bmat f a [v] = Ok (map (fun u => zip_with f u v) a).
Proof.
  intros Ha. unfold bmat.
  assert (Hm : mapM (fun u => bvec f u v) a
               = Ok (map (fun u => zip_with f u v) a)).
  { apply mapM_Ok. eapply Forall_impl; [exact Ha|].
    intros u Hu. by apply bvec_same. }
  destruct a as [|u [|u' a]]; [done| |done].
  cbn. inversion_clear Ha as [|? ? Hu _]. by rewrite (bvec_same u v Hu).
Qed.

Lemma bmat_row_l (u : list A) (b : list (list B)) :
  Forall (fun v => length v = length u) b ->
  bmat f [u] b = Ok (map (fun v => zip_with f u v) b).
Proof.
  intros Hb. unfold bmat. apply mapM_Ok.
  eapply Forall_impl; [exact Hb|]. intros v Hv. by apply bvec_same.
Qed.
End BroadcastFacts.

(** ** The Gaussian family: reparameterisation *)
Section GaussianFacts.
Context {R : Type} `{Num R} `{Stats R}.

Lemma affine_length (mv sv row : list R) :
  length sv = length mv -> length row = length mv ->
  length (affine mv sv row) = length mv.
Proof.
  intros Hs Hr. unfold affine. rewrite !length_zip_with. lia.
Qed.

Lemma reparam_unfold (self : MFGaussian.t) (eps : tensor R) :
  MFGaussian.reparam self eps
  = (es ← (attr (MFGaussian.s self) ≫= fun s => tmul eps s);
     m ← attr (MFGaussian.m self); tadd m es).
Proof. reflexivity. Qed.

Lemma reparam_matrix (self : MFGaussian.t) (mv sv : list R)
    (rows : list (list R)) :
  MFGaussian.m self = Some (T1 mv) ->
  MFGaussian.s self = Some (T1 sv) ->
  length sv = length mv ->
  Forall (fun row => length row = length mv) rows ->
  MFGaussian.reparam self (T2 rows) = Ok (T2 (map (affine mv sv) rows)).
Proof.
  intros Hm Hs Hlen Hrows. rewrite reparam_unfold, Hm, Hs. cbn.
  rewrite (bmat_row_r nmul rows sv).
  2:{ eapply Forall_impl; [exact Hrows|]. cbn. intros; congruence. }
  cbn. rewrite (mapM_Ok _ (zip_with nadd mv)).
  2:{ apply Forall_map. eapply Forall_impl; [exact Hrows|].
      cbn. intros row Hrow. apply bvec_same. rewrite length_zip_with. lia. }
  cbn. by rewrite map_map.
Qed.

Lemma reparam_vector (self : MFGaussian.t) (mv sv ev : list R) :
  MFGaussian.m self = Some (T1 mv) ->
  MFGaussian.s self = Some (T1 sv) ->
  length sv = length mv -> length ev = length mv ->
  MFGaussian.reparam self (T1 ev) = Ok (T1 (affine mv sv ev)).
Proof.
  intros Hm Hs Hlen Hev. rewrite reparam_unfold, Hm, Hs. cbn.
  rewrite (bvec_same nmul ev sv) by congruence. cbn.
  rewrite (bvec_same nadd mv) by (rewrite length_zip_with; lia).
  reflexivity.
Qed.
End GaussianFacts.

(** C5.  For the Gaussian family, [reparam(eps)] is [m + eps * s] with the
    two operators of the array library; on a vector or on a matrix of noise
    whose rows have the size of [m] and [s], that is entry by entry
    [m[j] + eps[r][j] * s[j]].  The result is fixed by [m], [s] and [eps].
    [sample] is the method of the base class, and returns
    [reparam(sample_noise(size))], the noise being [norm.rvs(size=size)]. *)
Theorem MFGaussian_reparam_sample {R : Type} `{Indexing} `{Num R} `{Stats R} :
  (forall (self : MFGaussian.t) (eps : tensor R),
      MFGaussian.reparam self eps
      = (es ← (attr (MFGaussian.s self) ≫= fun s => tmul eps s);
         m ← attr (MFGaussian.m self); tadd m es))
  /\ (forall (self : MFGaussian.t) (mv sv : list R),
      MFGaussian.m self = Some (T1 mv) ->
      MFGaussian.s self = Some (T1 sv) ->
      length sv = length mv ->
      (forall ev, length ev = length mv ->
         MFGaussian.reparam self (T1 ev) = Ok (T1 (affine mv sv ev)))
      /\ (forall rows, Forall (fun row => length row = length mv) rows ->
         MFGaussian.reparam self (T2 rows)
         = Ok (T2 (map (affine mv sv) rows))))
  /\ (forall (self self' : MFGaussian.t) (eps : tensor R),
      MFGaussian.m self = MFGaussian.m self' ->
      MFGaussian.s self = MFGaussian.s self' ->
      MFGaussian.reparam self eps = MFGaussian.reparam self' eps)
  /\ (forall (self : MFGaussian.t) (size : list Z) (g : rng),
      MFGaussian.sample self size g = Likelihood.sample self size g
      /\ MFGaussian.sample_noise self size g = norm_rvs size g
      /\ MFGaussian.sample self size g
         = match MFGaussian.sample_noise self size g with
           | (Ok eps, g') => (MFGaussian.reparam self eps, g')
           | (Raise e, g') => (Raise e, g')
           end).
Proof.
  split; [intros; apply reparam_unfold|].
  split.
  { intros self mv sv Hm Hs Hlen. split.
    - intros ev Hev. by apply reparam_vector.
    - intros rows Hrows. by apply reparam_matrix. }
  split.
  { intros self self' eps Hm Hs. rewrite !reparam_unfold. by rewrite Hm, Hs. }
  intros self size g. repeat split; reflexivity.
Qed.

Lemma MFGaussian_reparam_sample_witness :
  let self : MFGaussian.t (R:=Q) :=
    {| MFGaussian.num_vars := 2; MFGaussian.num_params := 4;
       MFGaussian.m := Some (T1 [1; 2]%Q); MFGaussian.s := Some (T1 [3; 4]%Q) |} in
  MFGaussian.reparam self (T2 [[5; 6]; [7; 8]]%Q)
  = Ok (T2 [[1 + 5 * 3; 2 + 6 * 4]; [1 + 7 * 3; 2 + 8 * 4]]%Q).
Proof.
  intros self.
  destruct (@MFGaussian_reparam_sample Q rejecting _ example_stats)
    as (_ & Hentry & _).
  destruct (Hentry self [1; 2]%Q [3; 4]%Q eq_refl eq_refl eq_refl) as [_ Hrows].
  apply (Hrows [[5; 6]; [7; 8]]%Q).
  repeat constructor.
Defined.

(** ** The Bernoulli family: [set_params] *)
Section BernoulliFacts.
Context {R : Type} `{Indexing} `{Num R}.

Lemma constrain_vector (v : list R) :
  (1 < length v)%nat ->
  MFBernoulli.constrain (T1 v) (Z.of_nat (length v))
  = Ok (T1 (simplex_front v ++ [nsub n1 (vsum (simplex_front v))])).
Proof.
  intros Hlen. unfold MFBernoulli.constrain, slice_to, simplex_front.
  replace (0 <=? Z.of_nat (length v) - 1) with true
    by (symmetry; apply Z.leb_le; lia).
  replace (Z.to_nat (Z.of_nat (length v) - 1)) with (length v - 1)%nat by lia.
  reflexivity.
Qed.

Lemma set_params_vector (self : MFBernoulli.t) (v : list R)
    (rest : list (tensor R)) :
  (1 < length v)%nat ->
  MFBernoulli.set_params self (T1 v :: rest)
  = (Ok tt, MFBernoulli.with_p self
              (T1 (simplex_front v ++ [nsub n1 (vsum (simplex_front v))]))).
Proof.
  intros Hlen. unfold MFBernoulli.set_params. cbn [lookup list_lookup get_dims].
  replace (Z.of_nat (length v) >? 1) with true
    by (symmetry; apply Z.gtb_lt; lia).
  by rewrite constrain_vector.
Qed.

Lemma set_params_small (self : MFBernoulli.t) (p0 : tensor R) (d : Z)
    (rest : list (tensor R)) :
  get_dims p0 !! 0%nat = Some d -> d <= 1 ->
  MFBernoulli.set_params self (p0 :: rest)
  = (Ok tt, MFBernoulli.with_p self p0).
Proof.
  intros Hd Hle. unfold MFBernoulli.set_params.
  change ((p0 :: rest) !! 0%nat) with (Some p0). cbv beta iota.
  rewrite Hd.
  replace (d >? 1) with false
    by (symmetry; rewrite Z.gtb_ltb; apply Z.ltb_ge; lia).
  reflexivity.
Qed.
End BernoulliFacts.


Lemma simplex_front_length {R} (v : list R) :
  length (simplex_front v) = (length v - 1)%nat.
Proof. unfold simplex_front. rewrite length_take. lia. Qed.



(** C10.  For the Bernoulli family over one variable, [set_params] stores
    [params[0]] as it is: the last coordinate is rebuilt only when the first
    dimension of the parameter is greater than one, and so the single
    probability is not made to sum to one. *)
Theorem MFBernoulli_set_params_single {R : Type} `{Indexing} `{Num R}
    (self : MFBernoulli.t) (rest : list (tensor R)) :
  (forall x : R,
      MFBernoulli.num_vars self = 1 ->
      MFBernoulli.set_params self (T1 [x] :: rest)
      = (Ok tt, MFBernoulli.with_p self (T1 [x]))
      /\ MFBernoulli.p (snd (MFBernoulli.set_params self (T1 [x] :: rest)))
         = (T1 [x] :: rest) !! 0%nat)
  /\ (forall (p0 : tensor R) (d : Z),
      get_dims p0 !! 0%nat = Some d -> d <= 1 ->
      MFBernoulli.set_params self (p0 :: rest)
      = (Ok tt, MFBernoulli.with_p self p0))
  /\ (forall v : list R,
      (1 < length v)%nat ->
      MFBernoulli.set_params self (T1 v :: rest)
      = (Ok tt, MFBernoulli.with_p self
                  (T1 (simplex_front v ++ [nsub n1 (vsum (simplex_front v))])))).
Proof.
  split.
  { intros x _. by rewrite (set_params_small self (T1 [x]) 1 rest). }
  split.
  { intros p0 d Hd Hle. by apply set_params_small with d. }
  intros v Hlen. by apply set_params_vector.
Qed.

Lemma MFBernoulli_set_params_single_witness :
  MFBernoulli.set_params (H:=rejecting) (MFBernoulli.__init__ 1) [T1 [1 # 3]%Q]
  = (Ok tt, MFBernoulli.with_p (MFBernoulli.__init__ 1) (T1 [1 # 3]%Q))
  /\ ~ (vsum [1 # 3]%Q == 1)%Q.
Proof.
  split.
  - apply (proj1 (@MFBernoulli_set_params_single Q rejecting _
                    (MFBernoulli.__init__ 1) []) (1 # 3)%Q eq_refl).
  - cbn. intros Heq. discriminate Heq.
Defined.

(** ** The mixed family *)
Section MixFacts.
Context {R : Type} `{Indexing} `{Num R} `{Stats R}.

Lemma mix_guard (self : MFMixGaussian.t) (i : Z) (z : tensor R) :
  i >= MFMixGaussian.num_vars self ->
  raises (MFMixGaussian.log_prob_zi self i z).
Proof.
  intros Hge. unfold MFMixGaussian.log_prob_zi.
  replace (i >=? MFMixGaussian.num_vars self) with true
    by (symmetry; apply Z.geb_le; lia).
  repeat match goal with
         | |- raises (?m ≫= _) =>
             destruct m; [cbn | apply raises_bind, raises_Raise]
         end.
  apply raises_Raise.
Qed.

Lemma mix_in_range (self : MFMixGaussian.t) (i : Z) (z : tensor R) :
  i < MFMixGaussian.num_vars self ->
  MFMixGaussian.log_prob_zi self i z = sum_terms (terms_in_range self i z).
Proof.
  intros Hlt. unfold MFMixGaussian.log_prob_zi, terms_in_range, sum_terms.
  replace (i >=? MFMixGaussian.num_vars self) with false
    by (symmetry; rewrite Z.geb_leb; apply Z.leb_gt; lia).
  unfold MFMixGaussian.add_if.
  generalize (MFDirichlet.log_prob_zi (MFMixGaussian.dirich self) i z)
    (MFGaussian.log_prob_zi (MFMixGaussian.gauss self) i z)
    (MFInvGamma.log_prob_zi (MFMixGaussian.invgam self) i z)
    (tadd (R:=R)).
  intros d g v add.
  destruct (i <? MFDirichlet.num_vars _), (i <? MFGaussian.num_vars _),
    (i <? MFInvGamma.num_vars _), d, g, v; cbn;
    repeat match goal with
           | |- context [add ?a ?b] => destruct (add a b); cbn
           end; reflexivity.
Qed.
End MixFacts.

(** C7.  For the mixed family and an index [i] in [[0, num_vars)],
    [log_prob_zi(i, z)] is the sum of the terms of the sub-families whose own
    range, counted from zero, holds [i]; the ranges overlap, so an index
    below all three sizes gets all three terms.  For [i >= num_vars] it
    raises. *)
Theorem MFMixGaussian_log_prob_zi_sums {R : Type} `{Indexing} `{Num R} `{Stats R}
    (self : MFMixGaussian.t) (i : Z) (z : tensor R) :
  (0 <= i < MFMixGaussian.num_vars self ->
     MFMixGaussian.log_prob_zi self i z = sum_terms (terms_in_range self i z))
  /\ (i < MFDirichlet.num_vars (MFMixGaussian.dirich self) ->
      i < MFGaussian.num_vars (MFMixGaussian.gauss self) ->
      i < MFInvGamma.num_vars (MFMixGaussian.invgam self) ->
      terms_in_range self i z
      = [MFDirichlet.log_prob_zi (MFMixGaussian.dirich self) i z;
         MFGaussian.log_prob_zi (MFMixGaussian.gauss self) i z;
         MFInvGamma.log_prob_zi (MFMixGaussian.invgam self) i z])
  /\ (i >= MFMixGaussian.num_vars self ->
      raises (MFMixGaussian.log_prob_zi self i z)).
Proof.
  split; [intros [_ Hlt]; by apply mix_in_range|].
  split; [|apply mix_guard].
  intros Hd Hg Hv. unfold terms_in_range.
  by rewrite !(proj2 (Z.ltb_lt _ _)).
Qed.

Lemma MFMixGaussian_log_prob_zi_sums_witness :
  let self : MFMixGaussian.t (R:=Q) :=
    {| MFMixGaussian.K := 1;
       MFMixGaussian.dirich := MFDirichlet.__init__ 1 1 (T2 [[1%Q]]);
       MFMixGaussian.gauss :=
         {| MFGaussian.num_vars := 1; MFGaussian.num_params := 2;
            MFGaussian.m := Some (T1 [0%Q]); MFGaussian.s := Some (T1 [1%Q]) |};
       MFMixGaussian.invgam := MFInvGamma.__init__ 1 (T1 [1%Q]) (T1 [1%Q]);
       MFMixGaussian.num_vars := 3; MFMixGaussian.num_params := 5 |} in
  let z := T2 [[1; 2; 3]; [4; 5; 6]]%Q in
  MFMixGaussian.log_prob_zi (H:=rejecting) (H1:=example_stats) self 0 z
  = sum_terms (terms_in_range (H:=rejecting) (H1:=example_stats) self 0 z)
  /\ length (terms_in_range (H:=rejecting) (H1:=example_stats) self 0 z) = 3%nat
  /\ raises (MFMixGaussian.log_prob_zi (H:=rejecting) (H1:=example_stats) self 3 z).
Proof.
  intros self z.
  destruct (@MFMixGaussian_log_prob_zi_sums Q rejecting _ example_stats self 0 z)
    as (Hsum & Hall & _).
  destruct (@MFMixGaussian_log_prob_zi_sums Q rejecting _ example_stats self 3 z)
    as (_ & _ & Hraise).
  split; [apply Hsum; cbn; lia|].
  split; [rewrite Hall; [reflexivity | cbn; lia ..]|].
  apply Hraise. cbn. lia.
Defined.

(** ** Indexing *)
Section IndexingFacts.
Context `{Indexing}.

Lemma index_in_range (n : nat) (i : Z) :
  0 <= i < Z.of_nat n -> index_in n i = Ok (Z.to_nat i).
Proof.
  intros [H0 Hn]. unfold index_in.
  rewrite (proj2 (Z.leb_le 0 i) H0), (proj2 (Z.ltb_lt _ _) Hn). reflexivity.
Qed.

Lemma index_in_rejected (n : nat) (i : Z) :
  negative_indexing = false -> i < 0 ->
  index_in n i = Raise NotImplementedError.
Proof.
  intros Hrej Hneg. unfold index_in.
  rewrite (proj2 (Z.leb_gt 0 i) Hneg), Hrej. reflexivity.
Qed.

Lemma item_in_range {A} (l : list A) (i : Z) :
  0 <= i < Z.of_nat (length l) -> returns (item l i).
Proof.
  intros Hi. unfold item. rewrite index_in_range by done. cbn.
  destruct (lookup_lt_is_Some_2 l (Z.to_nat i)) as [x Hx]; [lia|].
  rewrite Hx. apply returns_Ok.
Qed.

Lemma item_rejected {A} (l : list A) (i : Z) :
  negative_indexing = false -> i < 0 -> raises (item l i).
Proof.
  intros Hrej Hneg. unfold item. rewrite index_in_rejected by done.
  apply raises_Raise.
Qed.

Context {R : Type}.

Lemma getitem_rejected (t : tensor R) (i : Z) :
  negative_indexing = false -> i < 0 -> raises (getitem t i).
Proof.
  intros Hrej Hneg. destruct t; cbn;
    [apply raises_Raise | apply raises_fmap, item_rejected; done ..].
Qed.

Lemma getrow_rejected (t : tensor R) (i : Z) :
  negative_indexing = false -> i < 0 -> raises (getrow t i).
Proof.
  intros Hrej Hneg. destruct t; cbn;
    [apply raises_Raise .. | by apply item_rejected].
Qed.

Lemma getcol_rejected (t : tensor R) (i : Z) :
  negative_indexing = false -> i < 0 -> raises (getcol t i).
Proof.
  intros Hrej Hneg. destruct t; cbn; [apply raises_Raise ..|].
  rewrite (proj2 (Z.ltb_lt i 0) Hneg), Hrej. apply raises_Raise.
Qed.

Lemma getitem_vector (v : list R) (i : Z) :
  0 <= i < Z.of_nat (length v) -> exists x, getitem (T1 v) i = Ok (T0 x).
Proof.
  intros Hi. destruct (item_in_range v i Hi) as [x Hx].
  exists x. cbn. by rewrite Hx.
Qed.

Lemma getrow_in_range (rows : list (list R)) (i : Z) :
  0 <= i < Z.of_nat (length rows) -> returns (getrow (T2 rows) i).
Proof. intros Hi. cbn. by apply item_in_range. Qed.

Lemma mapM_returns {A B} (f : A -> res B) (l : list A) :
  Forall (fun x => returns (f x)) l ->
  exists k, mapM f l = Ok k /\ length k = length l.
Proof.
  induction 1 as [|x l [y Hy] _ (k & Hk & Hlen)].
  - by exists [].
  - exists (y :: k). cbn. rewrite Hy. cbn. rewrite Hk. cbn.
    split; [reflexivity | by rewrite Hlen].
Qed.

Lemma getcol_in_range (rows : list (list R)) (i : Z) :
  0 <= i -> Forall (fun r => i < Z.of_nat (length r)) rows ->
  exists col, getcol (T2 rows) i = Ok col /\ length col = length rows.
Proof.
  intros H0 Hrows. cbn.
  rewrite (proj2 (Z.ltb_ge i 0) H0). cbn.
  apply mapM_returns. eapply Forall_impl; [exact Hrows|].
  cbn. intros r Hr. by apply item_in_range.
Qed.
End IndexingFacts.

(** ** Shapes *)
Lemma broadcast_vector_scalar {A B C} (f : A -> B -> C) (u : list A) (y : B) :
  broadcast f (T1 u) (T0 y) = Ok (T1 (map (fun x => f x y) u)).
Proof. cbn. by rewrite bvec_scalar_r. Qed.

Lemma broadcast3_vector_scalars {A B C D} (f : A -> B -> C -> D)
    (u : list A) (a : B) (b : C) :
  broadcast3 f (T1 u) (T0 a) (T0 b) = Ok (T1 (map (fun x => f x a b) u)).
Proof.
  unfold broadcast3. rewrite broadcast_vector_scalar. cbn.
  rewrite bvec_scalar_r. by rewrite map_map.
Qed.

Lemma concat_scalars {R} (x : R) (xs : list R) :
  concat (T0 <$> (x :: xs)) = Ok (T1 (x :: xs)).
Proof.
  revert x. induction xs as [|y xs IH]; intros x; [reflexivity|].
  change (concat (T0 <$> x :: y :: xs))
    with (r ← concat (T0 <$> (y :: xs));
          match at_least_1d (T0 x), r with
          | T1 u, T1 v => Ok (T1 (u ++ v))
          | T2 a, T2 b => Ok (T2 (a ++ b))
          | _, _ => Raise ValueError
          end).
  by rewrite IH.
Qed.

Lemma mapM_scalars {A R} (f : A -> res (tensor R)) (l : list A) :
  Forall (fun x => exists y, f x = Ok (T0 y)) l ->
  exists ys, mapM f l = Ok (T0 <$> ys) /\ length ys = length l.
Proof.
  induction 1 as [|x l [y Hy] _ (ys & Hys & Hlen)].
  - by exists [].
  - exists (y :: ys). cbn. rewrite Hy. cbn. rewrite Hys. cbn.
    split; [reflexivity | by rewrite Hlen].
Qed.

(** ** [log_prob_zi]: the index check, family by family *)
Section LogProbFacts.
Context {R : Type} `{Indexing} `{Num R} `{Stats R}.

Ltac guard_fires :=
  match goal with
  | Hge : ?i >= ?n |- context [?i >=? ?n] =>
      replace (i >=? n) with true by (symmetry; apply Z.geb_le; lia)
  end; apply raises_Raise.

Ltac guard_passes :=
  match goal with
  | |- context [?i >=? ?n] =>
      replace (i >=? n) with false
        by (symmetry; rewrite Z.geb_leb; apply Z.leb_gt; lia)
  end.

(** *** Bernoulli *)
Lemma bernoulli_guard (self : MFBernoulli.t) (i : Z) (z : tensor R) :
  i >= MFBernoulli.num_vars self -> raises (MFBernoulli.log_prob_zi self i z).
Proof. intros Hge. unfold MFBernoulli.log_prob_zi. guard_fires. Qed.

Lemma bernoulli_rejected (self : MFBernoulli.t) (i : Z) (z : tensor R) :
  negative_indexing = false -> i < 0 ->
  raises (MFBernoulli.log_prob_zi self i z).
Proof.
  intros Hrej Hneg. unfold MFBernoulli.log_prob_zi.
  destruct (i >=? _); [apply raises_Raise|].
  by apply raises_bind, getcol_rejected.
Qed.

Lemma bernoulli_returns (self : MFBernoulli.t) (i : Z) (z : tensor R) :
  0 <= i < MFBernoulli.num_vars self ->
  has_entry (MFBernoulli.p self) i -> has_column z i ->
  returns (MFBernoulli.log_prob_zi self i z).
Proof.
  intros Hi (pv & Hp & Hpv) (rows & -> & _ & Hrows).
  unfold MFBernoulli.log_prob_zi. guard_passes.
  destruct (getcol_in_range rows i) as (col & -> & _); [lia | done |].
  rewrite Hp. cbn [mbind res_bind attr].
  destruct (getitem_vector pv i) as [x ->]; [lia|].
  cbn [mbind res_bind]. rewrite broadcast_vector_scalar. apply returns_Ok.
Qed.

(** *** Beta *)
Lemma beta_guard (self : MFBeta.t) (i : Z) (z : tensor R) :
  i >= MFBeta.num_vars self -> raises (MFBeta.log_prob_zi self i z).
Proof. intros Hge. unfold MFBeta.log_prob_zi. guard_fires. Qed.

Lemma beta_rejected (self : MFBeta.t) (i : Z) (z : tensor R) :
  negative_indexing = false -> i < 0 ->
  raises (MFBeta.log_prob_zi self i z).
Proof.
  intros Hrej Hneg. unfold MFBeta.log_prob_zi.
  destruct (i >=? _); [apply raises_Raise|].
  by apply raises_bind, getcol_rejected.
Qed.

Lemma beta_returns (self : MFBeta.t) (i : Z) (z : tensor R) :
  0 <= i < MFBeta.num_vars self ->
  has_entry (MFBeta.a self) i -> has_entry (MFBeta.b self) i ->
  has_column z i ->
  returns (MFBeta.log_prob_zi self i z).
Proof.
  intros Hi (av & Ha & Hav) (bv & Hb & Hbv) (rows & -> & _ & Hrows).
  unfold MFBeta.log_prob_zi. guard_passes.
  destruct (getcol_in_range rows i) as (col & -> & _); [lia | done |].
  rewrite Ha, Hb. cbn [mbind res_bind attr].
  destruct (getitem_vector av i) as [x ->]; [lia|].
  destruct (getitem_vector bv i) as [y ->]; [lia|].
  cbn [mbind res_bind]. rewrite broadcast3_vector_scalars. apply returns_Ok.
Qed.

(** *** Gaussian *)
Lemma gaussian_guard (self : MFGaussian.t) (i : Z) (z : tensor R) :
  i >= MFGaussian.num_vars self -> raises (MFGaussian.log_prob_zi self i z).
Proof. intros Hge. unfold MFGaussian.log_prob_zi. guard_fires. Qed.

Lemma gaussian_rejected (self : MFGaussian.t) (i : Z) (z : tensor R) :
  negative_indexing = false -> i < 0 ->
  raises (MFGaussian.log_prob_zi self i z).
Proof.
  intros Hrej Hneg. unfold MFGaussian.log_prob_zi.
  destruct (i >=? _); [apply raises_Raise|].
  apply raises_bind. destruct (MFGaussian.m self) as [m|]; cbn.
  - by apply getitem_rejected.
  - apply raises_Raise.
Qed.

Lemma gaussian_vector (self : MFGaussian.t) (i : Z) (rows : list (list R)) :
  0 <= i < MFGaussian.num_vars self ->
  has_entry (MFGaussian.m self) i -> has_entry (MFGaussian.s self) i ->
  rows <> [] -> Forall (fun r => i < Z.of_nat (length r)) rows ->
  exists v, MFGaussian.log_prob_zi self i (T2 rows) = Ok (T1 v)
            /\ length v = length rows.
Proof.
  intros Hi (mv & Hm & Hmv) (sv & Hs & Hsv) Hne Hrows.
  unfold MFGaussian.log_prob_zi. guard_passes.
  rewrite Hm, Hs. cbn [mbind res_bind attr].
  destruct (getitem_vector mv i) as [mi ->]; [lia|].
  destruct (getitem_vector sv i) as [si ->]; [lia|].
  cbn [mbind res_bind unpack].
  destruct (mapM_scalars
              (fun zm => zmi ← getitem zm i; broadcast3 norm_logpdf zmi (T0 mi) (T0 si))
              (T1 <$> rows)) as (ys & -> & Hlen).
  { apply Forall_fmap. eapply Forall_impl; [exact Hrows|].
    intros r Hr. cbn beta in Hr |- *.
    destruct (getitem_vector r i) as [x Hx]; [lia|].
    exists (norm_logpdf x mi si). unfold compose. by rewrite Hx. }
  rewrite length_fmap in Hlen. cbn [mbind res_bind].
  destruct ys as [|y ys]; [by destruct rows|].
  rewrite concat_scalars. by exists (y :: ys).
Qed.

Lemma gaussian_returns (self : MFGaussian.t) (i : Z) (z : tensor R) :
  0 <= i < MFGaussian.num_vars self ->
  has_entry (MFGaussian.m self) i -> has_entry (MFGaussian.s self) i ->
  has_column z i ->
  returns (MFGaussian.log_prob_zi self i z).
Proof.
  intros Hi Hm Hs (rows & -> & Hne & Hrows).
  destruct (gaussian_vector self i rows) as (v & -> & _); try done.
  apply returns_Ok.
Qed.

(** *** Dirichlet *)
Lemma dirichlet_guard (self : MFDirichlet.t) (i : Z) (z : tensor R) :
  i >= MFDirichlet.num_vars self -> raises (MFDirichlet.log_prob_zi self i z).
Proof. intros Hge. unfold MFDirichlet.log_prob_zi. guard_fires. Qed.

Lemma dirichlet_rejected (self : MFDirichlet.t) (i : Z) (z : tensor R) :
  negative_indexing = false -> i < 0 ->
  raises (MFDirichlet.log_prob_zi self i z).
Proof.
  intros Hrej Hneg. unfold MFDirichlet.log_prob_zi.
  destruct (i >=? _); [apply raises_Raise|].
  by apply raises_bind, getrow_rejected.
Qed.

Lemma dirichlet_scalar (self : MFDirichlet.t) (i : Z) (z : tensor R) :
  0 <= i < MFDirichlet.num_vars self ->
  has_row (MFDirichlet.alpha_unconst self) i -> has_column z i ->
  exists x, MFDirichlet.log_prob_zi self i z = Ok (T0 x).
Proof.
  intros Hi (arows & Ha & Harows) (rows & -> & _ & Hrows).
  unfold MFDirichlet.log_prob_zi, MFDirichlet.transform. guard_passes.
  rewrite Ha. cbn [tmap].
  destruct (getrow_in_range (map (map softplus) arows) i) as [alphai ->];
    [rewrite length_map; lia|].
  destruct (getcol_in_range rows i) as (col & -> & _); [lia | done |].
  cbn. by eexists.
Qed.

(** *** Inverse gamma *)
Lemma invgamma_guard (self : MFInvGamma.t) (i : Z) (z : tensor R) :
  i >= MFInvGamma.num_vars self -> raises (MFInvGamma.log_prob_zi self i z).
Proof. intros Hge. unfold MFInvGamma.log_prob_zi. guard_fires. Qed.

Lemma invgamma_rejected (self : MFInvGamma.t) (i : Z) (z : tensor R) :
  negative_indexing = false -> i < 0 ->
  raises (MFInvGamma.log_prob_zi self i z).
Proof.
  intros Hrej Hneg. unfold MFInvGamma.log_prob_zi.
  destruct (i >=? _); [apply raises_Raise|].
  by apply raises_bind, getitem_rejected.
Qed.

Lemma invgamma_vector (self : MFInvGamma.t) (i : Z) (rows : list (list R)) :
  0 <= i < MFInvGamma.num_vars self ->
  has_entry (Some (MFInvGamma.a_unconst self)) i ->
  has_entry (Some (MFInvGamma.b_unconst self)) i ->
  Forall (fun r => i < Z.of_nat (length r)) rows ->
  exists v, MFInvGamma.log_prob_zi self i (T2 rows) = Ok (T1 v)
            /\ length v = length rows.
Proof.
  intros Hi (av & [= Ha] & Hav) (bv & [= Hb] & Hbv) Hrows.
  unfold MFInvGamma.log_prob_zi, MFInvGamma.transform. guard_passes.
  rewrite Ha, Hb. cbn [tmap].
  destruct (getitem_vector (map softplus av) i) as [x ->];
    [rewrite length_map; lia|].
  destruct (getitem_vector (map softplus bv) i) as [y ->];
    [rewrite length_map; lia|].
  destruct (getcol_in_range rows i) as (col & -> & Hlen); [lia | done |].
  cbn [mbind res_bind]. rewrite broadcast3_vector_scalars.
  eexists. split; [reflexivity|]. by rewrite length_map.
Qed.

(** *** Point mass *)
Lemma pointmass_raises (self : PointMass.t) (i : Z) (z : tensor R) :
  PointMass.log_prob_zi self i z = Raise NotImplementedError.
Proof. reflexivity. Qed.
End LogProbFacts.

Section MixIndexFacts.
Context {R : Type} `{Indexing} `{Num R} `{Stats R}.

Lemma mix_rejected (self : MFMixGaussian.t) (i : Z) (z : tensor R) :
  negative_indexing = false -> i < 0 ->
  0 <= MFDirichlet.num_vars (MFMixGaussian.dirich self) ->
  raises (MFMixGaussian.log_prob_zi self i z).
Proof.
  intros Hrej Hneg Hd. unfold MFMixGaussian.log_prob_zi.
  apply raises_bind. unfold MFMixGaussian.add_if.
  rewrite (proj2 (Z.ltb_lt _ _)) by lia.
  by apply raises_bind, dirichlet_rejected.
Qed.

Lemma tadd_shape (n : nat) (t : tensor R) (v : list R) :
  sum_shape n t -> length v = n ->
  exists w, tadd t (T1 v) = Ok (T1 w) /\ length w = n.
Proof.
  intros [[x ->]|(u & -> & Hu)] Hv; cbn.
  - eexists. split; [reflexivity|]. by rewrite length_map.
  - rewrite bvec_same by congruence. cbn.
    eexists. split; [reflexivity|]. rewrite length_zip_with. lia.
Qed.

Lemma mix_returns (self : MFMixGaussian.t) (i : Z) (z : tensor R) :
  0 <= i < MFMixGaussian.num_vars self ->
  has_column z i ->
  (i < MFDirichlet.num_vars (MFMixGaussian.dirich self) ->
     has_row (MFDirichlet.alpha_unconst (MFMixGaussian.dirich self)) i) ->
  (i < MFGaussian.num_vars (MFMixGaussian.gauss self) ->
     has_entry (MFGaussian.m (MFMixGaussian.gauss self)) i
     /\ has_entry (MFGaussian.s (MFMixGaussian.gauss self)) i) ->
  (i < MFInvGamma.num_vars (MFMixGaussian.invgam self) ->
     has_entry (Some (MFInvGamma.a_unconst (MFMixGaussian.invgam self))) i
     /\ has_entry (Some (MFInvGamma.b_unconst (MFMixGaussian.invgam self))) i) ->
  returns (MFMixGaussian.log_prob_zi self i z).
Proof.
  intros Hi Hz Hdir Hgau Hinv.
  assert (Hz' := Hz). destruct Hz' as (rows & -> & Hne & Hrows).
  unfold MFMixGaussian.log_prob_zi.
  replace (i >=? MFMixGaussian.num_vars self) with false
    by (symmetry; rewrite Z.geb_leb; apply Z.leb_gt; lia).
  unfold MFMixGaussian.add_if.
  (* the Dirichlet term *)
  assert (exists t1, (if i <? MFDirichlet.num_vars (MFMixGaussian.dirich self)
                      then x ← MFDirichlet.log_prob_zi (MFMixGaussian.dirich self) i (T2 rows);
                           tadd (T0 n0) x
                      else Ok (T0 n0)) = Ok t1
                     /\ sum_shape (length rows) t1) as (t1 & -> & Ht1).
  { destruct (Z.ltb_spec i (MFDirichlet.num_vars (MFMixGaussian.dirich self))).
    - destruct (dirichlet_scalar (MFMixGaussian.dirich self) i (T2 rows))
        as [x ->]; [lia | by apply Hdir | done |].
      cbn. eexists. split; [reflexivity|]. left. by eexists.
    - eexists. split; [reflexivity|]. left. by eexists. }
  cbn [mbind res_bind].
  (* the Gaussian term *)
  assert (exists t2, (if i <? MFGaussian.num_vars (MFMixGaussian.gauss self)
                      then x ← MFGaussian.log_prob_zi (MFMixGaussian.gauss self) i (T2 rows);
                           tadd t1 x
                      else Ok t1) = Ok t2
                     /\ sum_shape (length rows) t2) as (t2 & -> & Ht2).
  { destruct (Z.ltb_spec i (MFGaussian.num_vars (MFMixGaussian.gauss self))).
    - destruct Hgau as [Hm Hs]; [done|].
      destruct (gaussian_vector (MFMixGaussian.gauss self) i rows)
        as (v & -> & Hv); [lia | done ..|].
      cbn [mbind res_bind].
      destruct (tadd_shape (length rows) t1 v Ht1 Hv) as (w & -> & Hw).
      eexists. split; [reflexivity|]. right. by eexists.
    - by eexists. }
  cbn [mbind res_bind].
  (* the inverse-gamma term *)
  destruct (Z.ltb_spec i (MFInvGamma.num_vars (MFMixGaussian.invgam self))).
  - destruct Hinv as [Ha Hb]; [done|].
    destruct (invgamma_vector (MFMixGaussian.invgam self) i rows)
      as (v & -> & Hv); [lia | done ..|].
    cbn [mbind res_bind].
    destruct (tadd_shape (length rows) t2 v Ht2 Hv) as (w & -> & Hw).
    apply returns_Ok.
  - apply returns_Ok.
Qed.
End MixIndexFacts.

(** C8, as the code has it.  Every family that defines [log_prob_zi]
    (Bernoulli, Beta, Gaussian, Dirichlet, inverse gamma, mixed) raises for
    every [i >= num_vars].  For [i] in [[0, num_vars)] it returns a value when
    column [i] of [z] can be read and the parameters it reads are set and
    long enough.  No family tests [i < 0]: such an index reaches the
    indexing of the array library, and the call raises when that library
    rejects negative indices.  [PointMass] has no [log_prob_zi] of its own:
    it raises [NotImplementedError] for every index. *)
Theorem log_prob_zi_index_check {R : Type} `{Indexing} `{Num R} `{Stats R}
    (i : Z) (z : tensor R) :
  (* above the range *)
  ((forall self, i >= MFBernoulli.num_vars self ->
      raises (MFBernoulli.log_prob_zi self i z))
   /\ (forall self, i >= MFBeta.num_vars self ->
      raises (MFBeta.log_prob_zi self i z))
   /\ (forall self, i >= MFGaussian.num_vars self ->
      raises (MFGaussian.log_prob_zi self i z))
   /\ (forall self, i >= MFDirichlet.num_vars self ->
      raises (MFDirichlet.log_prob_zi self i z))
   /\ (forall self, i >= MFInvGamma.num_vars self ->
      raises (MFInvGamma.log_prob_zi self i z))
   /\ (forall self, i >= MFMixGaussian.num_vars self ->
      raises (MFMixGaussian.log_prob_zi self i z)))
  (* in the range *)
  /\ ((forall self, 0 <= i < MFBernoulli.num_vars self ->
      has_entry (MFBernoulli.p self) i -> has_column z i ->
      returns (MFBernoulli.log_prob_zi self i z))
   /\ (forall self, 0 <= i < MFBeta.num_vars self ->
      has_entry (MFBeta.a self) i -> has_entry (MFBeta.b self) i ->
      has_column z i ->
      returns (MFBeta.log_prob_zi self i z))
   /\ (forall self, 0 <= i < MFGaussian.num_vars self ->
      has_entry (MFGaussian.m self) i -> has_entry (MFGaussian.s self) i ->
      has_column z i ->
      returns (MFGaussian.log_prob_zi self i z))
   /\ (forall self, 0 <= i < MFDirichlet.num_vars self ->
      has_row (MFDirichlet.alpha_unconst self) i -> has_column z i ->
      returns (MFDirichlet.log_prob_zi self i z))
   /\ (forall self, 0 <= i < MFInvGamma.num_vars self ->
      has_entry (Some (MFInvGamma.a_unconst self)) i ->
      has_entry (Some (MFInvGamma.b_unconst self)) i ->
      has_column z i ->
      returns (MFInvGamma.log_prob_zi self i z))
   /\ (forall self, 0 <= i < MFMixGaussian.num_vars self ->
      has_column z i ->
      (i < MFDirichlet.num_vars (MFMixGaussian.dirich self) ->
         has_row (MFDirichlet.alpha_unconst (MFMixGaussian.dirich self)) i) ->
      (i < MFGaussian.num_vars (MFMixGaussian.gauss self) ->
         has_entry (MFGaussian.m (MFMixGaussian.gauss self)) i
         /\ has_entry (MFGaussian.s (MFMixGaussian.gauss self)) i) ->
      (i < MFInvGamma.num_vars (MFMixGaussian.invgam self) ->
         has_entry (Some (MFInvGamma.a_unconst (MFMixGaussian.invgam self))) i
         /\ has_entry (Some (MFInvGamma.b_unconst (MFMixGaussian.invgam self))) i) ->
      returns (MFMixGaussian.log_prob_zi self i z)))
  (* below the range *)
  /\ (negative_indexing = false -> i < 0 ->
      (forall self, raises (MFBernoulli.log_prob_zi self i z))
      /\ (forall self, raises (MFBeta.log_prob_zi self i z))
      /\ (forall self, raises (MFGaussian.log_prob_zi self i z))
      /\ (forall self, raises (MFDirichlet.log_prob_zi self i z))
      /\ (forall self, raises (MFInvGamma.log_prob_zi self i z))
      /\ (forall self, 0 <= MFDirichlet.num_vars (MFMixGaussian.dirich self) ->
            raises (MFMixGaussian.log_prob_zi self i z)))
  (* the family without a density *)
  /\ (forall self : PointMass.t,
        PointMass.log_prob_zi self i z = Raise NotImplementedError).
Proof.
  split.
  { repeat split; intros self Hge;
      [ by apply bernoulli_guard | by apply beta_guard | by apply gaussian_guard
      | by apply dirichlet_guard | by apply invgamma_guard | by apply mix_guard ]. }
  split.
  { repeat split.
    - intros self. by apply bernoulli_returns.
    - intros self. by apply beta_returns.
    - intros self. by apply gaussian_returns.
    - intros self Hi Ha Hz.
      destruct (dirichlet_scalar self i z Hi Ha Hz) as [x ->]. apply returns_Ok.
    - intros self Hi Ha Hb (rows & -> & _ & Hrows).
      destruct (invgamma_vector self i rows Hi Ha Hb Hrows) as (v & -> & _).
      apply returns_Ok.
    - intros self. by apply mix_returns. }
  split.
  { intros Hrej Hneg. repeat split; intros self.
    - by apply bernoulli_rejected.
    - by apply beta_rejected.
    - by apply gaussian_rejected.
    - by apply dirichlet_rejected.
    - by apply invgamma_rejected.
    - intros Hd. by apply mix_rejected. }
  intros self. apply pointmass_raises.
Qed.

Lemma log_prob_zi_index_check_witness :
  let z := T2 [[1; 2]; [3; 4]]%Q in
  let bern : MFBernoulli.t (R:=Q) :=
    {| MFBernoulli.num_vars := 2; MFBernoulli.num_params := 2;
       MFBernoulli.p := Some (T1 [1 # 3; 2 # 3]%Q) |} in
  returns (MFBernoulli.log_prob_zi (H:=rejecting) (H1:=example_stats) bern 1 z)
  /\ raises (MFBernoulli.log_prob_zi (H:=rejecting) (H1:=example_stats) bern 2 z)
  /\ raises (MFBernoulli.log_prob_zi (H:=rejecting) (H1:=example_stats) bern (-1) z).
Proof.
  intros z bern.
  destruct (@log_prob_zi_index_check Q rejecting _ example_stats 1 z)
    as (_ & (Hin & _) & _).
  destruct (@log_prob_zi_index_check Q rejecting _ example_stats 2 z)
    as ((Habove & _) & _).
  destruct (@log_prob_zi_index_check Q rejecting _ example_stats (-1) z)
    as (_ & _ & Hbelow & _).
  split.
  { apply Hin.
    - cbn. lia.
    - exists [1 # 3; 2 # 3]%Q. split; [reflexivity | cbn; lia].
    - exists [[1; 2]; [3; 4]]%Q. split; [reflexivity|].
      split; [discriminate|]. repeat constructor; cbn; lia. }
  split.
  { apply Habove. cbn. lia. }
  destruct Hbelow as (Hb & _); [reflexivity | lia |]. apply Hb.
Defined.

(** C8, as stated, fails: [PointMass] is a concrete family, index 0 is in
    its range, and [log_prob_zi] raises all the same. *)
Lemma log_prob_zi_point_mass_counterexample :
  let self : PointMass.t (R:=Q) := PointMass.__init__ 1 (fun t => t) in
  0 <= 0 < PointMass.num_vars self
  /\ ~ returns (PointMass.log_prob_zi (H1:=example_stats) self 0 (T2 [[1%Q]])).
Proof.
  intros self. split; [cbn; lia|].
  apply raises_not_returns. exists NotImplementedError. reflexivity.
Qed.

(** With an array library that counts a negative index from the end, a
    negative index is answered like the last one. *)
Example log_prob_zi_negative_wraps :
  let bern : MFBernoulli.t (R:=Q) :=
    {| MFBernoulli.num_vars := 2; MFBernoulli.num_params := 2;
       MFBernoulli.p := Some (T1 [1 # 3; 2 # 3]%Q) |} in
  let z := T2 [[1; 2]; [3; 4]]%Q in
  MFBernoulli.log_prob_zi (H:=wrapping) (H1:=example_stats) bern (-1) z
  = MFBernoulli.log_prob_zi (H:=wrapping) (H1:=example_stats) bern 1 z
  /\ returns (MFBernoulli.log_prob_zi (H:=wrapping) (H1:=example_stats) bern (-1) z).
Proof. split; [reflexivity | eexists; reflexivity]. Qed.

(** An index in range is of no help when [z] has too few columns. *)
Example log_prob_zi_narrow_input :
  let bern : MFBernoulli.t (R:=Q) :=
    {| MFBernoulli.num_vars := 2; MFBernoulli.num_params := 2;
       MFBernoulli.p := Some (T1 [1 # 3; 2 # 3]%Q) |} in
  MFBernoulli.log_prob_zi (H:=rejecting) (H1:=example_stats) bern 1 (T2 [[1%Q]])
  = Raise IndexError.
Proof. reflexivity. Qed.

(** * Part II: properties of [wake_sleep] *)

(** ** Running a computation *)
Section WpRules.
Context {A B : Type}.

Lemma wp_ret (a : A) (g : graph) (Q : A -> graph -> Prop) :
  Q a g -> wp (mret a) g Q.
Proof. intros HQ. by exists a, g. Qed.

Lemma wp_bind (m : M A) (f : A -> M B) (g : graph) (Q : B -> graph -> Prop) :
  wp m g (fun a g' => wp (f a) g' Q) -> wp (m ≫= f) g Q.
Proof.
  intros (a & g' & Hm & b & g'' & Hf & HQ). exists b, g''.
  split; [|done]. unfold mbind, M_bind. by rewrite Hm.
Qed.

Lemma wp_mono (m : M A) (g : graph) (Q Q' : A -> graph -> Prop) :
  wp m g Q -> (forall a g', Q a g' -> Q' a g') -> wp m g Q'.
Proof. intros (a & g' & Hm & HQ) Himp. exists a, g'. auto. Qed.

Lemma wp_lift (r : res A) (a : A) (g : graph) (Q : A -> graph -> Prop) :
  r = Ok a -> Q a g -> wp (lift r) g Q.
Proof. intros -> HQ. by exists a, g. Qed.
End WpRules.

Lemma wp_copy (org : rv) (d : option (gmap rv expr)) (scope : string)
    (g : graph) (Q : rvcopy -> graph -> Prop) :
  Q (length (nodes g))
    (add_node {| c_org := org; c_dict_swap := d; c_scope := scope |} g) ->
  wp (copy org d scope) g Q.
Proof. intros HQ. by eexists _, _. Qed.

Lemma wp_unique_name (name : string) (g : graph) (Q : string -> graph -> Prop) :
  Q (issued name (default 0%nat (names g !! name))) (use_name name g) ->
  wp (unique_name name) g Q.
Proof. intros HQ. by eexists _, _. Qed.

Lemma wp_dict_get (d : gmap rv expr) (k : rv) (e : expr) (g : graph)
    (Q : expr -> graph -> Prop) :
  d !! k = Some e -> Q e g -> wp (dict_get d k) g Q.
Proof. intros Hk HQ. unfold dict_get. rewrite Hk. by apply wp_ret. Qed.

Lemma wp_list_iadd (l : list expr) (s : nat) (x : expr) (e : M expr)
    (g : graph) (Q : list expr -> graph -> Prop) :
  l !! s = Some x ->
  wp e g (fun y g' => Q (<[s := EAdd x y]> l) g') ->
  wp (list_iadd l s e) g Q.
Proof.
  intros Hs He. unfold list_iadd. rewrite Hs. apply wp_bind.
  eapply wp_mono; [exact He|]. intros y g' HQ. by apply wp_ret.
Qed.

Lemma same_rest_refl (g : graph) : same_rest g g.
Proof. by repeat split. Qed.

Lemma same_rest_trans (g1 g2 g3 : graph) :
  same_rest g1 g2 -> same_rest g2 g3 -> same_rest g1 g3.
Proof. intros (? & ? & ?) (? & ? & ?). repeat split; congruence. Qed.

Lemma same_rest_add_node (nd : copy_node) (g : graph) :
  same_rest g (add_node nd g).
Proof. by repeat split. Qed.

(** ** The loops of one sample *)
Section Loops.
Variable scope : string.
Variable s : nat.
Variable scale : gmap rv expr.

(** What an entry put in the dictionary first means for the dictionary a
    loop leaves. *)
Lemma dict_after_insert (d d' : gmap rv expr) (x : rv) (v : expr)
    (keys : list rv) :
  (forall k, is_Some (<[x := v]> d !! k) -> is_Some (d' !! k)) ->
  (forall y, y ∈ keys -> is_Some (d' !! y)) ->
  (forall k, is_Some (d' !! k) -> is_Some (<[x := v]> d !! k) \/ k ∈ keys) ->
  (forall k, is_Some (d !! k) -> is_Some (d' !! k))
  /\ (forall y, y ∈ x :: keys -> is_Some (d' !! y))
  /\ (forall k, is_Some (d' !! k) -> is_Some (d !! k) \/ k ∈ x :: keys).
Proof.
  intros Hold Hkeys Hdom. split; [|split].
  - intros k Hk. apply Hold.
    destruct (decide (x = k)) as [->|];
      [rewrite lookup_insert_eq | rewrite lookup_insert_ne]; eauto.
  - intros y [->|Hy]%elem_of_cons; [|by apply Hkeys].
    apply Hold. rewrite lookup_insert_eq. eauto.
  - intros k Hk. destruct (Hdom k Hk) as [Hin|Hin].
    + destruct (decide (x = k)) as [->|Hne].
      * right. left.
      * rewrite lookup_insert_ne in Hin by done. by left.
    + right. by right.
Qed.

(** Lines 85-91. *)
Lemma swap_data_spec (data : list (dkey * dval)) (d : gmap rv expr)
    (g : graph) :
  wp (swap_data scope data d) g (fun d' g' =>
    exists new,
      nodes g' = nodes g ++ new /\ same_rest g g'
      /\ Forall (fun nd => c_scope nd = scope /\ c_dict_swap nd = None) new
      /\ (forall k, is_Some (d !! k) -> is_Some (d' !! k))
      /\ (forall x, x ∈ rv_keys data -> is_Some (d' !! x))
      /\ (forall k, is_Some (d' !! k) ->
                    is_Some (d !! k) \/ k ∈ rv_keys data)).
Proof.
  unfold swap_data. revert d g.
  induction data as [|[x qx] data IH]; intros d g.
  { apply wp_ret. exists []. rewrite app_nil_r.
    split; [done|]. split; [apply same_rest_refl|]. split; [done|].
    split; [done|]. split; [|by left].
    intros x Hx. by apply elem_of_nil in Hx. }
  cbn [for_each]. apply wp_bind.
  destruct x as [x|n].
  - (* a random variable *)
    assert (Hkeys : rv_keys ((KRandomVariable x, qx) :: data)
                    = x :: rv_keys data) by reflexivity.
    rewrite Hkeys.
    destruct qx as [qx|e].
    + apply wp_bind, wp_copy, wp_ret.
      eapply wp_mono; [apply IH|]. cbn beta.
      intros d' g' (new & Hn & Hr & Hnew & Hold & Hdata & Hdom).
      exists ({| c_org := qx; c_dict_swap := None; c_scope := scope |} :: new).
      split; [rewrite Hn; cbn; by rewrite <- app_assoc|].
      split; [eapply same_rest_trans; [apply same_rest_add_node | exact Hr]|].
      split; [by constructor|].
      by apply dict_after_insert with (EValue (length (nodes g))).
    + apply wp_ret.
      eapply wp_mono; [apply IH|]. cbn beta.
      intros d' g' (new & Hn & Hr & Hnew & Hold & Hdata & Hdom).
      exists new. split; [done|]. split; [done|]. split; [done|].
      by apply dict_after_insert with e.
  - (* another key *)
    apply wp_ret. apply IH.
Qed.

Lemma wake_terms_cons (n : nat) (z qz : rv) (lv : list (rv * rv)) :
  wake_terms scale n ((z, qz) :: lv)
  = wake_term scale z n :: wake_terms scale (S n) lv.
Proof.
  unfold wake_terms. rewrite imap_cons. cbn [fst].
  rewrite Nat.add_0_r. f_equal. apply imap_ext.
  intros j zq _. cbn. by rewrite Nat.add_succ_r.
Qed.

(** Lines 95-103. *)
Lemma sample_q_spec (phase_q : string) (lv : list (rv * rv))
    (d : gmap rv expr) (ql : list expr) (y : expr) (g : graph) :
  ql !! s = Some y ->
  wp (sample_q scope phase_q s scale lv (d, ql)) g (fun r g' =>
    nodes g' = nodes g ++ (q_node scope <$> lv) /\ same_rest g g'
    /\ r.2 = <[s := fold_left EAdd
                      (if decide (phase_q ≠ "sleep")
                       then wake_terms scale (length (nodes g)) lv else [])
                      y]> ql
    /\ (forall k, is_Some (d !! k) -> is_Some (r.1 !! k))
    /\ (forall z, z ∈ lv.*1 -> is_Some (r.1 !! z))
    /\ (forall k, is_Some (r.1 !! k) -> is_Some (d !! k) \/ k ∈ lv.*1)).
Proof.
  unfold sample_q. revert d ql y g.
  induction lv as [|[z qz] lv IH]; intros d ql y g Hs.
  { apply wp_ret. cbn. rewrite app_nil_r.
    split; [done|]. split; [apply same_rest_refl|].
    split; [by destruct (decide _); cbn; rewrite list_insert_id|].
    split; [done|]. split; [|by left].
    intros x Hx. by apply elem_of_nil in Hx. }
  assert (Hlen : (s < length ql)%nat) by (by eapply lookup_lt_Some).
  cbn [for_each]. apply wp_bind, wp_bind, wp_copy.
  set (c := length (nodes g)).
  set (g1 := add_node _ g).
  assert (Hg1 : length (nodes g1) = S c)
    by (unfold g1; cbn; rewrite length_app; cbn; lia).
  destruct (decide (phase_q ≠ "sleep")) as [Hwake|Hsleep].
  - apply wp_bind. eapply wp_list_iadd; [exact Hs|].
    apply wp_bind. eapply wp_dict_get; [apply lookup_insert_eq|].
    apply wp_ret, wp_ret.
    eapply wp_mono.
    { apply IH with (y := EAdd y (wake_term scale z c)).
      by apply list_lookup_insert_eq. }
    cbn beta. intros [d' ql'] g' (Hn & Hr & Hql & Hdict). cbn [fst snd] in *.
    split; [rewrite Hn; unfold g1; cbn; by rewrite <- app_assoc|].
    split; [eapply same_rest_trans; [apply same_rest_add_node | exact Hr]|].
    split.
    { by rewrite Hql, Hg1, list_insert_insert_eq, wake_terms_cons. }
    destruct Hdict as (Hold & Hkeys & Hdom).
    by apply dict_after_insert with (EValue c).
  - apply wp_ret.
    eapply wp_mono; [by apply IH with (y := y)|].
    cbn beta. intros [d' ql'] g' (Hn & Hr & Hql & Hdict). cbn [fst snd] in *.
    split; [rewrite Hn; unfold g1; cbn; by rewrite <- app_assoc|].
    split; [eapply same_rest_trans; [apply same_rest_add_node | exact Hr]|].
    split; [done|].
    destruct Hdict as (Hold & Hkeys & Hdom).
    by apply dict_after_insert with (EValue c).
Qed.

(** Lines 105-108. *)
Lemma score_latent_spec (lv : list (rv * rv)) (d : gmap rv expr)
    (pl : list expr) (x : expr) (g : graph) :
  pl !! s = Some x ->
  (forall z, z ∈ lv.*1 -> is_Some (d !! z)) ->
  wp (score_latent scope s scale d lv pl) g (fun pl' g' =>
    nodes g' = nodes g ++ (swapped_node scope d <$> lv.*1)
    /\ same_rest g g'
    /\ exists ts, pl' = <[s := fold_left EAdd ts x]> pl
                  /\ Forall (p_term scale) ts).
Proof.
  unfold score_latent. generalize (lv.*1). clear lv. intros zs.
  revert pl x g. induction zs as [|z zs IH]; intros pl x g Hs Hd.
  { apply wp_ret. cbn. rewrite app_nil_r.
    split; [done|]. split; [apply same_rest_refl|].
    exists []. cbn. by rewrite list_insert_id. }
  cbn [for_each]. apply wp_bind, wp_bind, wp_copy.
  destruct (Hd z) as [v Hv]; [left|].
  eapply wp_list_iadd; [exact Hs|].
  apply wp_bind. eapply wp_dict_get; [exact Hv|]. apply wp_ret.
  eapply wp_mono.
  { eapply IH; [by apply list_lookup_insert_eq, (lookup_lt_Some _ _ _ Hs)|].
    intros z' Hz'. apply Hd. by right. }
  cbn beta. intros pl' g' (Hn & Hr & ts & Hpl & Hts).
  split; [rewrite Hn; cbn; by rewrite <- app_assoc|].
  split; [eapply same_rest_trans; [apply same_rest_add_node | exact Hr]|].
  eexists (_ :: ts). split.
  - rewrite Hpl, list_insert_insert_eq. reflexivity.
  - constructor; [|done]. by eexists _, _, _.
Qed.

(** Lines 110-114. *)
Lemma score_data_spec (data : list (dkey * dval)) (d : gmap rv expr)
    (pl : list expr) (x : expr) (g : graph) :
  pl !! s = Some x ->
  (forall k, k ∈ rv_keys data -> is_Some (d !! k)) ->
  wp (score_data scope s scale d data pl) g (fun pl' g' =>
    nodes g' = nodes g ++ (swapped_node scope d <$> rv_keys data)
    /\ same_rest g g'
    /\ exists ts, pl' = <[s := fold_left EAdd ts x]> pl
                  /\ Forall (p_term scale) ts).
Proof.
  unfold score_data, rv_keys. generalize (data.*1). clear data. intros ks.
  revert pl x g. induction ks as [|k ks IH]; intros pl x g Hs Hd.
  { apply wp_ret. cbn. rewrite app_nil_r.
    split; [done|]. split; [apply same_rest_refl|].
    exists []. cbn. by rewrite list_insert_id. }
  cbn [for_each]. apply wp_bind. destruct k as [k|n]; cbn [omap] in *.
  - apply wp_bind, wp_copy.
    destruct (Hd k) as [v Hv]; [left|].
    eapply wp_list_iadd; [exact Hs|].
    apply wp_bind. eapply wp_dict_get; [exact Hv|]. apply wp_ret.
    eapply wp_mono.
    { eapply IH; [by apply list_lookup_insert_eq, (lookup_lt_Some _ _ _ Hs)|].
      intros k' Hk'. apply Hd. by right. }
    cbn beta. intros pl' g' (Hn & Hr & ts & Hpl & Hts).
    split; [rewrite Hn; cbn; by rewrite <- app_assoc|].
    split; [eapply same_rest_trans; [apply same_rest_add_node | exact Hr]|].
    eexists (_ :: ts). split.
    + rewrite Hpl, list_insert_insert_eq. reflexivity.
    + constructor; [|done]. by eexists _, _, _.
  - apply wp_ret. by apply IH.
Qed.

(** Lines 120-123. *)
Lemma sample_p_spec (lv : list (rv * rv)) (d : gmap rv expr) (g : graph) :
  wp (sample_p scope lv d) g (fun d' g' =>
    nodes g' = nodes g ++ (p_node scope <$> lv) /\ same_rest g g'
    /\ (forall k, is_Some (d !! k) -> is_Some (d' !! k))
    /\ (forall qz, qz ∈ lv.*2 -> is_Some (d' !! qz))).
Proof.
  unfold sample_p. revert d g.
  induction lv as [|[z qz] lv IH]; intros d g.
  { apply wp_ret. cbn. rewrite app_nil_r.
    split; [done|]. split; [apply same_rest_refl|]. split; [done|].
    intros x Hx. by apply elem_of_nil in Hx. }
  cbn [for_each]. apply wp_bind, wp_bind, wp_copy, wp_ret.
  eapply wp_mono; [apply IH|].
  cbn beta. intros d' g' (Hn & Hr & Hold & Hkeys).
  split; [rewrite Hn; cbn; by rewrite <- app_assoc|].
  split; [eapply same_rest_trans; [apply same_rest_add_node | exact Hr]|].
  split.
  - intros k Hk. apply Hold.
    destruct (decide (qz = k)) as [->|];
      [rewrite lookup_insert_eq | rewrite lookup_insert_ne]; eauto.
  - intros y [->|Hy]%elem_of_cons; [|by apply Hkeys].
    apply Hold. rewrite lookup_insert_eq. eauto.
Qed.

(** Lines 124-128: every term is scaled by the multiplier of [z], the
    variable the loops before left behind. *)
Lemma score_q_spec (lv : list (rv * rv)) (d : gmap rv expr) (z : rv)
    (ql : list expr) (y : expr) (g : graph) :
  ql !! s = Some y ->
  (forall qz, qz ∈ lv.*2 -> is_Some (d !! qz)) ->
  wp (score_q scope s scale d (Some z) lv ql) g (fun ql' g' =>
    nodes g' = nodes g ++ (swapped_node scope d <$> lv.*2)
    /\ same_rest g g'
    /\ exists ts, ql' = <[s := fold_left EAdd ts y]> ql
                  /\ Forall (fun t => exists c v,
                               t = EReduceSum (EMul (scale_get scale z)
                                      (ELogProb c (EStopGradient v)))) ts).
Proof.
  unfold score_q. generalize (lv.*2). clear lv. intros qzs.
  revert ql y g. induction qzs as [|qz qzs IH]; intros ql y g Hs Hd.
  { apply wp_ret. cbn. rewrite app_nil_r.
    split; [done|]. split; [apply same_rest_refl|].
    exists []. cbn. by rewrite list_insert_id. }
  cbn [for_each]. apply wp_bind, wp_bind, wp_copy.
  destruct (Hd qz) as [v Hv]; [left|].
  eapply wp_list_iadd; [exact Hs|].
  apply wp_bind. eapply wp_lift; [reflexivity|].
  apply wp_bind. eapply wp_dict_get; [exact Hv|]. apply wp_ret.
  eapply wp_mono.
  { eapply IH; [by apply list_lookup_insert_eq, (lookup_lt_Some _ _ _ Hs)|].
    intros k' Hk'. apply Hd. by right. }
  cbn beta. intros ql' g' (Hn & Hr & ts & Hql & Hts).
  split; [rewrite Hn; cbn; by rewrite <- app_assoc|].
  split; [eapply same_rest_trans; [apply same_rest_add_node | exact Hr]|].
  eexists (_ :: ts). split.
  - rewrite Hql, list_insert_insert_eq. reflexivity.
  - constructor; [|done]. by eexists _, _.
Qed.
End Loops.

(** ** One sample *)
Section OneSample.
Variable base_scope : string.
Variable scale : gmap rv expr.

Lemma wake_terms_zip (n : nat) (lv : list (rv * rv)) :
  wake_terms scale n lv
  = zip_with (fun zq c => wake_term scale (fst zq) c) lv (seq n (length lv)).
Proof.
  revert n. induction lv as [|[z qz] lv IH]; intros n; [reflexivity|].
  rewrite wake_terms_cons, IH. reflexivity.
Qed.

Lemma wake_terms_q_term (n : nat) (lv : list (rv * rv)) :
  Forall (q_term scale) (wake_terms scale n lv).
Proof.
  revert n. induction lv as [|[z qz] lv IH]; intros n; [constructor|].
  rewrite wake_terms_cons. constructor; [|apply IH].
  by eexists _, _, _.
Qed.

Lemma sleep_q_term_q_term (z : rv) (t : expr) :
  sleep_q_term scale z t -> q_term scale t.
Proof. intros (c & v & ->). by eexists _, _, _. Qed.

Lemma wake_copies_seq (k : nat) (lv : list (rv * rv))
    (front back : list copy_node) :
  wake_copies (front ++ (q_node (base_scope +:+ issued "q_sample" k) <$> lv)
                     ++ back)
              base_scope lv (seq (length front) (length lv)).
Proof.
  unfold wake_copies. revert front.
  induction lv as [|zq lv IH]; intros front; [constructor|].
  cbn [length seq fmap list_fmap]. constructor.
  - exists (q_node (base_scope +:+ issued "q_sample" k) zq), k.
    split; [|done].
    rewrite lookup_app_r by lia. by rewrite Nat.sub_diag.
  - specialize (IH (front ++ [q_node (base_scope +:+ issued "q_sample" k) zq])).
    rewrite length_app, <- app_assoc in IH. cbn in IH.
    by rewrite Nat.add_1_r in IH.
Qed.

Lemma wake_copies_mono (nodes new : list copy_node) (lv : list (rv * rv))
    (cs : list rvcopy) :
  wake_copies nodes base_scope lv cs ->
  wake_copies (nodes ++ new) base_scope lv cs.
Proof.
  unfold wake_copies. intros Hcs. eapply Forall2_impl; [exact Hcs|].
  intros zq c (nd & k & Hc & Hrest). exists nd, k.
  split; [by apply lookup_app_l_Some | done].
Qed.

Lemma wake_q_sum_mono (nodes new : list copy_node) (lv : list (rv * rv))
    (e : expr) :
  wake_q_sum nodes base_scope scale lv e ->
  wake_q_sum (nodes ++ new) base_scope scale lv e.
Proof.
  intros (cs & He & Hcs). exists cs. split; [done|].
  by apply wake_copies_mono.
Qed.

Lemma fold_left_EAdd_app (ts1 ts2 : list expr) (x : expr) :
  fold_left EAdd ts2 (fold_left EAdd ts1 x) = fold_left EAdd (ts1 ++ ts2) x.
Proof. by rewrite fold_left_app. Qed.

Variable phase_q : string.
Variable latent_vars : list (rv * rv).
Variable data : list (dkey * dval).

(** Lines 81-128. *)
Lemma sample_step_spec (s : nat) (pl ql : list expr) (x y : expr) (g : graph) :
  pl !! s = Some x -> ql !! s = Some y ->
  wp (sample_step base_scope phase_q scale latent_vars data s (pl, ql)) g
     (fun r g' =>
        exists new pts qts,
          nodes g' = nodes g ++ new
          /\ regularization_losses g' = regularization_losses g
          /\ summaries g' = summaries g
          /\ r.1 = <[s := fold_left EAdd pts x]> pl
          /\ r.2 = <[s := fold_left EAdd qts y]> ql
          /\ Forall (p_term scale) pts
          /\ Forall (q_term scale) qts
          /\ (phase_q ≠ "sleep" ->
              names g' !! "p_sample" = names g !! "p_sample"
              /\ Forall (wake_node base_scope latent_vars data) new
              /\ exists cs,
                  qts = zip_with (fun zq c => wake_term scale (fst zq) c)
                                 latent_vars cs
                  /\ wake_copies (nodes g') base_scope latent_vars cs)
          /\ (phase_q = "sleep" ->
              forall z, last (latent_vars.*1) = Some z ->
                        Forall (sleep_q_term scale z) qts)).
Proof.
  intros Hp Hq. unfold sample_step.
  apply wp_bind, wp_unique_name.
  set (k := default 0%nat (names g !! "q_sample")).
  set (scope := base_scope +:+ issued "q_sample" k).
  set (g1 := use_name "q_sample" g).
  apply wp_bind. eapply wp_mono; [apply swap_data_spec|]. cbn beta.
  intros d0 g2 (new1 & Hn2 & Hr2 & Hnew1 & _ & Hd0keys & Hd0dom).
  apply wp_bind. eapply wp_mono; [apply sample_q_spec; exact Hq|]. cbn beta.
  intros [qd ql1] g3 (Hn3 & Hr3 & Hql1 & Hqd_old & Hqd_keys & Hqd_dom).
  cbn [fst snd] in *.
  apply wp_bind.
  eapply wp_mono; [by apply score_latent_spec with (x := x)|]. cbn beta.
  intros pl1 g4 (Hn4 & Hr4 & ts1 & Hpl1 & Hts1).
  assert (Hs : (s < length pl)%nat) by (by eapply lookup_lt_Some).
  apply wp_bind.
  eapply wp_mono.
  { apply score_data_spec with (x := fold_left EAdd ts1 x).
    - rewrite Hpl1. by apply list_lookup_insert_eq.
    - intros key Hkey. by apply Hqd_old, Hd0keys. }
  cbn beta. intros pl2 g5 (Hn5 & Hr5 & ts2 & Hpl2 & Hts2).
  assert (Hpl : pl2 = <[s := fold_left EAdd (ts1 ++ ts2) x]> pl).
  { by rewrite Hpl2, Hpl1, list_insert_insert_eq, fold_left_EAdd_app. }
  assert (Hnodes5 : nodes g5
                    = nodes g ++ new1 ++ (q_node scope <$> latent_vars)
                        ++ (swapped_node scope qd <$> latent_vars.*1)
                        ++ (swapped_node scope qd <$> rv_keys data)).
  { rewrite Hn5, Hn4, Hn3, Hn2. unfold g1. cbn. by rewrite <- !app_assoc. }
  assert (Hrest5 : same_rest g1 g5).
  { eauto using same_rest_trans. }
  destruct Hrest5 as (Hnames5 & Hregs5 & Hsum5).
  destruct (decide (phase_q = "sleep")) as [Hsleep|Hwake].
  - (* the sleep sub-phase *)
    apply wp_bind, wp_unique_name.
    set (scope' := base_scope +:+ issued "p_sample" _).
    apply wp_bind. eapply wp_mono; [apply sample_p_spec|]. cbn beta.
    intros pd g7 (Hn7 & Hr7 & _ & Hpd_keys).
    assert (Hrest7 : regularization_losses g7 = regularization_losses g
                     /\ summaries g7 = summaries g).
    { destruct Hr7 as (_ & -> & ->). cbn. by rewrite Hregs5, Hsum5. }
    destruct Hrest7 as [Hregs7 Hsum7].
    rewrite decide_False in Hql1 by (intros Hne; by apply Hne).
    cbn in Hql1. rewrite list_insert_id in Hql1 by done. subst ql1.
    destruct (last (latent_vars.*1)) as [z|] eqn:Hlast.
    + apply wp_bind.
      eapply wp_mono; [by apply score_q_spec with (y := y)|]. cbn beta.
      intros ql2 g8 (Hn8 & Hr8 & qts & Hql2 & Hqts).
      apply wp_ret. cbn [fst snd].
      eexists _, (ts1 ++ ts2), qts.
      split; [rewrite Hn8, Hn7; cbn; rewrite Hnodes5;
              rewrite <- !app_assoc; reflexivity|].
      destruct Hr8 as (_ & -> & ->).
      split; [done|]. split; [done|]. split; [done|]. split; [done|].
      split; [by apply Forall_app|].
      split; [eapply Forall_impl; [exact Hqts|]; apply sleep_q_term_q_term|].
      split; [done|].
      intros _ z' [= <-]. exact Hqts.
    + apply last_None in Hlast. apply fmap_nil_inv in Hlast.
      unfold score_q. rewrite Hlast. cbn [fmap list_fmap for_each].
      apply wp_bind, wp_ret, wp_ret. cbn [fst snd].
      eexists _, (ts1 ++ ts2), [].
      split; [rewrite Hn7; cbn; rewrite Hnodes5;
              rewrite <- !app_assoc; reflexivity|].
      split; [done|]. split; [done|]. split; [done|].
      split; [cbn; by rewrite list_insert_id|].
      split; [by apply Forall_app|].
      split; [constructor|]. split; [done|]. intros _ z' _. constructor.
  - (* no sleep sub-phase *)
    apply wp_ret. cbn [fst snd].
    eexists _, (ts1 ++ ts2), (wake_terms scale (length (nodes g2)) latent_vars).
    split; [exact Hnodes5|].
    split; [done|]. split; [done|]. split; [done|].
    split; [rewrite Hql1; by rewrite decide_True by done|].
    split; [by apply Forall_app|].
    split; [apply wake_terms_q_term|].
    split; [|done]. intros _.
    split; [rewrite Hnames5; unfold g1; cbn; by rewrite lookup_insert_ne|].
    split.
    { assert (Hswapped : forall key,
                wake_node base_scope latent_vars data
                          (swapped_node scope qd key)).
      { intros key. split; [by exists k|].
        intros d [= <-] v Hv. destruct (Hqd_dom v Hv) as [Hin|Hin]; [|by right].
        destruct (Hd0dom v Hin) as [Hin'|Hin']; [|by left].
        rewrite lookup_empty in Hin'. by destruct Hin'. }
      repeat apply Forall_app_2.
      - eapply Forall_impl; [exact Hnew1|].
        intros nd [Hsc Hnone]. split; [by exists k|].
        intros d Hd. congruence.
      - apply Forall_fmap, Forall_forall. intros zq _.
        split; [by exists k|]. intros d Hd. discriminate.
      - apply Forall_fmap, Forall_forall. intros key _. apply Hswapped.
      - apply Forall_fmap, Forall_forall. intros key _. apply Hswapped. }
    exists (seq (length (nodes g2)) (length latent_vars)).
    split; [apply wake_terms_zip|].
    rewrite Hnodes5.
    replace (length (nodes g2)) with (length (nodes g ++ new1))
      by (by rewrite Hn2).
    rewrite (app_assoc (nodes g) new1).
    apply wake_copies_seq.
Qed.
End OneSample.

(** ** The loop over the samples *)
Section Samples.
Variable base_scope : string.
Variable phase_q : string.
Variable scale : gmap rv expr.
Variable latent_vars : list (rv * rv).
Variable data : list (dkey * dval).

Lemma samples_from (m k : nat) (pl ql : list expr) (g : graph) :
  length pl = (k + m)%nat -> length ql = (k + m)%nat ->
  (forall s, (k <= s < k + m)%nat ->
             pl !! s = Some (EFloat 0) /\ ql !! s = Some (EFloat 0)) ->
  wp (for_each (seq k m)
               (sample_step base_scope phase_q scale latent_vars data)
               (pl, ql)) g
     (fun r g' =>
        exists new,
          nodes g' = nodes g ++ new
          /\ regularization_losses g' = regularization_losses g
          /\ summaries g' = summaries g
          /\ length r.1 = (k + m)%nat /\ length r.2 = (k + m)%nat
          /\ (forall s, (s < k)%nat ->
                        r.1 !! s = pl !! s /\ r.2 !! s = ql !! s)
          /\ (forall s, (k <= s < k + m)%nat ->
                exists e1 e2,
                  r.1 !! s = Some e1 /\ r.2 !! s = Some e2
                  /\ p_sum scale e1 /\ q_sum scale e2
                  /\ (phase_q ≠ "sleep" ->
                      wake_q_sum (nodes g') base_scope scale latent_vars e2)
                  /\ (phase_q = "sleep" ->
                      forall z, last (latent_vars.*1) = Some z ->
                                sleep_q_sum scale z e2))
          /\ (phase_q ≠ "sleep" ->
              names g' !! "p_sample" = names g !! "p_sample"
              /\ Forall (wake_node base_scope latent_vars data) new)).
Proof.
  revert k pl ql g. induction m as [|m IH]; intros k pl ql g Hpl Hql Hzero.
  { apply wp_ret. exists []. rewrite app_nil_r. cbn [fst snd].
    split; [done|]. split; [done|]. split; [done|].
    split; [done|]. split; [done|]. split; [done|].
    split; [intros s Hs; lia|]. intros _. by split. }
  cbn [seq for_each]. apply wp_bind.
  destruct (Hzero k) as [Hpk Hqk]; [lia|].
  eapply wp_mono; [by apply sample_step_spec|]. cbn beta.
  intros [pl1 ql1] g1
    (new1 & pts & qts & Hn1 & Hregs1 & Hsum1 & Hpl1 & Hql1 & Hpts & Hqts
     & Hwake1 & Hsleep1).
  cbn [fst snd] in *.
  eapply wp_mono.
  { apply (IH (S k) pl1 ql1 g1).
    - rewrite Hpl1, length_insert. lia.
    - rewrite Hql1, length_insert. lia.
    - intros s Hs. rewrite Hpl1, Hql1.
      rewrite !list_lookup_insert_ne by lia. apply Hzero. lia. }
  cbn beta. intros [pl2 ql2] g2
    (new2 & Hn2 & Hregs2 & Hsum2 & Hlp & Hlq & Hbelow & Hdone & Hwake2).
  cbn [fst snd] in *.
  exists (new1 ++ new2).
  split; [by rewrite Hn2, Hn1, <- app_assoc|].
  split; [congruence|]. split; [congruence|].
  split; [lia|]. split; [lia|].
  split.
  { intros s Hs. destruct (Hbelow s) as [-> ->]; [lia|].
    rewrite Hpl1, Hql1. by rewrite !list_lookup_insert_ne by lia. }
  split.
  { intros s Hs. destruct (decide (s = k)) as [->|Hne].
    - destruct (Hbelow k) as [-> ->]; [lia|].
      rewrite Hpl1, Hql1.
      rewrite !list_lookup_insert_eq by lia.
      eexists _, _. split; [done|]. split; [done|].
      split; [by exists pts|]. split; [by exists qts|].
      split.
      + intros Hw. destruct (Hwake1 Hw) as (_ & _ & cs & Hcs & Hcopies).
        rewrite Hn2. apply wake_q_sum_mono. exists cs.
        split; [by rewrite Hcs | done].
      + intros Hsl z Hz. exists qts. split; [done|]. by apply Hsleep1.
    - apply Hdone. lia. }
  intros Hw. destruct (Hwake1 Hw) as (Hnames1 & Hnodes1 & _).
  destruct (Hwake2 Hw) as (Hnames2 & Hnodes2).
  split; [congruence|]. by apply Forall_app.
Qed.

(** From lists of zeros, the loop builds the sums of all samples. *)
Lemma samples_spec (n : nat) (g : graph) :
  wp (for_each (seq 0 n)
               (sample_step base_scope phase_q scale latent_vars data)
               (replicate n (EFloat 0), replicate n (EFloat 0))) g
     (fun r g' =>
        built base_scope phase_q scale latent_vars data n g r.1 r.2 g').
Proof.
  eapply wp_mono.
  { apply (samples_from n 0); [by rewrite length_replicate ..|].
    intros s Hs. by rewrite !lookup_replicate_2 by lia. }
  cbn beta. intros [ps qs] g'
    (new & Hn & Hregs & Hsum & Hlp & Hlq & _ & Hdone & Hwake).
  cbn [fst snd] in *. exists new.
  split; [done|]. split; [done|]. split; [done|].
  split; [done|]. split; [done|].
  assert (Hat : forall s e, qs !! s = Some e ->
            exists e1, ps !! s = Some e1 /\ p_sum scale e1 /\ q_sum scale e
              /\ (phase_q ≠ "sleep" ->
                  wake_q_sum (nodes g') base_scope scale latent_vars e)
              /\ (phase_q = "sleep" ->
                  forall z, last (latent_vars.*1) = Some z ->
                            sleep_q_sum scale z e)).
  { intros s e He. apply lookup_lt_Some in He as Hs.
    destruct (Hdone s) as (e1 & e2 & H1 & H2 & Hrest); [lia|].
    rewrite He in H2. injection H2 as <-. by exists e1. }
  split.
  { apply Forall_lookup. intros s e He. apply lookup_lt_Some in He as Hs.
    destruct (Hdone s) as (e1 & e2 & H1 & _ & Hp & _); [lia|]. congruence. }
  split.
  { apply Forall_lookup. intros s e He.
    by destruct (Hat s e He) as (e1 & _ & _ & Hq & _). }
  split.
  - intros Hw. destruct (Hwake Hw) as [Hnames Hnodes].
    split; [done|]. split; [done|].
    apply Forall_lookup. intros s e He.
    destruct (Hat s e He) as (e1 & _ & _ & _ & Hwq & _). by apply Hwq.
  - intros Hsl z Hz. apply Forall_lookup. intros s e He.
    destruct (Hat s e He) as (e1 & _ & _ & _ & _ & Hsq). by apply Hsq.
Qed.
End Samples.

(** ** The two objectives *)
Section Objectives.
Context {extra : Type}.
Variable check_and_maybe_build_latent_vars :
  option (list (rv * rv)) -> res (list (rv * rv)).
Variable check_and_maybe_build_data :
  option (list (dkey * dval)) -> res (list (dkey * dval)).
Variable transform : list (rv * rv) -> bool -> res (list (rv * rv) * extra).
Variable check_and_maybe_build_dict :
  option (gmap rv expr) -> res (gmap rv expr).
Variable check_and_maybe_build_var_list :
  option (list var) -> list (rv * rv) -> list (dkey * dval) -> res (list var).
Variable get_descendants : var -> list rv -> list rv.

Variable latent_vars0 : option (list (rv * rv)).
Variable data0 : option (list (dkey * dval)).
Variable n_samples : Z.
Variable phase_q : string.
Variable auto_transform : bool.
Variable scale0 : option (gmap rv expr).
Variable var_list0 : option (list var).
Variable collections : option (list string).

(** The arguments as the collaborators hand them on. *)
Variable latent_vars1 latent_vars : list (rv * rv).
Variable x : extra.
Variable data : list (dkey * dval).
Variable scale : gmap rv expr.
Variable var_list : list var.
Hypothesis Hlatent :
  check_and_maybe_build_latent_vars latent_vars0 = Ok latent_vars1.
Hypothesis Hdata : check_and_maybe_build_data data0 = Ok data.
Hypothesis Htransform :
  transform latent_vars1 auto_transform = Ok (latent_vars, x).
Hypothesis Hscale : check_and_maybe_build_dict scale0 = Ok scale.
Hypothesis Hvars :
  check_and_maybe_build_var_list var_list0 latent_vars data = Ok var_list.

Lemma objectives_spec (g : graph) :
  exists ps qs g1 g',
    objectives check_and_maybe_build_latent_vars check_and_maybe_build_data
      transform check_and_maybe_build_dict check_and_maybe_build_var_list
      latent_vars0 data0 n_samples phase_q auto_transform scale0 var_list0
      collections g
    = (Ok (latent_vars, var_list,
           loss_of ps (regularization_losses g),
           loss_of qs (regularization_losses g)), g')
    /\ built (base_scope_of g) phase_q scale latent_vars data
             (Z.to_nat n_samples) (use_name "inference" g) ps qs g1
    /\ names g' = names g1 /\ nodes g' = nodes g1
    /\ regularization_losses g' = regularization_losses g
    /\ summaries g'
       = summaries g ++ logged collections ps qs (regularization_losses g).
Proof.
  destruct (samples_spec (base_scope_of g) phase_q scale latent_vars data
              (Z.to_nat n_samples) (use_name "inference" g))
    as ([ps qs] & g1 & Hrun & Hbuilt).
  cbn [fst snd] in Hbuilt.
  assert (Hb := Hbuilt).
  destruct Hb as (new & Hn & Hregs & Hsum & _).
  cbn [use_name regularization_losses summaries] in Hregs, Hsum.
  exists ps, qs, g1.
  unfold objectives, lift, mbind, M_bind.
  rewrite Hlatent, Hdata, Htransform, Hscale, Hvars.
  cbn [unique_name]. fold (base_scope_of g). rewrite Hrun.
  unfold get_regularization_losses. rewrite Hregs.
  destruct collections as [c|]; cbn.
  - eexists. split; [reflexivity|]. cbn.
    split; [done|]. split; [done|]. split; [done|]. split; [done|].
    by rewrite Hsum, <- !app_assoc.
  - eexists. split; [reflexivity|].
    split; [done|]. split; [done|]. split; [done|]. split; [done|].
    by rewrite Hsum, app_nil_r.
Qed.

(** Lines 145-152 after lines 71-143. *)
Lemma wake_sleep_unfold (g : graph) (ps qs : list expr) (g' : graph) :
  objectives check_and_maybe_build_latent_vars check_and_maybe_build_data
    transform check_and_maybe_build_dict check_and_maybe_build_var_list
    latent_vars0 data0 n_samples phase_q auto_transform scale0 var_list0
    collections g
  = (Ok (latent_vars, var_list,
         loss_of ps (regularization_losses g),
         loss_of qs (regularization_losses g)), g') ->
  wake_sleep check_and_maybe_build_latent_vars check_and_maybe_build_data
    transform check_and_maybe_build_dict check_and_maybe_build_var_list
    get_descendants
    latent_vars0 data0 n_samples phase_q auto_transform scale0 var_list0
    collections g
  = (Ok (loss_of ps (regularization_losses g),
         let q_vars := q_vars_of get_descendants latent_vars var_list in
         let p_vars := p_vars_of q_vars var_list in
         zip (gradients (loss_of qs (regularization_losses g)) q_vars) q_vars
         ++ zip (gradients (loss_of ps (regularization_losses g)) p_vars)
                p_vars), g').
Proof.
  intros Hobj. unfold wake_sleep, mbind, M_bind. by rewrite Hobj.
Qed.
End Objectives.

(** ** The split of the variables *)
Lemma filter_agree {A} (P1 P2 : A -> Prop) `{!forall x, Decision (P1 x)}
    `{!forall x, Decision (P2 x)} (l : list A) :
  (forall x, x ∈ l -> P1 x <-> P2 x) -> filter P1 l = filter P2 l.
Proof.
  induction l as [|a l IH]; intros Hagree; [reflexivity|].
  rewrite !filter_cons.
  rewrite IH by (intros y Hy; apply Hagree; by right).
  assert (Ha : P1 a <-> P2 a) by (apply Hagree; left).
  destruct (decide (P1 a)) as [H1|H1], (decide (P2 a)) as [H2|H2];
    try reflexivity; tauto.
Qed.

Section Split.
Variable get_descendants : var -> list rv -> list rv.
Variable latent_vars : list (rv * rv).
Variable var_list : list var.

Local Abbreviation q_vars := (q_vars_of get_descendants latent_vars var_list).
Local Abbreviation p_vars := (p_vars_of q_vars var_list).

Lemma q_vars_elem (v : var) :
  v ∈ q_vars
  <-> v ∈ var_list /\ length (get_descendants v (latent_vars.*2)) ≠ 0%nat.
Proof.
  unfold q_vars_of. rewrite list_elem_of_filter. tauto.
Qed.

Lemma p_vars_elem (v : var) : v ∈ p_vars <-> v ∈ var_list /\ v ∉ q_vars.
Proof.
  unfold p_vars_of. rewrite list_elem_of_filter. tauto.
Qed.

Lemma p_vars_complement :
  p_vars
  = filter (fun v => ¬ length (get_descendants v (latent_vars.*2)) ≠ 0%nat)
           var_list.
Proof.
  unfold p_vars_of. apply filter_agree.
  intros v Hv. rewrite q_vars_elem. tauto.
Qed.

Lemma vars_permutation : q_vars ++ p_vars ≡ₚ var_list.
Proof.
  rewrite p_vars_complement. unfold q_vars_of.
  apply filter_app_complement.
Qed.

Lemma vars_disjoint (v : var) : v ∈ q_vars -> v ∉ p_vars.
Proof. rewrite p_vars_elem. tauto. Qed.

Lemma vars_cover (v : var) : v ∈ var_list <-> v ∈ q_vars \/ v ∈ p_vars.
Proof.
  rewrite p_vars_elem, q_vars_elem.
  destruct (decide (length (get_descendants v (latent_vars.*2)) ≠ 0%nat));
    tauto.
Qed.

Lemma vars_once : NoDup var_list -> NoDup (q_vars ++ p_vars).
Proof. intros Hnd. by rewrite vars_permutation. Qed.

Lemma grads_and_vars_snd (loss_q loss_p : expr) :
  (zip (gradients loss_q q_vars) q_vars
   ++ zip (gradients loss_p p_vars) p_vars).*2 = q_vars ++ p_vars.
Proof.
  rewrite fmap_app, !snd_zip; [done | unfold gradients ..];
    by rewrite length_map.
Qed.

Lemma grads_and_vars_fst (loss_q loss_p : expr) :
  (zip (gradients loss_q q_vars) q_vars
   ++ zip (gradients loss_p p_vars) p_vars).*1
  = (Grad loss_q <$> q_vars) ++ (Grad loss_p <$> p_vars).
Proof.
  rewrite fmap_app, !fst_zip; [done | unfold gradients ..];
    by rewrite length_map.
Qed.
End Split.

(** ** Scopes *)
Lemma append_empty (s : string) : s +:+ EmptyString = s.
Proof.
  induction s as [|c s IH]; [done|].
  change (String c s +:+ EmptyString) with (String c (s +:+ EmptyString)). by rewrite IH.
Qed.

Lemma issued_prefix (name : string) (k : nat) :
  exists rest, issued name k = name +:+ rest.
Proof.
  unfold issued. destruct (decide (k = 0%nat)).
  - exists EmptyString. by rewrite append_empty.
  - by eexists.
Qed.

(** A scope of the q-samples is never a scope of the p-samples. *)
Lemma q_scope_not_p_scope (base : string) (k k' : nat) :
  base +:+ issued "q_sample" k ≠ base +:+ issued "p_sample" k'.
Proof.
  intros Heq%(inj (String.append base)).
  destruct (issued_prefix "q_sample" k) as [r Hr].
  destruct (issued_prefix "p_sample" k') as [r' Hr'].
  rewrite Hr, Hr' in Heq. cbv [String.append] in Heq. discriminate.
Qed.

(** ** The claims about [wake_sleep] *)
Section WakeSleepClaims.
Context {extra : Type}.
Variable check_and_maybe_build_latent_vars :
  option (list (rv * rv)) -> res (list (rv * rv)).
Variable check_and_maybe_build_data :
  option (list (dkey * dval)) -> res (list (dkey * dval)).
Variable transform : list (rv * rv) -> bool -> res (list (rv * rv) * extra).
Variable check_and_maybe_build_dict :
  option (gmap rv expr) -> res (gmap rv expr).
Variable check_and_maybe_build_var_list :
  option (list var) -> list (rv * rv) -> list (dkey * dval) -> res (list var).
Variable get_descendants : var -> list rv -> list rv.

Local Abbreviation run_wake_sleep :=
  (wake_sleep check_and_maybe_build_latent_vars check_and_maybe_build_data
     transform check_and_maybe_build_dict check_and_maybe_build_var_list
     get_descendants).
Local Abbreviation run_objectives :=
  (objectives check_and_maybe_build_latent_vars check_and_maybe_build_data
     transform check_and_maybe_build_dict check_and_maybe_build_var_list).

Variable latent_vars0 : option (list (rv * rv)).
Variable data0 : option (list (dkey * dval)).
Variable n_samples : Z.
Variable phase_q : string.
Variable auto_transform : bool.
Variable scale0 : option (gmap rv expr).
Variable var_list0 : option (list var).
Variable collections : option (list string).

(** C9.  [wake_sleep] compares [phase_q] with ['sleep'] and with nothing
    else: under every other value, whether ['wake'] or not, the call is the
    call with ['wake']: same result, same graph, no error of its own. *)
Theorem wake_sleep_phase_not_validated (g : graph) :
  phase_q ≠ "sleep" ->
  run_wake_sleep latent_vars0 data0 n_samples phase_q auto_transform scale0
                 var_list0 collections g
  = run_wake_sleep latent_vars0 data0 n_samples "wake" auto_transform scale0
                   var_list0 collections g.
Proof.
  intros Hne. unfold wake_sleep, objectives, sample_step, sample_q.
  destruct (decide (phase_q ≠ "sleep")) as [?|[]]; [|done].
  destruct (decide (phase_q = "sleep")) as [|?]; [done|].
  destruct (decide ("wake" ≠ "sleep")) as [?|[]]; [|done].
  destruct (decide ("wake" = "sleep")) as [|?]; [done|].
  reflexivity.
Qed.

(** The arguments as the collaborators hand them on. *)
Variable latent_vars1 latent_vars : list (rv * rv).
Variable x : extra.
Variable data : list (dkey * dval).
Variable scale : gmap rv expr.
Variable var_list : list var.
Hypothesis Hlatent :
  check_and_maybe_build_latent_vars latent_vars0 = Ok latent_vars1.
Hypothesis Hdata : check_and_maybe_build_data data0 = Ok data.
Hypothesis Htransform :
  transform latent_vars1 auto_transform = Ok (latent_vars, x).
Hypothesis Hscale : check_and_maybe_build_dict scale0 = Ok scale.
Hypothesis Hvars :
  check_and_maybe_build_var_list var_list0 latent_vars data = Ok var_list.

Local Abbreviation q_vars :=
  (q_vars_of get_descendants latent_vars var_list).
Local Abbreviation p_vars := (p_vars_of q_vars var_list).

(** C1.  [wake_sleep] returns [loss_p] and the pairs of the [q_vars] with
    their gradients of [loss_q], followed by the pairs of the [p_vars] with
    their gradients of [loss_p].  The [q_vars] are the variables of
    [var_list] with a descendant among the [qz], the [p_vars] those of
    [var_list] that are not [q_vars]: no variable is in both, every
    variable of [var_list] is in one, the variables returned are those of
    [var_list] rearranged, each as often as it is there - once, for a
    [var_list] without repetition. *)
Theorem wake_sleep_splits_var_list (g : graph) :
  exists loss_p loss_q g',
    run_wake_sleep latent_vars0 data0 n_samples phase_q auto_transform scale0
                   var_list0 collections g
    = (Ok (loss_p, zip (gradients loss_q q_vars) q_vars
                   ++ zip (gradients loss_p p_vars) p_vars), g')
    /\ (zip (gradients loss_q q_vars) q_vars
        ++ zip (gradients loss_p p_vars) p_vars).*2 = q_vars ++ p_vars
    /\ (zip (gradients loss_q q_vars) q_vars
        ++ zip (gradients loss_p p_vars) p_vars).*1
       = (Grad loss_q <$> q_vars) ++ (Grad loss_p <$> p_vars)
    /\ (forall v, v ∈ q_vars <->
                  v ∈ var_list
                  /\ length (get_descendants v (latent_vars.*2)) ≠ 0%nat)
    /\ (forall v, v ∈ p_vars <-> v ∈ var_list /\ v ∉ q_vars)
    /\ (forall v, v ∈ q_vars -> v ∉ p_vars)
    /\ (forall v, v ∈ var_list <-> v ∈ q_vars \/ v ∈ p_vars)
    /\ q_vars ++ p_vars ≡ₚ var_list
    /\ (NoDup var_list -> NoDup (q_vars ++ p_vars)).
Proof.
  destruct (objectives_spec _ _ _ _ _ latent_vars0 data0 n_samples phase_q
              auto_transform scale0 var_list0 collections
              latent_vars1 latent_vars x data scale var_list
              Hlatent Hdata Htransform Hscale Hvars g)
    as (ps & qs & g1 & g' & Hobj & _).
  exists (loss_of ps (regularization_losses g)),
         (loss_of qs (regularization_losses g)), g'.
  split; [by apply wake_sleep_unfold|].
  split; [apply grads_and_vars_snd|].
  split; [apply grads_and_vars_fst|].
  split; [apply q_vars_elem|].
  split; [apply p_vars_elem|].
  split; [apply vars_disjoint|].
  split; [apply vars_cover|].
  split; [apply vars_permutation | apply vars_once].
Qed.

(** C2.  [loss_p] is minus the mean over the list of the [n_samples] sums
    for [p], one for each sample, plus the sum of the registered
    regularization losses; [loss_q] is the same over the sums for [q].
    [wake_sleep] returns [loss_p] and differentiates [loss_q] for the
    [q_vars]. *)
Theorem wake_sleep_losses (g : graph) :
  exists ps qs g',
    run_objectives latent_vars0 data0 n_samples phase_q auto_transform scale0
                   var_list0 collections g
    = (Ok (latent_vars, var_list,
           EAdd (ENeg (EReduceMean (EPack ps)))
                (EReduceSum (EPack (regularization_losses g))),
           EAdd (ENeg (EReduceMean (EPack qs)))
                (EReduceSum (EPack (regularization_losses g)))), g')
    /\ length ps = Z.to_nat n_samples /\ length qs = Z.to_nat n_samples
    /\ Forall (p_sum scale) ps /\ Forall (q_sum scale) qs
    /\ run_wake_sleep latent_vars0 data0 n_samples phase_q auto_transform
                      scale0 var_list0 collections g
       = (Ok (loss_of ps (regularization_losses g),
              zip (gradients (loss_of qs (regularization_losses g)) q_vars)
                  q_vars
              ++ zip (gradients (loss_of ps (regularization_losses g)) p_vars)
                     p_vars), g').
Proof.
  destruct (objectives_spec _ _ _ _ _ latent_vars0 data0 n_samples phase_q
              auto_transform scale0 var_list0 collections
              latent_vars1 latent_vars x data scale var_list
              Hlatent Hdata Htransform Hscale Hvars g)
    as (ps & qs & g1 & g' & Hobj & Hbuilt & _).
  destruct Hbuilt as (new & _ & _ & _ & Hlp & Hlq & Hps & Hqs & _).
  exists ps, qs, g'.
  split; [exact Hobj|].
  split; [done|]. split; [done|]. split; [done|]. split; [done|].
  by apply wake_sleep_unfold.
Qed.

(** C4.  With [phase_q = 'wake'] the sleep sub-phase does not run: no name
    is made for a p-sample, every node added is a copy under a scope of
    the q-samples (never one of the p-samples) whose substitutions, where
    it has any, are keyed by observed and latent variables only.  The sum
    for [q] of every sample holds nothing but the terms of the q-sample
    sub-phase: for each latent variable, in order, the log-density of the
    fresh copy of its [qz] at the value of that copy, behind
    [stop_gradient], scaled by the multiplier of the variable.  The
    variables are split as in every call. *)
Theorem wake_sleep_wake_phase (g : graph) :
  phase_q = "wake" ->
  exists ps qs new g',
    run_wake_sleep latent_vars0 data0 n_samples phase_q auto_transform scale0
                   var_list0 collections g
    = (Ok (loss_of ps (regularization_losses g),
           zip (gradients (loss_of qs (regularization_losses g)) q_vars)
               q_vars
           ++ zip (gradients (loss_of ps (regularization_losses g)) p_vars)
                  p_vars), g')
    /\ names g' !! "p_sample" = names g !! "p_sample"
    /\ nodes g' = nodes g ++ new
    /\ Forall (wake_node (base_scope_of g) latent_vars data) new
    /\ Forall (fun nd => forall k,
                 c_scope nd ≠ base_scope_of g +:+ issued "p_sample" k) new
    /\ length qs = Z.to_nat n_samples
    /\ Forall (wake_q_sum (nodes g') (base_scope_of g) scale latent_vars) qs
    /\ (zip (gradients (loss_of qs (regularization_losses g)) q_vars) q_vars
        ++ zip (gradients (loss_of ps (regularization_losses g)) p_vars)
               p_vars).*2 = q_vars ++ p_vars
    /\ q_vars ++ p_vars ≡ₚ var_list.
Proof.
  intros Hphase.
  assert (Hwake : phase_q ≠ "sleep") by (by rewrite Hphase).
  destruct (objectives_spec _ _ _ _ _ latent_vars0 data0 n_samples phase_q
              auto_transform scale0 var_list0 collections
              latent_vars1 latent_vars x data scale var_list
              Hlatent Hdata Htransform Hscale Hvars g)
    as (ps & qs & g1 & g' & Hobj & Hbuilt & Hnames & Hnodes & _).
  destruct Hbuilt as (new & Hn & _ & _ & _ & Hlq & _ & _ & Hw & _).
  destruct (Hw Hwake) as (Hp & Hnew & Hqs).
  exists ps, qs, new, g'.
  split; [by apply wake_sleep_unfold|].
  split.
  { rewrite Hnames, Hp. cbn. by rewrite lookup_insert_ne. }
  split; [by rewrite Hnodes, Hn|].
  split; [done|].
  split.
  { eapply Forall_impl; [exact Hnew|].
    intros nd [[k Hk] _] k'. rewrite Hk. apply q_scope_not_p_scope. }
  split; [done|].
  split; [by rewrite Hnodes|].
  split; [apply grads_and_vars_snd | apply vars_permutation].
Qed.

(** In the sleep phase every term of the sums for [q] carries the
    multiplier of one variable, the last key of [latent_vars]. *)
Lemma wake_sleep_sleep_phase_scale (g : graph) (z : rv) :
  phase_q = "sleep" -> last (latent_vars.*1) = Some z ->
  exists ps qs g',
    run_objectives latent_vars0 data0 n_samples phase_q auto_transform scale0
                   var_list0 collections g
    = (Ok (latent_vars, var_list, loss_of ps (regularization_losses g),
           loss_of qs (regularization_losses g)), g')
    /\ Forall (sleep_q_sum scale z) qs.
Proof.
  intros Hphase Hlast.
  destruct (objectives_spec _ _ _ _ _ latent_vars0 data0 n_samples phase_q
              auto_transform scale0 var_list0 collections
              latent_vars1 latent_vars x data scale var_list
              Hlatent Hdata Htransform Hscale Hvars g)
    as (ps & qs & g1 & g' & Hobj & Hbuilt & _).
  destruct Hbuilt as (new & _ & _ & _ & _ & _ & _ & _ & _ & Hs).
  exists ps, qs, g'. split; [done|]. by apply Hs.
Qed.
End WakeSleepClaims.

(** ** The claims on a concrete call

    Two latent variables [1] and [2] with approximations [11] and [12], one
    observed random variable [5] bound to a tensor, three trainable
    variables of which the first one feeds the approximations, and a scale
    for the latent variable [1] only. *)
Lemma wake_sleep_phase_not_validated_witness :
  wake_sleep (accept []) (accept []) example_transform (accept ∅)
    example_var_list example_descendants
    (Some example_latent_vars) (Some example_data) 2 "nap" true
    (Some example_scale) (Some [0; 1; 2]%nat) None example_graph
  = wake_sleep (accept []) (accept []) example_transform (accept ∅)
      example_var_list example_descendants
      (Some example_latent_vars) (Some example_data) 2 "wake" true
      (Some example_scale) (Some [0; 1; 2]%nat) None example_graph.
Proof.
  apply wake_sleep_phase_not_validated. discriminate.
Defined.

Lemma wake_sleep_splits_var_list_witness :
  exists loss_p grads_and_vars g',
    wake_sleep (accept []) (accept []) example_transform (accept ∅)
      example_var_list example_descendants
      (Some example_latent_vars) (Some example_data) 2 "sleep" true
      (Some example_scale) (Some [0; 1; 2]%nat) None example_graph
    = (Ok (loss_p, grads_and_vars), g')
    /\ grads_and_vars.*2 = [0; 1; 2]%nat.
Proof.
  destruct (wake_sleep_splits_var_list
              (accept []) (accept []) example_transform (accept ∅)
              example_var_list example_descendants
              (Some example_latent_vars) (Some example_data) 2 "sleep" true
              (Some example_scale) (Some [0; 1; 2]%nat) None
              example_latent_vars example_latent_vars tt example_data
              example_scale [0; 1; 2]%nat
              eq_refl eq_refl eq_refl eq_refl eq_refl example_graph)
    as (loss_p & loss_q & g' & Hrun & Hsnd & _).
  eexists _, _, _. split; [exact Hrun|]. rewrite Hsnd. reflexivity.
Defined.

Lemma wake_sleep_losses_witness :
  exists ps qs,
    fst (wake_sleep (accept []) (accept []) example_transform (accept ∅)
           example_var_list example_descendants
           (Some example_latent_vars) (Some example_data) 2 "sleep" true
           (Some example_scale) (Some [0; 1; 2]%nat) None example_graph)
    = Ok (EAdd (ENeg (EReduceMean (EPack ps))) (EReduceSum (EPack [EGiven 7])),
          [(Grad (EAdd (ENeg (EReduceMean (EPack qs)))
                       (EReduceSum (EPack [EGiven 7]))) 0%nat, 0%nat);
           (Grad (EAdd (ENeg (EReduceMean (EPack ps)))
                       (EReduceSum (EPack [EGiven 7]))) 1%nat, 1%nat);
           (Grad (EAdd (ENeg (EReduceMean (EPack ps)))
                       (EReduceSum (EPack [EGiven 7]))) 2%nat, 2%nat)])
    /\ length ps = 2%nat /\ length qs = 2%nat.
Proof.
  destruct (wake_sleep_losses
              (accept []) (accept []) example_transform (accept ∅)
              example_var_list example_descendants
              (Some example_latent_vars) (Some example_data) 2 "sleep" true
              (Some example_scale) (Some [0; 1; 2]%nat) None
              example_latent_vars example_latent_vars tt example_data
              example_scale [0; 1; 2]%nat
              eq_refl eq_refl eq_refl eq_refl eq_refl example_graph)
    as (ps & qs & g' & _ & Hlp & Hlq & _ & _ & Hrun).
  exists ps, qs. rewrite Hrun. cbn [fst].
  split; [reflexivity|]. by split.
Defined.

Lemma wake_sleep_wake_phase_witness :
  exists ps qs new g',
    wake_sleep (accept []) (accept []) example_transform (accept ∅)
      example_var_list example_descendants
      (Some example_latent_vars) (Some example_data) 2 "wake" true
      (Some example_scale) (Some [0; 1; 2]%nat) None example_graph
    = (Ok (loss_of ps [EGiven 7],
           [(Grad (loss_of qs [EGiven 7]) 0%nat, 0%nat);
            (Grad (loss_of ps [EGiven 7]) 1%nat, 1%nat);
            (Grad (loss_of ps [EGiven 7]) 2%nat, 2%nat)]), g')
    /\ names g' !! "p_sample" = None
    /\ nodes g' = new
    /\ Forall (wake_q_sum new "inference/" example_scale example_latent_vars) qs.
Proof.
  destruct (wake_sleep_wake_phase
              (accept []) (accept []) example_transform (accept ∅)
              example_var_list example_descendants
              (Some example_latent_vars) (Some example_data) 2 "wake" true
              (Some example_scale) (Some [0; 1; 2]%nat) None
              example_latent_vars example_latent_vars tt example_data
              example_scale [0; 1; 2]%nat
              eq_refl eq_refl eq_refl eq_refl eq_refl example_graph eq_refl)
    as (ps & qs & new & g' & Hrun & Hnames & Hnodes & _ & _ & _ & Hqs & _).
  exists ps, qs, new, g'.
  split; [exact Hrun|]. split; [exact Hnames|]. split; [exact Hnodes|].
  by rewrite Hnodes in Hqs.
Defined.

(** C3, on the call above in the sleep phase.  The term for [qz = 11]
    belongs to the latent variable [1], whose multiplier is [EGiven 100];
    the code scales it, like the term for [qz = 12], by the multiplier of
    the variable [2] that the loop before left in [z], which is the default
    [1.0]. *)
Theorem wake_sleep_sleep_phase_scale_of_last_key :
  exists p_log_prob,
    fst (objectives (accept []) (accept []) example_transform (accept ∅)
           example_var_list
           (Some example_latent_vars) (Some example_data) 1 "sleep" true
           (Some example_scale) (Some [0; 1; 2]%nat) None example_graph)
    = Ok (example_latent_vars, [0; 1; 2]%nat,
          loss_of [p_log_prob] [EGiven 7],
          loss_of
            [EAdd (EAdd (EFloat 0)
                     (EReduceSum (EMul (EFloat 1)
                        (ELogProb 7%nat (EStopGradient (EValue 5%nat))))))
                  (EReduceSum (EMul (EFloat 1)
                     (ELogProb 8%nat (EStopGradient (EValue 6%nat)))))]
            [EGiven 7])
  /\ scale_get example_scale 1%nat = EGiven 100
  /\ scale_get example_scale 2%nat = EFloat 1
  /\ last (example_latent_vars.*1) = Some 2%nat.
Proof.
  eexists. split; [vm_compute; reflexivity|]. by vm_compute.
Qed.

(** * Part I, continued: more properties of the families *)

(** ** Indexing at a position in range *)
Section ItemFacts.
Context `{Indexing}.

Lemma item_nth {A} (l : list A) (i : Z) (d : A) :
  0 <= i < Z.of_nat (length l) -> item l i = Ok (nth (Z.to_nat i) l d).
Proof.
  intros Hi. unfold item. rewrite index_in_range by done. cbn.
  destruct (lookup_lt_is_Some_2 l (Z.to_nat i)) as [x Hx]; [lia|].
  rewrite Hx. f_equal. symmetry. by apply nth_lookup_Some.
Qed.

Lemma getitem_nth {R} (v : list R) (i : Z) (d : R) :
  0 <= i < Z.of_nat (length v) ->
  getitem (T1 v) i = Ok (T0 (nth (Z.to_nat i) v d)).
Proof. intros Hi. cbn. by rewrite (item_nth v i d). Qed.

Lemma getcol_nth {R} (rows : list (list R)) (i : Z) (d : R) :
  0 <= i -> Forall (fun r => i < Z.of_nat (length r)) rows ->
  getcol (T2 rows) i = Ok (map (fun r => nth (Z.to_nat i) r d) rows).
Proof.
  intros H0 Hrows. cbn. rewrite (proj2 (Z.ltb_ge i 0) H0). cbn.
  apply mapM_Ok. eapply Forall_impl; [exact Hrows|].
  cbn. intros r Hr. apply item_nth. lia.
Qed.
End ItemFacts.

(** ** What [log_prob_zi] computes *)
Section LogProbValues.
Context {R : Type} `{Indexing} `{Num R} `{Stats R}.

(** X1.  For the Bernoulli family, an index in range, a probability vector
    and an input whose rows are long enough, [log_prob_zi(i, z)] is the
    vector of [bernoulli.logpmf(z[r][i], p[i])] over the rows [r] of [z]. *)
Theorem MFBernoulli_log_prob_zi_value (self : MFBernoulli.t) (i : Z)
    (pv : list R) (rows : list (list R)) :
  0 <= i < MFBernoulli.num_vars self ->
  MFBernoulli.p self = Some (T1 pv) ->
  i < Z.of_nat (length pv) ->
  Forall (fun r => i < Z.of_nat (length r)) rows ->
  MFBernoulli.log_prob_zi self i (T2 rows)
  = Ok (T1 (map (fun r => bernoulli_logpmf (nth (Z.to_nat i) r n0)
                                           (nth (Z.to_nat i) pv n0)) rows)).
Proof.
  intros Hi Hp Hpv Hrows. unfold MFBernoulli.log_prob_zi.
  replace (i >=? MFBernoulli.num_vars self) with false
    by (symmetry; rewrite Z.geb_leb; apply Z.leb_gt; lia).
  rewrite (getcol_nth rows i n0) by (done || lia).
  rewrite Hp. cbn [mbind res_bind attr].
  rewrite (getitem_nth pv i n0) by lia. cbn [mbind res_bind].
  rewrite broadcast_vector_scalar. by rewrite map_map.
Qed.

(** X2.  For the Beta family, likewise, [log_prob_zi(i, z)] is the vector of
    [beta.logpdf(z[r][i], a[i], b[i])] over the rows of [z]. *)
Theorem MFBeta_log_prob_zi_value (self : MFBeta.t) (i : Z)
    (av bv : list R) (rows : list (list R)) :
  0 <= i < MFBeta.num_vars self ->
  MFBeta.a self = Some (T1 av) -> MFBeta.b self = Some (T1 bv) ->
  i < Z.of_nat (length av) -> i < Z.of_nat (length bv) ->
  Forall (fun r => i < Z.of_nat (length r)) rows ->
  MFBeta.log_prob_zi self i (T2 rows)
  = Ok (T1 (map (fun r => beta_logpdf (nth (Z.to_nat i) r n0)
                                      (nth (Z.to_nat i) av n0)
                                      (nth (Z.to_nat i) bv n0)) rows)).
Proof.
  intros Hi Ha Hb Hav Hbv Hrows. unfold MFBeta.log_prob_zi.
  replace (i >=? MFBeta.num_vars self) with false
    by (symmetry; rewrite Z.geb_leb; apply Z.leb_gt; lia).
  rewrite (getcol_nth rows i n0) by (done || lia).
  rewrite Ha, Hb. cbn [mbind res_bind attr].
  rewrite (getitem_nth av i n0), (getitem_nth bv i n0) by lia.
  cbn [mbind res_bind].
  rewrite broadcast3_vector_scalars. by rewrite map_map.
Qed.

(** X3.  For the Gaussian family and an input of at least one row,
    [log_prob_zi(i, z)] is the vector of [norm.logpdf(z[r][i], m[i], s[i])]
    over the rows of [z]: one entry for each row. *)
Theorem MFGaussian_log_prob_zi_value (self : MFGaussian.t) (i : Z)
    (mv sv : list R) (rows : list (list R)) :
  0 <= i < MFGaussian.num_vars self ->
  MFGaussian.m self = Some (T1 mv) -> MFGaussian.s self = Some (T1 sv) ->
  i < Z.of_nat (length mv) -> i < Z.of_nat (length sv) ->
  rows <> [] ->
  Forall (fun r => i < Z.of_nat (length r)) rows ->
  MFGaussian.log_prob_zi self i (T2 rows)
  = Ok (T1 (map (fun r => norm_logpdf (nth (Z.to_nat i) r n0)
                                      (nth (Z.to_nat i) mv n0)
                                      (nth (Z.to_nat i) sv n0)) rows)).
Proof.
  intros Hi Hm Hs Hmv Hsv Hne Hrows. unfold MFGaussian.log_prob_zi.
  replace (i >=? MFGaussian.num_vars self) with false
    by (symmetry; rewrite Z.geb_leb; apply Z.leb_gt; lia).
  rewrite Hm, Hs. cbn [mbind res_bind attr].
  rewrite (getitem_nth mv i n0), (getitem_nth sv i n0) by lia.
  cbn [mbind res_bind unpack].
  assert (Hterms :
    mapM (fun zm => zmi ← getitem zm i;
                    broadcast3 norm_logpdf zmi
                      (T0 (nth (Z.to_nat i) mv n0)) (T0 (nth (Z.to_nat i) sv n0)))
         (T1 <$> rows)
    = Ok (T0 <$> map (fun r => norm_logpdf (nth (Z.to_nat i) r n0)
                                 (nth (Z.to_nat i) mv n0)
                                 (nth (Z.to_nat i) sv n0)) rows)).
  { clear Hne. induction Hrows as [|r rows Hr _ IH]; [reflexivity|].
    rewrite fmap_cons. cbn [mapM mbind res_bind].
    rewrite (getitem_nth r i n0) by lia. cbn [mbind res_bind broadcast3 broadcast].
    rewrite IH. reflexivity. }
  rewrite Hterms. cbn [mbind res_bind].
  destruct rows as [|r rows]; [done|].
  cbn [map]. apply concat_scalars.
Qed.

(** X4.  For the inverse-gamma family, [log_prob_zi(i, z)] is the vector of
    [invgamma.logpdf(z[r][i], softplus(a_unconst[i]), softplus(b_unconst[i]))]
    over the rows of [z]: the density sees the parameters through
    [softplus], never the unconstrained ones. *)
Theorem MFInvGamma_log_prob_zi_value (self : MFInvGamma.t) (i : Z)
    (av bv : list R) (rows : list (list R)) :
  0 <= i < MFInvGamma.num_vars self ->
  MFInvGamma.a_unconst self = T1 av -> MFInvGamma.b_unconst self = T1 bv ->
  i < Z.of_nat (length av) -> i < Z.of_nat (length bv) ->
  Forall (fun r => i < Z.of_nat (length r)) rows ->
  MFInvGamma.log_prob_zi self i (T2 rows)
  = Ok (T1 (map (fun r => invgamma_logpdf
                            (nth (Z.to_nat i) r n0)
                            (softplus (nth (Z.to_nat i) av n0))
                            (softplus (nth (Z.to_nat i) bv n0))) rows)).
Proof.
  intros Hi Ha Hb Hav Hbv Hrows.
  unfold MFInvGamma.log_prob_zi, MFInvGamma.transform.
  replace (i >=? MFInvGamma.num_vars self) with false
    by (symmetry; rewrite Z.geb_leb; apply Z.leb_gt; lia).
  rewrite Ha, Hb. cbn [tmap].
  rewrite (getitem_nth (map softplus av) i (softplus n0)),
    (getitem_nth (map softplus bv) i (softplus n0))
    by (rewrite length_map; lia).
  rewrite !map_nth.
  rewrite (getcol_nth rows i n0) by (done || lia).
  cbn [mbind res_bind].
  rewrite broadcast3_vector_scalars. by rewrite map_map.
Qed.

(** X5.  For the Dirichlet family, [log_prob_zi(i, z)] is the scalar
    [dirichlet.logpdf(z[:, i], softplus(alpha_unconst[i, :]))]: column [i] of
    the input against row [i] of the concentrations, taken through
    [softplus]. *)
Theorem MFDirichlet_log_prob_zi_value (self : MFDirichlet.t) (i : Z)
    (arows rows : list (list R)) :
  0 <= i < MFDirichlet.num_vars self ->
  MFDirichlet.alpha_unconst self = T2 arows ->
  i < Z.of_nat (length arows) ->
  Forall (fun r => i < Z.of_nat (length r)) rows ->
  MFDirichlet.log_prob_zi self i (T2 rows)
  = Ok (T0 (dirichlet_logpdf
              (map (fun r => nth (Z.to_nat i) r n0) rows)
              (map softplus (nth (Z.to_nat i) arows [])))).
Proof.
  intros Hi Ha Harows Hrows.
  unfold MFDirichlet.log_prob_zi, MFDirichlet.transform.
  replace (i >=? MFDirichlet.num_vars self) with false
    by (symmetry; rewrite Z.geb_leb; apply Z.leb_gt; lia).
  rewrite Ha. cbn [tmap getrow].
  rewrite (item_nth (map (map softplus) arows) i (map softplus []))
    by (rewrite length_map; lia).
  rewrite map_nth.
  rewrite (getcol_nth rows i n0) by (done || lia).
  reflexivity.
Qed.
End LogProbValues.

Lemma MFBernoulli_log_prob_zi_value_witness :
  MFBernoulli.log_prob_zi (H:=rejecting) (H1:=example_stats)
    {| MFBernoulli.num_vars := 2; MFBernoulli.num_params := 2;
       MFBernoulli.p := Some (T1 [1 # 3; 2 # 3]%Q) |} 1
    (T2 [[1; 2]; [3; 4]]%Q)
  = Ok (T1 [2 * (2 # 3); 4 * (2 # 3)]%Q).
Proof.
  apply (@MFBernoulli_log_prob_zi_value Q rejecting _ example_stats
           {| MFBernoulli.num_vars := 2; MFBernoulli.num_params := 2;
              MFBernoulli.p := Some (T1 [1 # 3; 2 # 3]%Q) |} 1
           [1 # 3; 2 # 3]%Q [[1; 2]; [3; 4]]%Q);
    [cbn; lia | reflexivity | cbn; lia | repeat constructor; cbn; lia].
Defined.

Lemma MFBeta_log_prob_zi_value_witness :
  MFBeta.log_prob_zi (H:=rejecting) (H1:=example_stats)
    {| MFBeta.num_vars := 2; MFBeta.num_params := 4;
       MFBeta.a := Some (T1 [1; 2]%Q); MFBeta.b := Some (T1 [3; 4]%Q) |} 0
    (T2 [[5; 6]; [7; 8]]%Q)
  = Ok (T1 [5 * 1 + 3; 7 * 1 + 3]%Q).
Proof.
  apply (@MFBeta_log_prob_zi_value Q rejecting _ example_stats
           {| MFBeta.num_vars := 2; MFBeta.num_params := 4;
              MFBeta.a := Some (T1 [1; 2]%Q); MFBeta.b := Some (T1 [3; 4]%Q) |}
           0 [1; 2]%Q [3; 4]%Q [[5; 6]; [7; 8]]%Q);
    [cbn; lia | reflexivity | reflexivity | cbn; lia | cbn; lia
    | repeat constructor; cbn; lia].
Defined.

Lemma MFGaussian_log_prob_zi_value_witness :
  MFGaussian.log_prob_zi (H:=rejecting) (H1:=example_stats)
    {| MFGaussian.num_vars := 2; MFGaussian.num_params := 4;
       MFGaussian.m := Some (T1 [1; 2]%Q); MFGaussian.s := Some (T1 [3; 4]%Q) |}
    1 (T2 [[5; 6]; [7; 8]]%Q)
  = Ok (T1 [(6 - 2) * 4; (8 - 2) * 4]%Q).
Proof.
  apply (@MFGaussian_log_prob_zi_value Q rejecting _ example_stats
           {| MFGaussian.num_vars := 2; MFGaussian.num_params := 4;
              MFGaussian.m := Some (T1 [1; 2]%Q);
              MFGaussian.s := Some (T1 [3; 4]%Q) |}
           1 [1; 2]%Q [3; 4]%Q [[5; 6]; [7; 8]]%Q);
    [cbn; lia | reflexivity | reflexivity | cbn; lia | cbn; lia | discriminate
    | repeat constructor; cbn; lia].
Defined.

Lemma MFInvGamma_log_prob_zi_value_witness :
  MFInvGamma.log_prob_zi (H:=rejecting) (H1:=example_stats)
    (MFInvGamma.__init__ 2 (T1 [1; 2]%Q) (T1 [3; 4]%Q)) 0
    (T2 [[5; 6]; [7; 8]]%Q)
  = Ok (T1 [5 * (1 * 1 + 1) - (3 * 3 + 1); 7 * (1 * 1 + 1) - (3 * 3 + 1)]%Q).
Proof.
  apply (@MFInvGamma_log_prob_zi_value Q rejecting _ example_stats
           (MFInvGamma.__init__ 2 (T1 [1; 2]%Q) (T1 [3; 4]%Q))
           0 [1; 2]%Q [3; 4]%Q [[5; 6]; [7; 8]]%Q);
    [cbn; lia | reflexivity | reflexivity | cbn; lia | cbn; lia
    | repeat constructor; cbn; lia].
Defined.

Lemma MFDirichlet_log_prob_zi_value_witness :
  MFDirichlet.log_prob_zi (H:=rejecting) (H1:=example_stats)
    (MFDirichlet.__init__ 2 2 (T2 [[1; 2]; [3; 4]]%Q)) 1
    (T2 [[5; 6]; [7; 8]]%Q)
  = Ok (T0 (dirichlet_logpdf (Stats:=example_stats) [6; 8]%Q
              [3 * 3 + 1; 4 * 4 + 1]%Q)).
Proof.
  apply (@MFDirichlet_log_prob_zi_value Q rejecting _ example_stats
           (MFDirichlet.__init__ 2 2 (T2 [[1; 2]; [3; 4]]%Q))
           1 [[1; 2]; [3; 4]]%Q [[5; 6]; [7; 8]]%Q);
    [cbn; lia | reflexivity | cbn; lia | repeat constructor; cbn; lia].
Defined.

(** ** [set_params] *)
Section SetParamsFacts.
Context {R : Type} `{Indexing} `{Num R}.

(** X6.  [set_params] never touches [num_vars] or [num_params], whatever
    list it is given and also when it raises: for the Bernoulli, Beta,
    Gaussian and point-mass families the two are what the constructor
    set. *)
Theorem set_params_keeps_sizes (params : list (tensor R)) :
  (forall self : MFBernoulli.t,
      MFBernoulli.num_vars (snd (MFBernoulli.set_params self params))
      = MFBernoulli.num_vars self
      /\ MFBernoulli.num_params (snd (MFBernoulli.set_params self params))
         = MFBernoulli.num_params self)
  /\ (forall self : MFBeta.t,
      MFBeta.num_vars (snd (MFBeta.set_params self params))
      = MFBeta.num_vars self
      /\ MFBeta.num_params (snd (MFBeta.set_params self params))
         = MFBeta.num_params self)
  /\ (forall self : MFGaussian.t,
      MFGaussian.num_vars (snd (MFGaussian.set_params self params))
      = MFGaussian.num_vars self
      /\ MFGaussian.num_params (snd (MFGaussian.set_params self params))
         = MFGaussian.num_params self)
  /\ (forall self : PointMass.t,
      PointMass.num_vars (snd (PointMass.set_params self params))
      = PointMass.num_vars self
      /\ PointMass.num_params (snd (PointMass.set_params self params))
         = PointMass.num_params self).
Proof.
  split; [|split; [|split]]; intros self.
  - unfold MFBernoulli.set_params.
    destruct (params !! 0%nat) as [p0|]; [|done].
    destruct (get_dims p0 !! 0%nat) as [d|]; [|done].
    destruct (d >? 1); [|done].
    by destruct (MFBernoulli.constrain p0 d).
  - unfold MFBeta.set_params.
    destruct (params !! 0%nat) as [p0|]; [|done].
    by destruct (params !! 1%nat).
  - unfold MFGaussian.set_params.
    destruct (params !! 0%nat) as [p0|]; [|done].
    by destruct (params !! 1%nat).
  - unfold PointMass.set_params. by destruct (params !! 0%nat).
Qed.

Lemma simplex_front_snoc (front : list R) (x : R) :
  simplex_front (front ++ [x]) = front.
Proof.
  unfold simplex_front. rewrite length_app. cbn [length].
  replace (length front + 1 - 1)%nat with (length front) by lia.
  apply take_app_length.
Qed.

(** X7.  For the Bernoulli family, [set_params] is idempotent on vectors:
    handing the stored probabilities back to it stores them again as they
    are. *)
Theorem MFBernoulli_set_params_idempotent (self : MFBernoulli.t) (v : list R)
    (rest rest' : list (tensor R)) :
  exists stored,
    MFBernoulli.set_params self (T1 v :: rest)
    = (Ok tt, MFBernoulli.with_p self (T1 stored))
    /\ MFBernoulli.set_params (MFBernoulli.with_p self (T1 stored))
         (T1 stored :: rest')
       = (Ok tt, MFBernoulli.with_p self (T1 stored)).
Proof.
  destruct (decide (1 < length v)%nat) as [Hlen|Hlen].
  - exists (simplex_front v ++ [nsub n1 (vsum (simplex_front v))]).
    split; [by apply set_params_vector|].
    rewrite set_params_vector
      by (rewrite length_app, simplex_front_length; cbn; lia).
    by rewrite simplex_front_snoc.
  - exists v.
    assert (Hsmall : forall s rst,
              MFBernoulli.set_params s (T1 v :: rst)
              = (Ok tt, MFBernoulli.with_p s (T1 v))).
    { intros s rst. apply set_params_small with (Z.of_nat (length v));
        [reflexivity | lia]. }
    by rewrite !Hsmall.
Qed.
End SetParamsFacts.

(** ** Reparameterised sampling, end to end *)
Section GaussianUse.
Context {R : Type} `{Indexing} `{Num R} `{Stats R}.

(** X8.  For the Gaussian family, [reparam] reads what [set_params] stored:
    after [set_params([m, s, ...])] with two vectors of one size,
    [reparam(eps)] on a matrix of noise is [m[j] + eps[r][j] * s[j]] entry
    by entry, whatever the object held before; before any [set_params] it
    raises [TypeError]. *)
Theorem MFGaussian_set_params_then_reparam (self : MFGaussian.t)
    (mv sv : list R) (rest : list (tensor R)) (rows : list (list R)) :
  length sv = length mv ->
  Forall (fun row => length row = length mv) rows ->
  fst (MFGaussian.set_params self (T1 mv :: T1 sv :: rest)) = Ok tt
  /\ MFGaussian.reparam
       (snd (MFGaussian.set_params self (T1 mv :: T1 sv :: rest))) (T2 rows)
     = Ok (T2 (map (affine mv sv) rows))
  /\ (forall num_vars,
        MFGaussian.reparam (MFGaussian.__init__ num_vars) (T2 rows)
        = Raise TypeError).
Proof.
  intros Hlen Hrows. split; [reflexivity|]. split; [|by intros].
  by apply reparam_matrix.
Qed.

(** X9.  [sample] of the base class always leaves the random generator in
    the state [sample_noise] left it in, whether or not [reparam] then
    raises.  For the Gaussian family: an error of [norm.rvs] is the error of
    [sample]; with [s] unset the noise is drawn and [TypeError] raised.  For
    the point mass, which has no [sample_noise], [sample] raises
    [NotImplementedError] and draws nothing. *)
Theorem sample_threads_generator (size : list Z) (g : rng) :
  (forall self : MFGaussian.t,
      snd (MFGaussian.sample self size g) = snd (norm_rvs size g)
      /\ (forall e, fst (norm_rvs size g) = Raise e ->
                    fst (MFGaussian.sample self size g) = Raise e)
      /\ (forall eps, fst (norm_rvs size g) = Ok eps ->
                      fst (MFGaussian.sample self size g)
                      = MFGaussian.reparam self eps)
      /\ (forall eps, fst (norm_rvs size g) = Ok eps ->
                      MFGaussian.s self = None ->
                      fst (MFGaussian.sample self size g) = Raise TypeError))
  /\ (forall self : PointMass.t,
      Likelihood.sample self size g = (Raise NotImplementedError, g)).
Proof.
  split; [|reflexivity].
  intros self. unfold MFGaussian.sample, Likelihood.sample.
  cbn [Family.sample_noise Family.reparam MFGaussian.family].
  unfold MFGaussian.sample_noise.
  destruct (norm_rvs size g) as [[eps|e] g']; cbn [fst snd].
  - split; [done|]. split; [done|]. split; [by intros ? [= <-]|].
    intros ? [= <-] Hs. unfold MFGaussian.reparam. by rewrite Hs.
  - split; [done|]. split; [by intros ? [= <-]|]. split; done.
Qed.
End GaussianUse.

Lemma MFGaussian_set_params_then_reparam_witness :
  MFGaussian.reparam
    (snd (MFGaussian.set_params (MFGaussian.__init__ 2)
            [T1 [1; 2]%Q; T1 [3; 4]%Q]))
    (T2 [[5; 6]; [7; 8]]%Q)
  = Ok (T2 [[1 + 5 * 3; 2 + 6 * 4]; [1 + 7 * 3; 2 + 8 * 4]]%Q).
Proof.
  refine (proj1 (proj2 (@MFGaussian_set_params_then_reparam Q _
           (MFGaussian.__init__ 2)
           [1; 2]%Q [3; 4]%Q [] [[5; 6]; [7; 8]]%Q _ _)));
    [reflexivity | repeat constructor].
Defined.

(** ** The mixed family, as constructed *)
Section MixUse.
Context {R : Type} `{Indexing} `{Num R} `{Stats R}.

(** X10.  For the mixed family, an index that is in range but at or beyond
    the size of each of the three parts reaches no part: [log_prob_zi]
    returns the constant zero it started from, whatever [z] is.  For an
    object made by the constructor these are the indices from
    [max(K, K * D)] up to [K + 2 * K * D]. *)
Theorem MFMixGaussian_log_prob_zi_beyond_parts (i : Z) (z : tensor R) :
  (forall self : MFMixGaussian.t,
      MFDirichlet.num_vars (MFMixGaussian.dirich self) <= i ->
      MFGaussian.num_vars (MFMixGaussian.gauss self) <= i ->
      MFInvGamma.num_vars (MFMixGaussian.invgam self) <= i ->
      i < MFMixGaussian.num_vars self ->
      MFMixGaussian.log_prob_zi self i z = Ok (T0 n0))
  /\ (forall (D K : Z) (alpha0 a0 b0 : tensor R),
      K <= i -> K * D <= i -> i < K + K * D + K * D ->
      MFMixGaussian.log_prob_zi (MFMixGaussian.__init__ D K alpha0 a0 b0) i z
      = Ok (T0 n0)).
Proof.
  assert (Hgen : forall self : MFMixGaussian.t,
      MFDirichlet.num_vars (MFMixGaussian.dirich self) <= i ->
      MFGaussian.num_vars (MFMixGaussian.gauss self) <= i ->
      MFInvGamma.num_vars (MFMixGaussian.invgam self) <= i ->
      i < MFMixGaussian.num_vars self ->
      MFMixGaussian.log_prob_zi self i z = Ok (T0 n0)).
  { intros self Hd Hg Hv Hi.
    unfold MFMixGaussian.log_prob_zi, MFMixGaussian.add_if.
    rewrite !(proj2 (Z.ltb_ge _ _)) by lia. cbn [mbind res_bind].
    replace (i >=? MFMixGaussian.num_vars self) with false
      by (symmetry; rewrite Z.geb_leb; apply Z.leb_gt; lia).
    reflexivity. }
  split; [exact Hgen|].
  intros D K alpha0 a0 b0 HK HKD Hi. apply Hgen; cbn; lia.
Qed.

(** X11.  A mixed family as the constructor leaves it has [K + 2 * K * D]
    variables and [K * K + 4 * K * D] parameters, and its Gaussian part has
    no parameters yet (the class has no [set_params] to give it any): for
    every index below [K * D], [log_prob_zi] raises. *)
Theorem MFMixGaussian_as_constructed (D K : Z) (alpha0 a0 b0 : tensor R) :
  MFMixGaussian.num_vars (MFMixGaussian.__init__ D K alpha0 a0 b0)
  = K + 2 * (K * D)
  /\ MFMixGaussian.num_params (MFMixGaussian.__init__ D K alpha0 a0 b0)
     = K * K + 4 * (K * D)
  /\ (forall (i : Z) (z : tensor R),
        i < K * D ->
        raises (MFMixGaussian.log_prob_zi
                  (MFMixGaussian.__init__ D K alpha0 a0 b0) i z)).
Proof.
  split; [cbn; lia|]. split; [cbn; lia|].
  intros i z Hi. unfold MFMixGaussian.log_prob_zi.
  destruct (MFMixGaussian.add_if _ _ _) as [t|e];
    [|apply raises_Raise].
  cbn [mbind res_bind]. apply raises_bind.
  unfold MFMixGaussian.add_if. cbn [MFMixGaussian.gauss MFMixGaussian.__init__].
  cbn [MFGaussian.num_vars MFGaussian.__init__].
  rewrite (proj2 (Z.ltb_lt _ _)) by lia.
  apply raises_bind. unfold MFGaussian.log_prob_zi.
  cbn [MFGaussian.num_vars MFGaussian.__init__ MFGaussian.m].
  replace (i >=? K * D) with false
    by (symmetry; rewrite Z.geb_leb; apply Z.leb_gt; lia).
  apply raises_bind, raises_Raise.
Qed.
End MixUse.

Lemma MFMixGaussian_log_prob_zi_beyond_parts_witness :
  MFMixGaussian.log_prob_zi (H:=rejecting) (H1:=example_stats)
    (MFMixGaussian.__init__ 1 2 (T2 [[1; 1]; [1; 1]]%Q) (T1 [1; 1]%Q)
       (T1 [1; 1]%Q)) 4 (T2 [[1%Q]])
  = Ok (T0 0%Q).
Proof.
  refine (proj2 (@MFMixGaussian_log_prob_zi_beyond_parts Q rejecting _
                   example_stats 4 (T2 [[1%Q]])) 1 2
                (T2 [[1; 1]; [1; 1]]%Q) (T1 [1; 1]%Q) (T1 [1; 1]%Q) _ _ _);
    lia.
Defined.

Lemma MFMixGaussian_as_constructed_witness :
  raises (MFMixGaussian.log_prob_zi (H:=rejecting) (H1:=example_stats)
            (MFMixGaussian.__init__ 1 2 (T2 [[1; 1]; [1; 1]]%Q) (T1 [1; 1]%Q)
               (T1 [1; 1]%Q)) 0 (T2 [[1; 1; 1; 1; 1; 1]]%Q)).
Proof.
  apply (@MFMixGaussian_as_constructed Q rejecting _ example_stats 1 2). lia.
Defined.

Lemma sample_threads_generator_witness :
  fst (MFGaussian.sample (H:=rejecting) (H1:=example_stats)
         {| MFGaussian.num_vars := 2; MFGaussian.num_params := 4;
            MFGaussian.m := Some (T1 [1; 2]%Q); MFGaussian.s := None |}
         [2; 2] 0%nat)
  = Raise TypeError
  /\ snd (MFGaussian.sample (H:=rejecting) (H1:=example_stats)
            {| MFGaussian.num_vars := 2; MFGaussian.num_params := 4;
               MFGaussian.m := Some (T1 [1; 2]%Q); MFGaussian.s := None |}
            [2; 2] 0%nat)
     = 1%nat.
Proof.
  destruct (proj1 (@sample_threads_generator Q rejecting _ example_stats
                     [2; 2] 0%nat)
              {| MFGaussian.num_vars := 2; MFGaussian.num_params := 4;
                 MFGaussian.m := Some (T1 [1; 2]%Q); MFGaussian.s := None |})
    as (Hgen & _ & _ & Hunset).
  split; [|exact Hgen].
  exact (Hunset (T2 [[1; 2]; [3; 4]]%Q) eq_refl eq_refl).
Defined.

(** ** A list of parameters that is too short *)
Section ShortList.
Context {R : Type} `{Indexing} `{Num R} `{Stats R}.

(** X12.  [set_params] of the Gaussian family stores [params[0]] before it
    reads [params[1]]: on a list of one entry it raises [IndexError] and
    leaves the object half updated, the new mean beside the old standard
    deviation, and [reparam] then combines the two; on the empty list it
    raises [IndexError] and changes nothing. *)
Theorem MFGaussian_set_params_short_list (self : MFGaussian.t)
    (mv sv : list R) (rows : list (list R)) :
  MFGaussian.s self = Some (T1 sv) ->
  length sv = length mv ->
  Forall (fun row => length row = length mv) rows ->
  fst (MFGaussian.set_params self [T1 mv]) = Raise IndexError
  /\ MFGaussian.m (snd (MFGaussian.set_params self [T1 mv])) = Some (T1 mv)
  /\ MFGaussian.s (snd (MFGaussian.set_params self [T1 mv]))
     = MFGaussian.s self
  /\ MFGaussian.reparam (snd (MFGaussian.set_params self [T1 mv])) (T2 rows)
     = Ok (T2 (map (affine mv sv) rows))
  /\ MFGaussian.set_params self [] = (Raise IndexError, self).
Proof.
  intros Hs Hlen Hrows.
  split; [reflexivity|]. split; [reflexivity|]. split; [reflexivity|].
  split; [|reflexivity].
  by apply reparam_matrix.
Qed.
End ShortList.

Lemma MFGaussian_set_params_short_list_witness :
  MFGaussian.reparam (H0:=Q_Num)
    (snd (MFGaussian.set_params
            {| MFGaussian.num_vars := 2; MFGaussian.num_params := 4;
               MFGaussian.m := Some (T1 [0; 0]%Q);
               MFGaussian.s := Some (T1 [3; 4]%Q) |}
            [T1 [1; 2]%Q]))
    (T2 [[5; 6]]%Q)
  = Ok (T2 [[1 + 5 * 3; 2 + 6 * 4]]%Q).
Proof.
  refine (proj1 (proj2 (proj2 (proj2
            (@MFGaussian_set_params_short_list Q _
               {| MFGaussian.num_vars := 2; MFGaussian.num_params := 4;
                  MFGaussian.m := Some (T1 [0; 0]%Q);
                  MFGaussian.s := Some (T1 [3; 4]%Q) |}
               [1; 2]%Q [3; 4]%Q [[5; 6]]%Q _ _ _)))));
    [reflexivity | reflexivity | repeat constructor].
Defined.

(** * Part III: properties of the sampling methods *)

(** ** Filling an array column by column *)
Section FillFacts.
Context {R : Type} `{Num R} `{Stats R}.

Lemma set_column_in_range (ncols : Z) (z : list (list R)) (d : Z) (v : list R) :
  0 <= d < ncols -> length v = length z ->
  set_column ncols z d v
  = Ok (zip_with (fun row x => <[Z.to_nat d := x]> row) z v).
Proof.
  intros Hd Hv. unfold set_column.
  rewrite index_in_range by lia. cbn [mbind res_bind].
  destruct v as [|x [|y v]].
  - by rewrite decide_True.
  - destruct z as [|row [|row' z]]; try discriminate. reflexivity.
  - by rewrite decide_True.
Qed.

Lemma set_column_out_of_range (ncols : Z) (z : list (list R)) (d : Z)
    (v : list R) :
  0 <= ncols <= d -> set_column ncols z d v = Raise IndexError.
Proof.
  intros Hd. unfold set_column, index_in.
  rewrite (proj2 (Z.leb_le 0 d)) by lia.
  rewrite (proj2 (Z.ltb_ge _ _)) by lia. reflexivity.
Qed.

Lemma entry_zip_insert (z : list (list R)) (v : list R) (k r j : nat) (d : R) :
  length v = length z -> (r < length z)%nat ->
  (k < length (nth r z []))%nat ->
  entry (zip_with (fun row x => <[k := x]> row) z v) r j d
  = if decide (j = k) then nth r v d else entry z r j d.
Proof.
  intros Hv Hr Hk. unfold entry.
  destruct (lookup_lt_is_Some_2 z r Hr) as [row Hrow].
  destruct (lookup_lt_is_Some_2 v r) as [x Hx]; [lia|].
  rewrite (nth_lookup_Some z r [] row Hrow) in *.
  rewrite (nth_lookup_Some v r d x Hx).
  rewrite (nth_lookup_Some _ r [] (<[k := x]> row)).
  2:{ rewrite lookup_zip_with, Hrow, Hx. reflexivity. }
  rewrite !nth_lookup.
  destruct (decide (j = k)) as [->|Hne].
  - by rewrite list_lookup_insert_eq.
  - by rewrite list_lookup_insert_ne.
Qed.

Lemma zip_insert_shape (z : list (list R)) (v : list R) (k : nat) (m : nat) :
  length v = length z -> Forall (fun row => length row = m) z ->
  length (zip_with (fun row x => <[k := x]> row) z v) = length z
  /\ Forall (fun row => length row = m)
            (zip_with (fun row x => <[k := x]> row) z v).
Proof.
  intros Hv Hz. split; [rewrite length_zip_with; lia|].
  revert v Hv. induction Hz as [|row z Hrow _ IH]; intros [|x v] Hv;
    try discriminate; [constructor|].
  cbn. constructor; [by rewrite length_insert|].
  apply IH. by injection Hv.
Qed.

(** The loop over the columns [k, k + 1, ..., k + len - 1]. *)
Lemma fill_columns_seq (draw : Z -> rng -> res (list R) * rng) (ncols : Z)
    (n m : nat) (len k : nat) (z : list (list R)) (g : rng) :
  ncols = Z.of_nat m -> length z = n ->
  Forall (fun row => length row = m) z ->
  (k + len <= m)%nat ->
  draws_rows draw n (Z.of_nat (k + len)) ->
  exists z',
    fill_columns draw ncols (Z.of_nat <$> seq k len) z g
    = (Ok z', snd (draw_run draw (Z.of_nat <$> seq k len) g))
    /\ length (fst (draw_run draw (Z.of_nat <$> seq k len) g)) = len
    /\ length z' = n
    /\ Forall (fun row => length row = m) z'
    /\ forall r j d, (r < n)%nat ->
         entry z' r j d
         = if decide (k <= j < k + len)%nat
           then nth r (nth (j - k)
                         (fst (draw_run draw (Z.of_nat <$> seq k len) g)) []) d
           else entry z r j d.
Proof.
  intros Hncols. revert k z g.
  induction len as [|len IH]; intros k z g Hz Hrows Hk Hdraw.
  { exists z. cbn. split; [done|]. split; [done|]. split; [done|].
    split; [done|]. intros r j d Hr. rewrite decide_False by lia. done. }
  cbn [seq fmap list_fmap fill_columns draw_run].
  destruct (Hdraw (Z.of_nat k) g) as (v & g' & Hv & Hlen); [lia|].
  rewrite Hv.
  rewrite set_column_in_range by lia.
  destruct (zip_insert_shape z v (Z.to_nat (Z.of_nat k)) m) as [Hz1 Hrows1];
    [lia | done |].
  set (z1 := zip_with (fun row x => <[Z.to_nat (Z.of_nat k) := x]> row) z v)
    in *.
  destruct (IH (S k) z1 g') as (z' & Hrun & Hvs & Hz' & Hrows' & Hentry);
    [lia | done | lia | |].
  { intros d g0 Hd. apply Hdraw. lia. }
  exists z'. cbn [fst snd].
  split; [exact Hrun|]. split; [cbn [length]; by rewrite Hvs|].
  split; [done|]. split; [done|].
  intros r j d Hr. rewrite (Hentry r j d Hr).
  destruct (decide (S k <= j < S k + len)%nat) as [Hin|Hout].
  - rewrite decide_True by lia.
    replace (j - k)%nat with (S (j - S k)) by lia. reflexivity.
  - unfold z1. rewrite entry_zip_insert; [|lia|lia|].
    2:{ rewrite Nat2Z.id.
        assert (Hrow : length (nth r z []) = m).
        { destruct (lookup_lt_is_Some_2 z r) as [row Hrow]; [lia|].
          rewrite (nth_lookup_Some z r [] row Hrow).
          by eapply (proj1 (Forall_lookup _ _) Hrows). }
        lia. }
    rewrite Nat2Z.id.
    destruct (decide (j = k)) as [->|Hne].
    + rewrite decide_True by lia. by rewrite Nat.sub_diag.
    + by rewrite decide_False by lia.
Qed.

(** A column that does not exist stops the loop, after its draw. *)
Lemma fill_columns_narrow (draw : Z -> rng -> res (list R) * rng) (ncols : Z)
    (n m : nat) (len : nat) (z : list (list R)) (g : rng) :
  ncols = Z.of_nat m -> length z = n ->
  Forall (fun row => length row = m) z ->
  (m < len)%nat ->
  draws_rows draw n (Z.of_nat len) ->
  fill_columns draw ncols (Z.of_nat <$> seq 0 len) z g
  = (Raise IndexError,
     snd (draw_run draw (Z.of_nat <$> seq 0 (S m)) g)).
Proof.
  intros Hncols Hz Hrows Hlen Hdraw.
  rewrite (seq_S m 0). change (0 + m)%nat with m.
  replace len with (m + (len - m))%nat at 1 by lia.
  rewrite seq_app, !fmap_app. change (0 + m)%nat with m.
  assert (Hsplit : forall ds1 ds2 z0 g0 z1,
    fill_columns draw ncols ds1 z0 g0 = (Ok z1, snd (draw_run draw ds1 g0)) ->
    length (fst (draw_run draw ds1 g0)) = length ds1 ->
    fill_columns draw ncols (ds1 ++ ds2) z0 g0
    = fill_columns draw ncols ds2 z1 (snd (draw_run draw ds1 g0))
    /\ forall d, snd (draw_run draw (ds1 ++ [d]) g0)
                 = snd (draw_run draw [d] (snd (draw_run draw ds1 g0)))).
  { induction ds1 as [|d ds1 IHd]; intros ds2 z0 g0 z1 Hrun Hl.
    - cbn in *. injection Hrun as ->. done.
    - cbn [app fill_columns draw_run] in *.
      destruct (draw d g0) as [[v|e] g1]; [|discriminate].
      destruct (set_column ncols z0 d v) as [z2|e]; [|discriminate].
      cbn [fst snd length] in *. apply IHd; [done | lia]. }
  destruct (fill_columns_seq draw ncols n m m 0 z g) as (z' & Hrun & Hvs & Hz' & _);
    [done | done | done | lia | |].
  { intros d g0 Hd. apply Hdraw. lia. }
  destruct (Hsplit (Z.of_nat <$> seq 0 m) (Z.of_nat <$> seq m (len - m)) z g z')
    as [-> Hsnd]; [done | by rewrite Hvs, length_fmap, length_seq |].
  replace (len - m)%nat with (S (len - m - 1)) by lia.
  change (Z.of_nat <$> [m]) with [Z.of_nat m]. rewrite Hsnd.
  cbn [seq fmap list_fmap fill_columns draw_run].
  destruct (Hdraw (Z.of_nat m) (snd (draw_run draw (Z.of_nat <$> seq 0 m) g)))
    as (v & g' & -> & _); [lia|].
  rewrite set_column_out_of_range by lia. reflexivity.
Qed.
End FillFacts.

(** ** The sampling methods *)
Section SampleFacts.
Context {R : Type} `{Num R} `{Stats R} `{!Samplers R}.

Lemma zeros_natural (n m : nat) :
  zeros (Z.of_nat n, Z.of_nat m) = Ok (replicate n (replicate m n0)).
Proof.
  unfold zeros. cbn [fst snd].
  rewrite !(proj2 (Z.ltb_ge _ _)) by lia. cbn. by rewrite !Nat2Z.id.
Qed.

Lemma entry_zeros (n m r j : nat) (d : R) :
  (r < n)%nat -> (j < m)%nat ->
  entry (replicate n (replicate m n0)) r j d = n0.
Proof.
  intros Hr Hj. unfold entry.
  rewrite (nth_lookup_Some _ r [] (replicate m n0))
    by (by apply lookup_replicate_2).
  apply nth_lookup_Some. by apply lookup_replicate_2.
Qed.

(** The loop of a sampling method, from the array of zeros. *)
Lemma sample_loop (draw : Z -> rng -> res (list R) * rng) (n m : nat)
    (num_vars : Z) (g : rng) :
  draws_rows draw n num_vars ->
  num_vars <= Z.of_nat m ->
  exists rows,
    fill_columns draw (Z.of_nat m) (range num_vars)
      (replicate n (replicate m n0)) g
    = (Ok rows, snd (draw_run draw (range num_vars) g))
    /\ length (fst (draw_run draw (range num_vars) g)) = Z.to_nat num_vars
    /\ length rows = n
    /\ Forall (fun row => length row = m) rows
    /\ forall r j d, (r < n)%nat -> (j < m)%nat ->
         entry rows r j d
         = if decide (Z.of_nat j < num_vars)
           then nth r (nth j (fst (draw_run draw (range num_vars) g)) []) d
           else n0.
Proof.
  intros Hdraw Hm. unfold range.
  destruct (fill_columns_seq draw (Z.of_nat m) n m (Z.to_nat num_vars) 0
              (replicate n (replicate m n0)) g)
    as (rows & Hrun & Hvs & Hlen & Hrows & Hentry).
  - reflexivity.
  - by rewrite length_replicate.
  - apply Forall_replicate. by rewrite length_replicate.
  - lia.
  - intros d g0 Hd. apply Hdraw. lia.
  - exists rows. split; [done|]. split; [done|]. split; [done|].
    split; [done|].
    intros r j d Hr Hj. rewrite (Hentry r j d Hr).
    destruct (decide (Z.of_nat j < num_vars)) as [Hin|Hout].
    + rewrite decide_True by lia. by rewrite Nat.sub_0_r.
    + rewrite decide_False by lia. by apply entry_zeros.
Qed.

(** X13.  [MFBernoulli.sample((n, m))] with a probability vector that has an
    entry for each of the [num_vars <= m] variables, and a sampler that
    returns [n] values: the result is an array of [n] rows and [m] columns;
    column [j < num_vars] holds the values drawn for [p[j]], in the order
    the columns are drawn and with the generator threaded through the
    draws; the columns from [num_vars] on are left at zero. *)
Theorem MFBernoulli_sample_columns (self : MFBernoulli.t) (pv : list R)
    (n m : nat) (g : rng) :
  MFBernoulli.p self = Some (T1 pv) ->
  MFBernoulli.num_vars self <= Z.of_nat (length pv) ->
  MFBernoulli.num_vars self <= Z.of_nat m ->
  (forall pd g0, exists v g1,
      bernoulli_rvs pd (Z.of_nat n) g0 = (Ok v, g1) /\ length v = n) ->
  let draw := fun d => draw_with (getitem (H:=wrapping) (T1 pv) d)
                         (fun pd => bernoulli_rvs pd (Z.of_nat n)) in
  let drawn := draw_run draw (range (MFBernoulli.num_vars self)) g in
  exists rows,
    MFBernoulli_sample self (Z.of_nat n, Z.of_nat m) g = (Ok (T2 rows), snd drawn)
    /\ length (fst drawn) = Z.to_nat (MFBernoulli.num_vars self)
    /\ length rows = n
    /\ Forall (fun row => length row = m) rows
    /\ forall r j d, (r < n)%nat -> (j < m)%nat ->
         entry rows r j d
         = if decide (Z.of_nat j < MFBernoulli.num_vars self)
           then nth r (nth j (fst drawn) []) d
           else n0.
Proof.
  intros Hp Hpv Hm Hrvs draw drawn.
  destruct (sample_loop draw n m (MFBernoulli.num_vars self) g)
    as (rows & Hrun & Hrest); [|done|].
  { intros d g0 Hd. unfold draw, draw_with.
    destruct (getitem_vector (H:=wrapping) pv d) as [x ->]; [lia|].
    apply Hrvs. }
  exists rows. split; [|exact Hrest].
  unfold MFBernoulli_sample. rewrite Hp. cbn [attr].
  rewrite zeros_natural. cbn [fst snd].
  fold draw. by rewrite Hrun.
Qed.

(** X14.  [MFBernoulli.sample] fails in three ways.  With [p] unset it
    raises [TypeError], with a negative size [ValueError], in both cases
    before anything is drawn.  With fewer columns than variables,
    [m < num_vars], it raises [IndexError] on column [m], after the draws
    for the columns [0] to [m]. *)
Theorem MFBernoulli_sample_errors (self : MFBernoulli.t) (g : rng) :
  (forall size, MFBernoulli.p self = None ->
                MFBernoulli_sample self size g = (Raise TypeError, g))
  /\ (forall size p, MFBernoulli.p self = Some p ->
                     fst size < 0 \/ snd size < 0 ->
                     MFBernoulli_sample self size g = (Raise ValueError, g))
  /\ (forall (pv : list R) (n m : nat),
        MFBernoulli.p self = Some (T1 pv) ->
        MFBernoulli.num_vars self <= Z.of_nat (length pv) ->
        Z.of_nat m < MFBernoulli.num_vars self ->
        (forall pd g0, exists v g1,
            bernoulli_rvs pd (Z.of_nat n) g0 = (Ok v, g1) /\ length v = n) ->
        MFBernoulli_sample self (Z.of_nat n, Z.of_nat m) g
        = (Raise IndexError,
           snd (draw_run
                  (fun d => draw_with (getitem (H:=wrapping) (T1 pv) d)
                              (fun pd => bernoulli_rvs pd (Z.of_nat n)))
                  (range (Z.of_nat (S m))) g))).
Proof.
  split; [|split].
  - intros size Hp. unfold MFBernoulli_sample. by rewrite Hp.
  - intros size p Hp Hneg. unfold MFBernoulli_sample, zeros. rewrite Hp.
    cbn [attr].
    replace ((fst size <? 0) || (snd size <? 0)) with true; [done|].
    symmetry. apply orb_true_iff.
    destruct Hneg; [left | right]; by apply Z.ltb_lt.
  - intros pv n m Hp Hpv Hm Hrvs.
    unfold MFBernoulli_sample. rewrite Hp. cbn [attr].
    rewrite zeros_natural. cbn [fst snd]. unfold range.
    rewrite (fill_columns_narrow _ (Z.of_nat m) n m).
    + by rewrite Nat2Z.id.
    + reflexivity.
    + by rewrite length_replicate.
    + apply Forall_replicate. by rewrite length_replicate.
    + lia.
    + intros d g0 Hd. unfold draw_with.
      destruct (getitem_vector (H:=wrapping) pv d) as [x ->]; [lia|].
      apply Hrvs.
Qed.

(** X15.  [MFBeta.sample((n, m))], likewise: [n] rows of [m] columns,
    column [j < num_vars] the values drawn for [a[j]] and [b[j]], zero from
    column [num_vars] on. *)
Theorem MFBeta_sample_columns (self : MFBeta.t) (av bv : list R)
    (n m : nat) (g : rng) :
  MFBeta.a self = Some (T1 av) -> MFBeta.b self = Some (T1 bv) ->
  MFBeta.num_vars self <= Z.of_nat (length av) ->
  MFBeta.num_vars self <= Z.of_nat (length bv) ->
  MFBeta.num_vars self <= Z.of_nat m ->
  (forall ad bd g0, exists v g1,
      beta_rvs ad bd (Z.of_nat n) g0 = (Ok v, g1) /\ length v = n) ->
  let draw := fun d => draw_with
                         (ad ← getitem (H:=wrapping) (T1 av) d;
                          bd ← getitem (H:=wrapping) (T1 bv) d; Ok (ad, bd))
                         (fun ab => beta_rvs (fst ab) (snd ab) (Z.of_nat n)) in
  let drawn := draw_run draw (range (MFBeta.num_vars self)) g in
  exists rows,
    MFBeta_sample self (Z.of_nat n, Z.of_nat m) g = (Ok (T2 rows), snd drawn)
    /\ length (fst drawn) = Z.to_nat (MFBeta.num_vars self)
    /\ length rows = n
    /\ Forall (fun row => length row = m) rows
    /\ forall r j d, (r < n)%nat -> (j < m)%nat ->
         entry rows r j d
         = if decide (Z.of_nat j < MFBeta.num_vars self)
           then nth r (nth j (fst drawn) []) d
           else n0.
Proof.
  intros Ha Hb Hav Hbv Hm Hrvs draw drawn.
  destruct (sample_loop draw n m (MFBeta.num_vars self) g)
    as (rows & Hrun & Hrest); [|done|].
  { intros d g0 Hd. unfold draw, draw_with.
    destruct (getitem_vector (H:=wrapping) av d) as [x ->]; [lia|].
    destruct (getitem_vector (H:=wrapping) bv d) as [y ->]; [lia|].
    apply Hrvs. }
  exists rows. split; [|exact Hrest].
  unfold MFBeta_sample. rewrite Ha, Hb. cbn [attr mbind res_bind].
  rewrite zeros_natural. cbn [fst snd].
  fold draw. by rewrite Hrun.
Qed.

(** X16.  [MFInvGamma.sample((n, m))], likewise, and the parameters handed
    to the sampler are [softplus(a_unconst[j])] and [softplus(b_unconst[j])],
    never the unconstrained ones. *)
Theorem MFInvGamma_sample_columns (self : MFInvGamma.t) (av bv : list R)
    (n m : nat) (g : rng) :
  MFInvGamma.a_unconst self = T1 av -> MFInvGamma.b_unconst self = T1 bv ->
  MFInvGamma.num_vars self <= Z.of_nat (length av) ->
  MFInvGamma.num_vars self <= Z.of_nat (length bv) ->
  MFInvGamma.num_vars self <= Z.of_nat m ->
  (forall ad bd g0, exists v g1,
      invgamma_rvs ad bd (Z.of_nat n) g0 = (Ok v, g1) /\ length v = n) ->
  let draw := fun d => draw_with
                         (ad ← getitem (H:=wrapping) (T1 (map softplus av)) d;
                          bd ← getitem (H:=wrapping) (T1 (map softplus bv)) d;
                          Ok (ad, bd))
                         (fun ab => invgamma_rvs (fst ab) (snd ab) (Z.of_nat n)) in
  let drawn := draw_run draw (range (MFInvGamma.num_vars self)) g in
  exists rows,
    MFInvGamma_sample self (Z.of_nat n, Z.of_nat m) g = (Ok (T2 rows), snd drawn)
    /\ length (fst drawn) = Z.to_nat (MFInvGamma.num_vars self)
    /\ length rows = n
    /\ Forall (fun row => length row = m) rows
    /\ forall r j d, (r < n)%nat -> (j < m)%nat ->
         entry rows r j d
         = if decide (Z.of_nat j < MFInvGamma.num_vars self)
           then nth r (nth j (fst drawn) []) d
           else n0.
Proof.
  intros Ha Hb Hav Hbv Hm Hrvs draw drawn.
  destruct (sample_loop draw n m (MFInvGamma.num_vars self) g)
    as (rows & Hrun & Hrest); [|done|].
  { intros d g0 Hd. unfold draw, draw_with.
    destruct (getitem_vector (H:=wrapping) (map softplus av) d) as [x ->];
      [rewrite length_map; lia|].
    destruct (getitem_vector (H:=wrapping) (map softplus bv) d) as [y ->];
      [rewrite length_map; lia|].
    apply Hrvs. }
  exists rows. split; [|exact Hrest].
  unfold MFInvGamma_sample, MFInvGamma.transform. rewrite Ha, Hb. cbn [tmap].
  rewrite zeros_natural. cbn [fst snd].
  fold draw. by rewrite Hrun.
Qed.
End SampleFacts.

Lemma MFBernoulli_sample_columns_witness :
  exists rows,
    MFBernoulli_sample (H0:=example_stats) (Samplers0:=example_samplers)
      {| MFBernoulli.num_vars := 2; MFBernoulli.num_params := 2;
         MFBernoulli.p := Some (T1 [1 # 3; 2 # 3]%Q) |} (2, 3) 0%nat
    = (Ok (T2 rows), 2%nat)
    /\ entry rows 1 1 7%Q = (2 # 3)%Q /\ entry rows 1 2 7%Q = 0%Q.
Proof.
  destruct (@MFBernoulli_sample_columns Q _ example_stats example_samplers
              {| MFBernoulli.num_vars := 2; MFBernoulli.num_params := 2;
                 MFBernoulli.p := Some (T1 [1 # 3; 2 # 3]%Q) |}
              [1 # 3; 2 # 3]%Q 2%nat 3%nat 0%nat)
    as (rows & Hrun & _ & _ & _ & Hentry).
  - reflexivity.
  - cbn; lia.
  - cbn; lia.
  - intros pd g0. eexists _, _. split; [reflexivity|]. apply length_replicate.
  - exists rows. split; [exact Hrun|].
    split; [exact (Hentry 1%nat 1%nat 7%Q ltac:(lia) ltac:(lia))
           | exact (Hentry 1%nat 2%nat 7%Q ltac:(lia) ltac:(lia))].
Defined.

Lemma MFBernoulli_sample_errors_witness :
  MFBernoulli_sample (H0:=example_stats) (Samplers0:=example_samplers)
    {| MFBernoulli.num_vars := 3; MFBernoulli.num_params := 3;
       MFBernoulli.p := Some (T1 [1 # 3; 1 # 3; 1 # 3]%Q) |} (2, 1) 0%nat
  = (Raise IndexError, 2%nat).
Proof.
  refine (proj2 (proj2 (@MFBernoulli_sample_errors Q _ example_stats
                          example_samplers
                          {| MFBernoulli.num_vars := 3;
                             MFBernoulli.num_params := 3;
                             MFBernoulli.p := Some (T1 [1 # 3; 1 # 3; 1 # 3]%Q) |}
                          0%nat))
            [1 # 3; 1 # 3; 1 # 3]%Q 2%nat 1%nat _ _ _ _).
  - reflexivity.
  - cbn; lia.
  - cbn; lia.
  - intros pd g0. eexists _, _. split; [reflexivity|]. apply length_replicate.
Defined.

Lemma MFBeta_sample_columns_witness :
  exists rows,
    MFBeta_sample (H0:=example_stats) (Samplers0:=example_samplers)
      {| MFBeta.num_vars := 2; MFBeta.num_params := 4;
         MFBeta.a := Some (T1 [5; 6]%Q); MFBeta.b := Some (T1 [7; 8]%Q) |}
      (2, 2) 0%nat
    = (Ok (T2 rows), 2%nat)
    /\ entry rows 0 1 9%Q = 6%Q.
Proof.
  destruct (@MFBeta_sample_columns Q _ example_stats example_samplers
              {| MFBeta.num_vars := 2; MFBeta.num_params := 4;
                 MFBeta.a := Some (T1 [5; 6]%Q); MFBeta.b := Some (T1 [7; 8]%Q) |}
              [5; 6]%Q [7; 8]%Q 2%nat 2%nat 0%nat)
    as (rows & Hrun & _ & _ & _ & Hentry).
  - reflexivity.
  - reflexivity.
  - cbn; lia.
  - cbn; lia.
  - cbn; lia.
  - intros ad bd g0. eexists _, _. split; [reflexivity|].
    apply length_replicate.
  - exists rows. split; [exact Hrun|].
    exact (Hentry 0%nat 1%nat 9%Q ltac:(lia) ltac:(lia)).
Defined.

Lemma MFInvGamma_sample_columns_witness :
  exists rows,
    MFInvGamma_sample (H0:=example_stats) (Samplers0:=example_samplers)
      (MFInvGamma.__init__ 2 (T1 [1; 2]%Q) (T1 [3; 4]%Q)) (1, 3) 0%nat
    = (Ok (T2 rows), 2%nat)
    /\ entry rows 0 1 9%Q = (2 * 2 + 1)%Q /\ entry rows 0 2 9%Q = 0%Q.
Proof.
  destruct (@MFInvGamma_sample_columns Q _ example_stats example_samplers
              (MFInvGamma.__init__ 2 (T1 [1; 2]%Q) (T1 [3; 4]%Q))
              [1; 2]%Q [3; 4]%Q 1%nat 3%nat 0%nat)
    as (rows & Hrun & _ & _ & _ & Hentry).
  - reflexivity.
  - reflexivity.
  - cbn; lia.
  - cbn; lia.
  - cbn; lia.
  - intros ad bd g0. eexists _, _. split; [reflexivity|].
    apply length_replicate.
  - exists rows. split; [exact Hrun|].
    split; [exact (Hentry 0%nat 1%nat 9%Q ltac:(lia) ltac:(lia))
           | exact (Hentry 0%nat 2%nat 9%Q ltac:(lia) ltac:(lia))].
Defined.

(** ** [mapping], and what [set_params] makes of its result *)
Section MappingFacts.
Context {R : Type} `{Indexing} `{Num R} `{Stats R} `{!Variables R}.

(** X17.  For the Gaussian family, [mapping] makes the variable [mu] and
    then the variable [sigma], and hands [set_params] the first as it is
    and the softplus of the second: with two vectors of one size,
    [reparam(eps)] after [set_params(mapping(x))] is
    [mu[j] + eps[r][j] * softplus(sigma[j])].  When [Variable] raises for
    [mu], [mapping] raises the same and [sigma] is never made. *)
Theorem MFGaussian_mapping_then_reparam {X} (self : MFGaussian.t) (x : X)
    (st st1 : store) :
  (forall (mu sigma : list R) (st2 : store) (rows : list (list R)),
      new_variable "mu" [MFGaussian.num_vars self] st = (Ok (T1 mu), st1) ->
      new_variable "sigma" [MFGaussian.num_vars self] st1
      = (Ok (T1 sigma), st2) ->
      length sigma = length mu ->
      Forall (fun row => length row = length mu) rows ->
      exists params,
        MFGaussian_mapping self x st = (Ok params, st2)
        /\ fst (MFGaussian.set_params self params) = Ok tt
        /\ MFGaussian.reparam (snd (MFGaussian.set_params self params))
             (T2 rows)
           = Ok (T2 (map (affine mu (map softplus sigma)) rows)))
  /\ (forall e,
      new_variable "mu" [MFGaussian.num_vars self] st = (Raise e, st1) ->
      MFGaussian_mapping self x st = (Raise e, st1)).
Proof.
  split.
  - intros mu sigma st2 rows Hmu Hsigma Hlen Hrows.
    exists [T1 mu; tmap softplus (T1 sigma)].
    unfold MFGaussian_mapping, then_. rewrite Hmu, Hsigma.
    split; [reflexivity|]. split; [reflexivity|].
    cbn [tmap]. apply reparam_matrix;
      [reflexivity | reflexivity | by rewrite length_map | done].
  - intros e Hmu. unfold MFGaussian_mapping, then_. by rewrite Hmu.
Qed.

End MappingFacts.


Lemma MFGaussian_mapping_then_reparam_witness :
  exists params,
    MFGaussian_mapping (Variables0:=example_variables) (H:=example_stats)
      (MFGaussian.__init__ 2) tt [] = (Ok params, ["mu"; "sigma"])
    /\ MFGaussian.reparam
         (snd (MFGaussian.set_params (MFGaussian.__init__ 2) params))
         (T2 [[5; 6]]%Q)
       = Ok (T2 [[1 + 5 * (1 * 1 + 1); 1 + 6 * (1 * 1 + 1)]]%Q).
Proof.
  destruct (proj1 (@MFGaussian_mapping_then_reparam Q _ example_stats
                     example_variables unit (MFGaussian.__init__ 2) tt
                     [] ["mu"])
              [1; 1]%Q [1; 1]%Q ["mu"; "sigma"] [[5; 6]]%Q)
    as (params & Hmap & _ & Hre).
  - reflexivity.
  - reflexivity.
  - reflexivity.
  - repeat constructor.
  - exists params. split; [exact Hmap | exact Hre].
Defined.



(** * Part II, continued: the edges of [wake_sleep] *)

Lemma for_each_ext {A S} (xs : list A) (f f' : A -> S -> M S) :
  (forall x acc g, f x acc g = f' x acc g) ->
  forall acc g, for_each xs f acc g = for_each xs f' acc g.
Proof.
  intros Hext. induction xs as [|x xs IH]; intros acc g; [reflexivity|].
  cbn [for_each]. unfold mbind, M_bind. rewrite Hext.
  destruct (f' x acc g) as [[acc'|e] g']; [apply IH | reflexivity].
Qed.

Section WakeSleepEdges.
Context {extra : Type}.
Variable check_and_maybe_build_latent_vars :
  option (list (rv * rv)) -> res (list (rv * rv)).
Variable check_and_maybe_build_data :
  option (list (dkey * dval)) -> res (list (dkey * dval)).
Variable transform : list (rv * rv) -> bool -> res (list (rv * rv) * extra).
Variable check_and_maybe_build_dict :
  option (gmap rv expr) -> res (gmap rv expr).
Variable check_and_maybe_build_var_list :
  option (list var) -> list (rv * rv) -> list (dkey * dval) -> res (list var).
Variable get_descendants : var -> list rv -> list rv.

Local Abbreviation run_wake_sleep :=
  (wake_sleep check_and_maybe_build_latent_vars check_and_maybe_build_data
     transform check_and_maybe_build_dict check_and_maybe_build_var_list
     get_descendants).
Local Abbreviation run_objectives :=
  (objectives check_and_maybe_build_latent_vars check_and_maybe_build_data
     transform check_and_maybe_build_dict check_and_maybe_build_var_list).

Variable latent_vars0 : option (list (rv * rv)).
Variable data0 : option (list (dkey * dval)).
Variable n_samples : Z.
Variable phase_q : string.
Variable auto_transform : bool.
Variable scale0 : option (gmap rv expr).
Variable var_list0 : option (list var).
Variable collections : option (list string).

(** X20.  The arguments are normalised in the order latent variables,
    data, transformation, scale, variable list, before anything is built:
    the error of the first collaborator that rejects its argument is the
    error of [wake_sleep], and the graph is left as it was: no name is
    used, no copy made, no summary written. *)
Theorem wake_sleep_rejected_arguments (e : exn) (g : graph) :
  (check_and_maybe_build_latent_vars latent_vars0 = Raise e ->
   run_wake_sleep latent_vars0 data0 n_samples phase_q auto_transform scale0
                  var_list0 collections g = (Raise e, g))
  /\ (forall lv1,
      check_and_maybe_build_latent_vars latent_vars0 = Ok lv1 ->
      check_and_maybe_build_data data0 = Raise e ->
      run_wake_sleep latent_vars0 data0 n_samples phase_q auto_transform scale0
                     var_list0 collections g = (Raise e, g))
  /\ (forall lv1 data,
      check_and_maybe_build_latent_vars latent_vars0 = Ok lv1 ->
      check_and_maybe_build_data data0 = Ok data ->
      transform lv1 auto_transform = Raise e ->
      run_wake_sleep latent_vars0 data0 n_samples phase_q auto_transform scale0
                     var_list0 collections g = (Raise e, g))
  /\ (forall lv1 data lv x,
      check_and_maybe_build_latent_vars latent_vars0 = Ok lv1 ->
      check_and_maybe_build_data data0 = Ok data ->
      transform lv1 auto_transform = Ok (lv, x) ->
      check_and_maybe_build_dict scale0 = Raise e ->
      run_wake_sleep latent_vars0 data0 n_samples phase_q auto_transform scale0
                     var_list0 collections g = (Raise e, g))
  /\ (forall lv1 data lv x scale,
      check_and_maybe_build_latent_vars latent_vars0 = Ok lv1 ->
      check_and_maybe_build_data data0 = Ok data ->
      transform lv1 auto_transform = Ok (lv, x) ->
      check_and_maybe_build_dict scale0 = Ok scale ->
      check_and_maybe_build_var_list var_list0 lv data = Raise e ->
      run_wake_sleep latent_vars0 data0 n_samples phase_q auto_transform scale0
                     var_list0 collections g = (Raise e, g)).
Proof.
  unfold wake_sleep, objectives, lift, mbind, M_bind.
  split; [by intros ->|].
  split; [by intros lv1 -> ->|].
  split; [by intros lv1 data -> -> ->|].
  split; [by intros lv1 data lv x -> -> -> ->|].
  by intros lv1 data lv x scale -> -> -> -> ->.
Qed.

(** The arguments as the collaborators hand them on. *)
Variable latent_vars1 latent_vars : list (rv * rv).
Variable x : extra.
Variable data : list (dkey * dval).
Variable scale : gmap rv expr.
Variable var_list : list var.
Hypothesis Hlatent :
  check_and_maybe_build_latent_vars latent_vars0 = Ok latent_vars1.
Hypothesis Hdata : check_and_maybe_build_data data0 = Ok data.
Hypothesis Htransform :
  transform latent_vars1 auto_transform = Ok (latent_vars, x).
Hypothesis Hscale : check_and_maybe_build_dict scale0 = Ok scale.
Hypothesis Hvars :
  check_and_maybe_build_var_list var_list0 latent_vars data = Ok var_list.

Local Abbreviation q_vars := (q_vars_of get_descendants latent_vars var_list).
Local Abbreviation p_vars := (p_vars_of q_vars var_list).

(** X21.  With [n_samples] zero or negative the loop over the samples
    never runs: no copy is made and no sample scope asked for, only the
    name [inference] is used; both objectives are minus the mean of an
    empty list plus the regularization penalty, and every variable of
    [var_list] still gets a gradient. *)
Theorem wake_sleep_no_samples (g : graph) :
  n_samples <= 0 ->
  run_wake_sleep latent_vars0 data0 n_samples phase_q auto_transform scale0
                 var_list0 collections g
  = (Ok (loss_of [] (regularization_losses g),
         zip (gradients (loss_of [] (regularization_losses g)) q_vars) q_vars
         ++ zip (gradients (loss_of [] (regularization_losses g)) p_vars)
                p_vars),
     after_no_samples collections g)
  /\ nodes (after_no_samples collections g) = nodes g
  /\ names (after_no_samples collections g) !! "q_sample"
     = names g !! "q_sample"
  /\ (zip (gradients (loss_of [] (regularization_losses g)) q_vars) q_vars
      ++ zip (gradients (loss_of [] (regularization_losses g)) p_vars)
             p_vars).*2 ≡ₚ var_list.
Proof.
  intros Hn.
  split; [|split; [reflexivity|split]].
  - unfold wake_sleep, objectives, lift, mbind, M_bind.
    rewrite Hlatent, Hdata, Htransform, Hscale, Hvars.
    replace (Z.to_nat n_samples) with 0%nat by lia.
    cbn [unique_name seq replicate for_each mret M_ret
         get_regularization_losses use_name regularization_losses].
    unfold after_no_samples, logged.
    destruct collections as [c|];
      unfold summary_scalar, add_summary, use_name, loss_of; cbn.
    + by rewrite <- !app_assoc.
    + by rewrite app_nil_r.
  - cbn. by rewrite lookup_insert_ne.
  - rewrite grads_and_vars_snd. apply vars_permutation.
Qed.

(** X22.  The summaries [wake_sleep] writes: with [collections] given,
    exactly three, appended in the order p, q, penalty, each under the
    collections given, and their tensors are the very means and penalty the
    returned objectives are made of; with [collections] left out, none.
    The registered regularization losses are read, never changed. *)
Theorem wake_sleep_summaries (g : graph) :
  exists ps qs g',
    run_wake_sleep latent_vars0 data0 n_samples phase_q auto_transform scale0
                   var_list0 collections g
    = (Ok (EAdd (ENeg (EReduceMean (EPack ps)))
                (EReduceSum (EPack (regularization_losses g))),
           zip (gradients (loss_of qs (regularization_losses g)) q_vars) q_vars
           ++ zip (gradients (loss_of ps (regularization_losses g)) p_vars)
                  p_vars), g')
    /\ regularization_losses g' = regularization_losses g
    /\ summaries g'
       = summaries g
         ++ match collections with
            | Some c =>
                [ {| s_name := "loss/p_log_prob";
                     s_tensor := EReduceMean (EPack ps);
                     s_collections := c |};
                  {| s_name := "loss/q_log_prob";
                     s_tensor := EReduceMean (EPack qs);
                     s_collections := c |};
                  {| s_name := "loss/reg_penalty";
                     s_tensor := EReduceSum (EPack (regularization_losses g));
                     s_collections := c |} ]
            | None => []
            end.
Proof.
  destruct (objectives_spec _ _ _ _ _ latent_vars0 data0 n_samples phase_q
              auto_transform scale0 var_list0 collections
              latent_vars1 latent_vars x data scale var_list
              Hlatent Hdata Htransform Hscale Hvars g)
    as (ps & qs & g1 & g' & Hobj & _ & _ & _ & Hregs & Hsum).
  exists ps, qs, g'.
  split; [|split; [exact Hregs | exact Hsum]].
  by apply (wake_sleep_unfold _ _ _ _ _ get_descendants) in Hobj.
Qed.
End WakeSleepEdges.

(** ** The copies and the terms of one sample, exactly *)
Lemma wp_and {A} (m : M A) (g : graph) (Q1 Q2 : A -> graph -> Prop) :
  wp m g Q1 -> wp m g Q2 -> wp m g (fun a g' => Q1 a g' /\ Q2 a g').
Proof.
  intros (a1 & g1 & H1 & HQ1) (a2 & g2 & H2 & HQ2).
  rewrite H1 in H2. injection H2 as <- <-. by exists a1, g1.
Qed.

Lemma copied_plain (org : rv) (scope : string) :
  copied {| c_org := org; c_dict_swap := None; c_scope := scope |}
  = (org, false, scope).
Proof. reflexivity. Qed.

Lemma copied_swapped (scope : string) (d : gmap rv expr) (k : rv) :
  copied (swapped_node scope d k) = (k, true, scope).
Proof. reflexivity. Qed.

Section LoopsExactly.
Variable scope : string.
Variable s : nat.
Variable scale : gmap rv expr.

(** Lines 85-91: one copy for each observed random variable that is bound
    to a random variable. *)
Lemma swap_data_copies (data : list (dkey * dval)) (d : gmap rv expr)
    (g : graph) :
  wp (swap_data scope data d) g (fun d' g' =>
    exists new,
      nodes g' = nodes g ++ new
      /\ copied <$> new = (fun qx => (qx, false, scope)) <$> observed_rvs data).
Proof.
  unfold swap_data. revert d g.
  induction data as [|[x qx] data IH]; intros d g.
  { apply wp_ret. exists []. by rewrite app_nil_r. }
  cbn [for_each]. apply wp_bind.
  destruct x as [x|n]; [destruct qx as [qx|e]|].
  - apply wp_bind, wp_copy, wp_ret.
    eapply wp_mono; [apply IH|]. cbn beta.
    intros d' g' (new & Hn & Hnew).
    exists ({| c_org := qx; c_dict_swap := None; c_scope := scope |} :: new).
    split; [rewrite Hn; cbn; by rewrite <- app_assoc|].
    cbn [observed_rvs omap list_omap fmap list_fmap].
    rewrite copied_plain. f_equal. exact Hnew.
  - apply wp_ret. apply IH.
  - apply wp_ret. apply IH.
Qed.

(** Lines 105-108: one term for each latent variable, scaled by the
    multiplier of that variable. *)
Lemma score_latent_scaled (lv : list (rv * rv)) (d : gmap rv expr)
    (pl : list expr) (x : expr) (g : graph) :
  pl !! s = Some x ->
  (forall z, z ∈ lv.*1 -> is_Some (d !! z)) ->
  wp (score_latent scope s scale d lv pl) g (fun pl' g' =>
    exists ts, pl' = <[s := fold_left EAdd ts x]> pl
               /\ Forall2 (scaled_by scale) (lv.*1) ts).
Proof.
  unfold score_latent. generalize (lv.*1). clear lv. intros zs.
  revert pl x g. induction zs as [|z zs IH]; intros pl x g Hs Hd.
  { apply wp_ret. exists []. cbn. by rewrite list_insert_id. }
  cbn [for_each]. apply wp_bind, wp_bind, wp_copy.
  destruct (Hd z) as [v Hv]; [left|].
  eapply wp_list_iadd; [exact Hs|].
  apply wp_bind. eapply wp_dict_get; [exact Hv|]. apply wp_ret.
  eapply wp_mono.
  { eapply IH; [by apply list_lookup_insert_eq, (lookup_lt_Some _ _ _ Hs)|].
    intros z' Hz'. apply Hd. by right. }
  cbn beta. intros pl' g' (ts & Hpl & Hts).
  eexists (_ :: ts). split.
  - rewrite Hpl, list_insert_insert_eq. reflexivity.
  - constructor; [|done]. by eexists _, _.
Qed.

(** Lines 110-114: one term for each observed random variable, scaled by
    the multiplier of that variable. *)
Lemma score_data_scaled (data : list (dkey * dval)) (d : gmap rv expr)
    (pl : list expr) (x : expr) (g : graph) :
  pl !! s = Some x ->
  (forall k, k ∈ rv_keys data -> is_Some (d !! k)) ->
  wp (score_data scope s scale d data pl) g (fun pl' g' =>
    exists ts, pl' = <[s := fold_left EAdd ts x]> pl
               /\ Forall2 (scaled_by scale) (rv_keys data) ts).
Proof.
  unfold score_data, rv_keys. generalize (data.*1). clear data. intros ks.
  revert pl x g. induction ks as [|k ks IH]; intros pl x g Hs Hd.
  { apply wp_ret. exists []. cbn. by rewrite list_insert_id. }
  cbn [for_each]. apply wp_bind. destruct k as [k|n]; cbn [omap list_omap] in *.
  - apply wp_bind, wp_copy.
    destruct (Hd k) as [v Hv]; [left|].
    eapply wp_list_iadd; [exact Hs|].
    apply wp_bind. eapply wp_dict_get; [exact Hv|]. apply wp_ret.
    eapply wp_mono.
    { eapply IH; [by apply list_lookup_insert_eq, (lookup_lt_Some _ _ _ Hs)|].
      intros k' Hk'. apply Hd. by right. }
    cbn beta. intros pl' g' (ts & Hpl & Hts).
    eexists (_ :: ts). split.
    + rewrite Hpl, list_insert_insert_eq. reflexivity.
    + constructor; [|done]. by eexists _, _.
  - apply wp_ret. by apply IH.
Qed.

(** Lines 124-128 return whatever [z] is, when there is no [qz]. *)
Lemma score_q_returns (lv : list (rv * rv)) (d : gmap rv expr)
    (ql : list expr) (y : expr) (g : graph) :
  ql !! s = Some y ->
  (forall qz, qz ∈ lv.*2 -> is_Some (d !! qz)) ->
  wp (score_q scope s scale d (last (lv.*1)) lv ql) g (fun ql' g' =>
    nodes g' = nodes g ++ (swapped_node scope d <$> lv.*2)
    /\ same_rest g g'
    /\ length ql' = length ql).
Proof.
  intros Hs Hd. destruct (last (lv.*1)) as [z|] eqn:Hlast.
  - eapply wp_mono; [by apply score_q_spec with (y := y)|]. cbn beta.
    intros ql' g' (Hn & Hr & ts & -> & _).
    split; [done|]. split; [done|]. by rewrite length_insert.
  - apply last_None, fmap_nil_inv in Hlast. subst lv.
    apply wp_ret. cbn. rewrite app_nil_r.
    split; [done|]. split; [apply same_rest_refl | done].
Qed.
End LoopsExactly.

Section StepExactly.
Variable base_scope : string.
Variable phase_q : string.
Variable scale : gmap rv expr.
Variable latent_vars : list (rv * rv).
Variable data : list (dkey * dval).

(** Lines 81-128: the copies made for one sample, and the terms of its sum
    for [p]. *)
Lemma sample_step_exact (s : nat) (pl ql : list expr) (x y : expr)
    (g : graph) :
  pl !! s = Some x -> ql !! s = Some y ->
  wp (sample_step base_scope phase_q scale latent_vars data s (pl, ql)) g
     (fun r g' =>
        exists new pts,
          nodes g' = nodes g ++ new
          /\ copied <$> new
             = step_copies
                 (base_scope
                  +:+ issued "q_sample" (default 0%nat (names g !! "q_sample")))
                 (base_scope
                  +:+ issued "p_sample" (default 0%nat (names g !! "p_sample")))
                 phase_q latent_vars data
          /\ default 0%nat (names g' !! "q_sample")
             = S (default 0%nat (names g !! "q_sample"))
          /\ default 0%nat (names g' !! "p_sample")
             = (if decide (phase_q = "sleep")
                then S (default 0%nat (names g !! "p_sample"))
                else default 0%nat (names g !! "p_sample"))
          /\ names g' !! "inference" = names g !! "inference"
          /\ r.1 = <[s := fold_left EAdd pts x]> pl
          /\ length r.2 = length ql
          /\ Forall2 (scaled_by scale) (latent_vars.*1 ++ rv_keys data) pts).
Proof.
  intros Hp Hq. unfold sample_step.
  apply wp_bind, wp_unique_name.
  set (kq := default 0%nat (names g !! "q_sample")).
  set (kp := default 0%nat (names g !! "p_sample")).
  set (scope := base_scope +:+ issued "q_sample" kq).
  set (g1 := use_name "q_sample" g).
  apply wp_bind.
  eapply wp_mono; [apply wp_and; [apply swap_data_spec
                                 | apply swap_data_copies]|]. cbn beta.
  intros d0 g2 [(new1 & Hn2 & Hr2 & _ & _ & Hd0keys & _)
                (new1' & Hn2' & Hcopied1)].
  assert (new1' = new1) as -> by (rewrite Hn2 in Hn2'; by apply app_inv_head in Hn2').
  apply wp_bind. eapply wp_mono; [apply sample_q_spec; exact Hq|]. cbn beta.
  intros [qd ql1] g3 (Hn3 & Hr3 & Hql1 & Hqd_old & Hqd_keys & _).
  cbn [fst snd] in *.
  assert (Hlen1 : length ql1 = length ql) by (by rewrite Hql1, length_insert).
  apply wp_bind.
  eapply wp_mono; [apply wp_and;
                   [by apply score_latent_spec with (x := x)
                   | by apply score_latent_scaled with (x := x)]|]. cbn beta.
  intros pl1 g4 [(Hn4 & Hr4 & _) (ts1 & Hpl1 & Hts1)].
  assert (Hs : (s < length pl)%nat) by (by eapply lookup_lt_Some).
  assert (Hkeys : forall key, key ∈ rv_keys data -> is_Some (qd !! key))
    by (intros key Hkey; by apply Hqd_old, Hd0keys).
  assert (Hpl1s : pl1 !! s = Some (fold_left EAdd ts1 x))
    by (rewrite Hpl1; by apply list_lookup_insert_eq).
  apply wp_bind.
  eapply wp_mono; [apply wp_and;
                   [by apply score_data_spec with (x := fold_left EAdd ts1 x)
                   | by apply score_data_scaled
                          with (x := fold_left EAdd ts1 x)]|]. cbn beta.
  intros pl2 g5 [(Hn5 & Hr5 & _) (ts2 & Hpl2 & Hts2)].
  assert (Hpl : pl2 = <[s := fold_left EAdd (ts1 ++ ts2) x]> pl).
  { by rewrite Hpl2, Hpl1, list_insert_insert_eq, fold_left_EAdd_app. }
  assert (Hnodes5 : nodes g5
                    = nodes g ++ new1 ++ (q_node scope <$> latent_vars)
                        ++ (swapped_node scope qd <$> latent_vars.*1)
                        ++ (swapped_node scope qd <$> rv_keys data)).
  { rewrite Hn5, Hn4, Hn3, Hn2. unfold g1. cbn. by rewrite <- !app_assoc. }
  assert (Hcopied5 :
            copied <$> (new1 ++ (q_node scope <$> latent_vars)
                        ++ (swapped_node scope qd <$> latent_vars.*1)
                        ++ (swapped_node scope qd <$> rv_keys data))
            = ((fun qx => (qx, false, scope)) <$> observed_rvs data)
              ++ ((fun qz => (qz, false, scope)) <$> latent_vars.*2)
              ++ ((fun z => (z, true, scope)) <$> latent_vars.*1)
              ++ ((fun k => (k, true, scope)) <$> rv_keys data)).
  { rewrite !fmap_app, Hcopied1, <- !list_fmap_compose. reflexivity. }
  assert (Hrest5 : same_rest g1 g5) by eauto using same_rest_trans.
  destruct Hrest5 as (Hnames5 & _ & _).
  assert (Hq5 : default 0%nat (names g5 !! "q_sample") = S kq).
  { rewrite Hnames5. unfold g1. cbn. by rewrite lookup_insert_eq. }
  assert (Hp5 : names g5 !! "p_sample" = names g !! "p_sample").
  { rewrite Hnames5. unfold g1. cbn. by rewrite lookup_insert_ne. }
  assert (Hi5 : names g5 !! "inference" = names g !! "inference").
  { rewrite Hnames5. unfold g1. cbn. by rewrite lookup_insert_ne. }
  unfold step_copies. fold kq kp scope.
  destruct (decide (phase_q = "sleep")) as [Hsleep|Hwake].
  - (* the sleep sub-phase *)
    apply wp_bind, wp_unique_name. rewrite Hp5. fold kp.
    set (scope' := base_scope +:+ issued "p_sample" kp).
    apply wp_bind. eapply wp_mono; [apply sample_p_spec|]. cbn beta.
    intros pd g7 (Hn7 & Hr7 & _ & Hpd_keys).
    apply wp_bind.
    eapply wp_mono.
    { apply score_q_returns with (y := y); [|done].
      rewrite Hql1. rewrite decide_False by (intros Hne; by apply Hne).
      cbn. by rewrite list_insert_id. }
    cbn beta. intros ql2 g8 (Hn8 & Hr8 & Hlen2).
    apply wp_ret. cbn [fst snd].
    assert (Hnames8 : names g8 = names (use_name "p_sample" g5)).
    { destruct Hr8 as (-> & _). by destruct Hr7 as (-> & _). }
    eexists _, (ts1 ++ ts2).
    split; [rewrite Hn8, Hn7; cbn; rewrite Hnodes5;
            rewrite <- !app_assoc; reflexivity|].
    split.
    { rewrite !app_assoc. rewrite fmap_app, fmap_app.
      rewrite <- !app_assoc. rewrite Hcopied5.
      rewrite <- !app_assoc. do 4 f_equal.
      rewrite <- !list_fmap_compose. reflexivity. }
    split; [rewrite Hnames8; cbn; rewrite lookup_insert_ne by done;
            exact Hq5|].
    split; [rewrite Hnames8; cbn; rewrite lookup_insert_eq; cbn;
            by rewrite Hp5|].
    split; [rewrite Hnames8; cbn; by rewrite lookup_insert_ne|].
    split; [done|]. split; [lia|].
    by apply Forall2_app.
  - (* no sleep sub-phase *)
    apply wp_ret. cbn [fst snd].
    eexists _, (ts1 ++ ts2).
    split; [exact Hnodes5|].
    split; [rewrite Hcopied5; by rewrite !app_nil_r|].
    split; [exact Hq5|]. split; [by rewrite Hp5|]. split; [exact Hi5|].
    split; [done|]. split; [done|].
    by apply Forall2_app.
Qed.
End StepExactly.

(** ** The loop over the samples, exactly *)
Lemma step_copies_wake (scope_q scope_p scope_p' phase_q : string)
    (latent_vars : list (rv * rv)) (data : list (dkey * dval)) :
  phase_q ≠ "sleep" ->
  step_copies scope_q scope_p phase_q latent_vars data
  = step_copies scope_q scope_p' phase_q latent_vars data.
Proof. intros Hwake. unfold step_copies. by rewrite !decide_False. Qed.

Lemma all_copies_S (base_scope : string) (kq kp : nat) (phase_q : string)
    (latent_vars : list (rv * rv)) (data : list (dkey * dval)) (n : nat) :
  all_copies base_scope kq kp phase_q latent_vars data (S n)
  = step_copies (base_scope +:+ issued "q_sample" kq)
                (base_scope +:+ issued "p_sample" kp)
                phase_q latent_vars data
    ++ all_copies base_scope (S kq)
         (if decide (phase_q = "sleep") then S kp else kp)
         phase_q latent_vars data n.
Proof.
  unfold all_copies. cbn [seq fmap list_fmap mjoin list_join].
  rewrite !Nat.add_0_r. f_equal.
  rewrite <- seq_shift, <- list_fmap_compose. f_equal.
  apply list_fmap_ext. intros _ j _. unfold compose.
  replace (kq + S j)%nat with (S kq + j)%nat by lia.
  destruct (decide (phase_q = "sleep")) as [Hsleep|Hwake].
  - by replace (kp + S j)%nat with (S kp + j)%nat by lia.
  - by apply step_copies_wake.
Qed.

Lemma step_copies_length (scope_q scope_p phase_q : string)
    (latent_vars : list (rv * rv)) (data : list (dkey * dval)) :
  length (step_copies scope_q scope_p phase_q latent_vars data)
  = (length (observed_rvs data) + length (rv_keys data)
     + (if decide (phase_q = "sleep") then 4 else 2) * length latent_vars)%nat.
Proof.
  unfold step_copies.
  destruct (decide (phase_q = "sleep"));
    rewrite ?length_app, ?length_fmap, ?length_nil; lia.
Qed.

Lemma all_copies_length (base_scope : string) (kq kp : nat) (phase_q : string)
    (latent_vars : list (rv * rv)) (data : list (dkey * dval)) (n : nat) :
  length (all_copies base_scope kq kp phase_q latent_vars data n)
  = (n * (length (observed_rvs data) + length (rv_keys data)
          + (if decide (phase_q = "sleep") then 4 else 2)
            * length latent_vars))%nat.
Proof.
  revert kq kp. induction n as [|n IH]; intros kq kp; [reflexivity|].
  rewrite all_copies_S, length_app, IH, step_copies_length. lia.
Qed.

Section SamplesExactly.
Variable base_scope : string.
Variable phase_q : string.
Variable scale : gmap rv expr.
Variable latent_vars : list (rv * rv).
Variable data : list (dkey * dval).

Lemma samples_exact (m k : nat) (pl ql : list expr) (g : graph) :
  length pl = (k + m)%nat -> length ql = (k + m)%nat ->
  (forall s, (k <= s < k + m)%nat -> pl !! s = Some (EFloat 0)) ->
  wp (for_each (seq k m)
               (sample_step base_scope phase_q scale latent_vars data)
               (pl, ql)) g
     (fun r g' =>
        exists new,
          nodes g' = nodes g ++ new
          /\ copied <$> new
             = all_copies base_scope
                 (default 0%nat (names g !! "q_sample"))
                 (default 0%nat (names g !! "p_sample"))
                 phase_q latent_vars data m
          /\ names g' !! "inference" = names g !! "inference"
          /\ length r.1 = (k + m)%nat /\ length r.2 = (k + m)%nat
          /\ (forall s, (s < k)%nat -> r.1 !! s = pl !! s)
          /\ (forall s, (k <= s < k + m)%nat ->
                exists ts,
                  r.1 !! s = Some (sum_of ts)
                  /\ Forall2 (scaled_by scale)
                             (latent_vars.*1 ++ rv_keys data) ts)).
Proof.
  revert k pl ql g. induction m as [|m IH]; intros k pl ql g Hpl Hql Hzero.
  { apply wp_ret. exists []. cbn [fst snd]. rewrite app_nil_r.
    split; [done|]. split; [done|]. split; [done|].
    split; [done|]. split; [done|]. split; [done|]. intros s Hs. lia. }
  cbn [seq for_each]. apply wp_bind.
  destruct (lookup_lt_is_Some_2 ql k) as [y Hy]; [lia|].
  eapply wp_mono.
  { apply sample_step_exact with (x := EFloat 0) (y := y);
      [apply Hzero; lia | exact Hy]. }
  cbn beta.
  intros [pl1 ql1] g1
         (new1 & pts & Hn1 & Hc1 & Hq1 & Hp1 & Hi1 & Hpl1 & Hql1 & Hpts).
  cbn [fst snd] in *.
  eapply wp_mono.
  { apply (IH (S k) pl1 ql1 g1).
    - rewrite Hpl1, length_insert. lia.
    - lia.
    - intros s Hs. rewrite Hpl1, list_lookup_insert_ne by lia.
      apply Hzero. lia. }
  cbn beta.
  intros [pl2 ql2] g2 (new2 & Hn2 & Hc2 & Hi2 & Hlp & Hlq & Hbelow & Hfrom).
  cbn [fst snd] in *.
  exists (new1 ++ new2).
  split; [rewrite Hn2, Hn1; by rewrite <- app_assoc|].
  split.
  { rewrite fmap_app, Hc1, Hc2, Hq1, Hp1. symmetry. apply all_copies_S. }
  split; [by rewrite Hi2|].
  split; [lia|]. split; [lia|].
  split.
  { intros s Hs. rewrite Hbelow by lia.
    rewrite Hpl1. apply list_lookup_insert_ne. lia. }
  intros s Hs. destruct (decide (s = k)) as [->|Hne].
  - exists pts. split; [|done].
    rewrite Hbelow by lia. rewrite Hpl1.
    apply list_lookup_insert_eq. lia.
  - apply Hfrom. lia.
Qed.
End SamplesExactly.

(** ** The names [unique_name] hands out *)
Lemma issued_inj (name : string) (k k' : nat) :
  issued name k = issued name k' -> k = k'.
Proof.
  unfold issued. intros Heq.
  destruct (decide (k = 0%nat)) as [->|Hk], (decide (k' = 0%nat)) as [->|Hk'].
  - reflexivity.
  - rewrite <- (append_empty name) in Heq at 1.
    apply (inj (String.append name)) in Heq. discriminate.
  - rewrite <- (append_empty name) in Heq at 2.
    apply (inj (String.append name)) in Heq. discriminate.
  - apply (inj (String.append name)) in Heq.
    apply (inj (String.append "_")) in Heq.
    by apply (inj pretty) in Heq.
Qed.

(** ** Keys of the data that are no random variables *)
Section OtherKeys.
Variable scope : string.

Lemma swap_data_observed (data : list (dkey * dval)) (d : gmap rv expr)
    (g : graph) :
  swap_data scope data d g = swap_data scope (observed data) d g.
Proof.
  unfold swap_data, observed. revert d g.
  induction data as [|[x qx] data IH]; intros d g; [reflexivity|].
  rewrite filter_cons. destruct x as [x|n]; cbn [fst is_rv_key].
  - rewrite decide_True by exact I.
    cbn [for_each]. unfold mbind, M_bind.
    destruct qx as [qx|e]; cbn; apply IH.
  - rewrite decide_False by (intros []).
    cbn [for_each]. unfold mbind, M_bind. cbn. apply IH.
Qed.

Lemma score_data_observed (s : nat) (scale d : gmap rv expr)
    (data : list (dkey * dval)) (pl : list expr) (g : graph) :
  score_data scope s scale d data pl g
  = score_data scope s scale d (observed data) pl g.
Proof.
  unfold score_data, observed. revert pl g.
  induction data as [|[x qx] data IH]; intros pl g; [reflexivity|].
  rewrite filter_cons. destruct x as [x|n]; cbn [fst is_rv_key].
  - rewrite decide_True by exact I.
    cbn [fmap list_fmap fst for_each]. unfold mbind, M_bind. cbn [copy].
    destruct (list_iadd _ _ _ _) as [[pl'|e] g']; [apply IH | reflexivity].
  - rewrite decide_False by (intros []).
    cbn [fmap list_fmap fst for_each]. unfold mbind, M_bind. cbn. apply IH.
Qed.
End OtherKeys.

Lemma sample_step_observed (base_scope phase_q : string)
    (scale : gmap rv expr) (latent_vars : list (rv * rv))
    (data : list (dkey * dval)) (s : nat) (acc : list expr * list expr)
    (g : graph) :
  sample_step base_scope phase_q scale latent_vars data s acc g
  = sample_step base_scope phase_q scale latent_vars (observed data) s acc g.
Proof.
  destruct acc as [pl ql]. unfold sample_step, mbind, M_bind.
  cbn [unique_name].
  rewrite swap_data_observed.
  destruct (swap_data _ (observed data) _ _) as [[d|e] g1]; [|reflexivity].
  destruct (sample_q _ _ _ _ _ _ _) as [[[qd ql1]|e] g2]; [|reflexivity].
  destruct (score_latent _ _ _ _ _ _ _) as [[pl1|e] g3]; [|reflexivity].
  by rewrite score_data_observed.
Qed.

(** ** No latent variables *)
Section NoLatent.
Variable base_scope : string.
Variable phase_q : string.
Variable scale : gmap rv expr.
Variable data : list (dkey * dval).

Lemma sample_step_no_latent (s : nat) (pl ql : list expr) (g : graph) :
  (s < length pl)%nat ->
  wp (sample_step base_scope phase_q scale [] data s (pl, ql)) g
     (fun r g' => r.2 = ql /\ length r.1 = length pl).
Proof.
  intros Hs. destruct (lookup_lt_is_Some_2 pl s Hs) as [x Hx].
  unfold sample_step.
  apply wp_bind, wp_unique_name.
  apply wp_bind. eapply wp_mono; [apply swap_data_spec|]. cbn beta.
  intros d g1 (new & _ & _ & _ & _ & Hkeys & _).
  apply wp_bind, wp_ret. apply wp_bind, wp_ret.
  apply wp_bind.
  eapply wp_mono; [by apply score_data_spec with (x := x)|]. cbn beta.
  intros pl1 g2 (_ & _ & ts & -> & _).
  destruct (decide (phase_q = "sleep")).
  - apply wp_bind, wp_unique_name. apply wp_bind, wp_ret.
    apply wp_bind, wp_ret. apply wp_ret. cbn [fst snd].
    by rewrite length_insert.
  - apply wp_ret. cbn [fst snd]. by rewrite length_insert.
Qed.

Lemma samples_no_latent (m k : nat) (pl ql : list expr) (g : graph) :
  (k + m <= length pl)%nat ->
  wp (for_each (seq k m) (sample_step base_scope phase_q scale [] data)
               (pl, ql)) g
     (fun r g' => r.2 = ql).
Proof.
  revert k pl g. induction m as [|m IH]; intros k pl g Hlen.
  { by apply wp_ret. }
  cbn [seq for_each]. apply wp_bind.
  eapply wp_mono; [apply sample_step_no_latent; lia|]. cbn beta.
  intros [pl1 ql1] g1 [Hql Hpl]. cbn [fst snd] in *. subst ql1.
  apply IH. lia.
Qed.
End NoLatent.

(** ** [wake_sleep], exactly *)
Section WakeSleepExactly.
Context {extra : Type}.
Variable check_and_maybe_build_latent_vars :
  option (list (rv * rv)) -> res (list (rv * rv)).
Variable check_and_maybe_build_data :
  option (list (dkey * dval)) -> res (list (dkey * dval)).
Variable transform : list (rv * rv) -> bool -> res (list (rv * rv) * extra).
Variable check_and_maybe_build_dict :
  option (gmap rv expr) -> res (gmap rv expr).
Variable check_and_maybe_build_var_list :
  option (list var) -> list (rv * rv) -> list (dkey * dval) -> res (list var).
Variable get_descendants : var -> list rv -> list rv.

Local Abbreviation run_wake_sleep :=
  (wake_sleep check_and_maybe_build_latent_vars check_and_maybe_build_data
     transform check_and_maybe_build_dict check_and_maybe_build_var_list
     get_descendants).
Local Abbreviation run_objectives :=
  (objectives check_and_maybe_build_latent_vars check_and_maybe_build_data
     transform check_and_maybe_build_dict check_and_maybe_build_var_list).

Variable latent_vars0 : option (list (rv * rv)).
Variable data0 : option (list (dkey * dval)).
Variable n_samples : Z.
Variable phase_q : string.
Variable auto_transform : bool.
Variable scale0 : option (gmap rv expr).
Variable var_list0 : option (list var).
Variable collections : option (list string).

Variable latent_vars1 latent_vars : list (rv * rv).
Variable x : extra.
Variable data : list (dkey * dval).
Variable scale : gmap rv expr.
Variable var_list : list var.
Hypothesis Hlatent :
  check_and_maybe_build_latent_vars latent_vars0 = Ok latent_vars1.
Hypothesis Hdata : check_and_maybe_build_data data0 = Ok data.
Hypothesis Htransform :
  transform latent_vars1 auto_transform = Ok (latent_vars, x).
Hypothesis Hscale : check_and_maybe_build_dict scale0 = Ok scale.
Hypothesis Hvars :
  check_and_maybe_build_var_list var_list0 latent_vars data = Ok var_list.

Local Abbreviation q_vars := (q_vars_of get_descendants latent_vars var_list).
Local Abbreviation p_vars := (p_vars_of q_vars var_list).

(** Whatever the loop over the samples establishes holds of the lists the
    objectives are made of. *)
Lemma objectives_with (Q : list expr * list expr -> graph -> Prop)
    (g : graph) :
  wp (for_each (seq 0 (Z.to_nat n_samples))
               (sample_step (base_scope_of g) phase_q scale latent_vars data)
               (replicate (Z.to_nat n_samples) (EFloat 0),
                replicate (Z.to_nat n_samples) (EFloat 0)))
     (use_name "inference" g) Q ->
  exists ps qs g1 g',
    run_objectives latent_vars0 data0 n_samples phase_q auto_transform scale0
                   var_list0 collections g
    = (Ok (latent_vars, var_list,
           loss_of ps (regularization_losses g),
           loss_of qs (regularization_losses g)), g')
    /\ Q (ps, qs) g1
    /\ nodes g' = nodes g1 /\ names g' = names g1.
Proof.
  intros HQ.
  destruct (wp_and _ _ _ _ HQ
              (samples_spec (base_scope_of g) phase_q scale latent_vars data
                 (Z.to_nat n_samples) (use_name "inference" g)))
    as ([ps qs] & g1 & Hrun & HQ' & Hbuilt).
  destruct Hbuilt as (new & _ & Hregs & _).
  cbn [use_name regularization_losses] in Hregs.
  exists ps, qs, g1.
  unfold objectives, lift, mbind, M_bind.
  rewrite Hlatent, Hdata, Htransform, Hscale, Hvars.
  cbn [unique_name]. fold (base_scope_of g). rewrite Hrun.
  unfold get_regularization_losses. rewrite Hregs.
  destruct collections as [c|]; cbn; eexists; by split.
Qed.

(** X23.  The copies [wake_sleep] makes are, sample after sample and in
    this order: under the scope of the q-sample the observed random
    variables bound to random variables, every [qz], every [z] under the
    substitutions and every observed random variable under the
    substitutions; in the sleep phase, under the scope of the p-sample,
    every [z] and every [qz] under the substitutions.  That is
    [n_samples * (o + x + 2 * l)] copies, [4 * l] in the sleep phase, and no
    two samples share a scope. *)
Theorem wake_sleep_copies (g : graph) :
  exists loss_p grads_and_vars g' new,
    run_wake_sleep latent_vars0 data0 n_samples phase_q auto_transform scale0
                   var_list0 collections g
    = (Ok (loss_p, grads_and_vars), g')
    /\ nodes g' = nodes g ++ new
    /\ copied <$> new
       = all_copies (base_scope_of g)
           (default 0%nat (names g !! "q_sample"))
           (default 0%nat (names g !! "p_sample"))
           phase_q latent_vars data (Z.to_nat n_samples)
    /\ length new
       = (Z.to_nat n_samples
          * (length (observed_rvs data) + length (rv_keys data)
             + (if decide (phase_q = "sleep") then 4 else 2)
               * length latent_vars))%nat
    /\ (forall (name : string) (k s s' : nat),
          base_scope_of g +:+ issued name (k + s)
          = base_scope_of g +:+ issued name (k + s') -> s = s').
Proof.
  destruct (objectives_with _ g
              (samples_exact (base_scope_of g) phase_q scale latent_vars data
                 (Z.to_nat n_samples) 0
                 (replicate (Z.to_nat n_samples) (EFloat 0))
                 (replicate (Z.to_nat n_samples) (EFloat 0))
                 (use_name "inference" g)
                 (length_replicate _ _) (length_replicate _ _)
                 (fun s Hs => lookup_replicate_2 _ _ _ (proj2 Hs))))
    as (ps & qs & g1 & g' & Hobj & (new & Hn & Hc & _) & Hnodes & _).
  cbn [use_name names nodes] in Hn, Hc.
  rewrite !lookup_insert_ne in Hc by done.
  apply (wake_sleep_unfold _ _ _ _ _ get_descendants) in Hobj.
  eexists _, _, g', new. split; [exact Hobj|].
  split; [by rewrite Hnodes|]. split; [exact Hc|].
  split.
  - rewrite <- (length_fmap copied), Hc. apply all_copies_length.
  - intros name k s s' Heq.
    apply (inj (String.append (base_scope_of g))), issued_inj in Heq. lia.
Qed.

(** X24.  In the sum for [p] of every sample, the term of each latent
    variable and of each observed random variable is scaled by the
    multiplier of that very variable: the terms are, in order, those of
    the keys of [latent_vars] and then those of the random variables among
    the keys of [data], in both phases. *)
Theorem wake_sleep_p_terms_scaled (g : graph) :
  exists ps grads_and_vars g',
    run_wake_sleep latent_vars0 data0 n_samples phase_q auto_transform scale0
                   var_list0 collections g
    = (Ok (loss_of ps (regularization_losses g), grads_and_vars), g')
    /\ length ps = Z.to_nat n_samples
    /\ Forall (fun e => exists ts,
                 e = sum_of ts
                 /\ Forall2 (scaled_by scale)
                            (latent_vars.*1 ++ rv_keys data) ts) ps.
Proof.
  destruct (objectives_with _ g
              (samples_exact (base_scope_of g) phase_q scale latent_vars data
                 (Z.to_nat n_samples) 0
                 (replicate (Z.to_nat n_samples) (EFloat 0))
                 (replicate (Z.to_nat n_samples) (EFloat 0))
                 (use_name "inference" g)
                 (length_replicate _ _) (length_replicate _ _)
                 (fun s Hs => lookup_replicate_2 _ _ _ (proj2 Hs))))
    as (ps & qs & g1 & g' & Hobj
        & (new & _ & _ & _ & Hlen & _ & _ & Hterms) & _).
  cbn [fst snd] in Hlen, Hterms.
  apply (wake_sleep_unfold _ _ _ _ _ get_descendants) in Hobj.
  eexists ps, _, g'. split; [exact Hobj|]. split; [exact Hlen|].
  apply Forall_lookup_2. intros s e He.
  destruct (Hterms s) as (ts & Hs & Hts).
  { apply lookup_lt_Some in He. lia. }
  exists ts. split; [congruence | done].
Qed.

(** X25.  Keys of [data] that are no random variables (placeholders) are
    skipped by both loops over the data: the call is the call on the data
    without them, result and graph, provided the variable list does not
    depend on them. *)
Theorem wake_sleep_ignores_other_keys (data0' : option (list (dkey * dval)))
    (g : graph) :
  check_and_maybe_build_data data0' = Ok (observed data) ->
  check_and_maybe_build_var_list var_list0 latent_vars (observed data)
  = Ok var_list ->
  run_wake_sleep latent_vars0 data0 n_samples phase_q auto_transform scale0
                 var_list0 collections g
  = run_wake_sleep latent_vars0 data0' n_samples phase_q auto_transform scale0
                   var_list0 collections g.
Proof.
  intros Hdata' Hvars'.
  unfold wake_sleep, objectives, lift, mbind, M_bind.
  rewrite Hlatent, Hdata, Hdata', Htransform, Hscale, Hvars, Hvars'.
  cbn [unique_name].
  by rewrite (for_each_ext _ _ _
                (sample_step_observed _ phase_q scale latent_vars data)).
Qed.
End WakeSleepExactly.

(** ** No latent variables, the whole call *)
Lemma q_vars_none (get_descendants : var -> list rv -> list rv)
    (var_list : list var) :
  (forall v, get_descendants v [] = []) ->
  q_vars_of get_descendants [] var_list = [].
Proof.
  intros Hnone. unfold q_vars_of. cbn [fmap list_fmap].
  induction var_list as [|v vl IH]; [reflexivity|].
  rewrite filter_cons, decide_False; [exact IH|].
  rewrite Hnone. intros Hne. by apply Hne.
Qed.

Lemma p_vars_all (var_list : list var) : p_vars_of [] var_list = var_list.
Proof.
  unfold p_vars_of. induction var_list as [|v vl IH]; [reflexivity|].
  rewrite filter_cons, decide_True by apply not_elem_of_nil.
  by rewrite IH.
Qed.

Lemma zip_gradients (loss : expr) (var_list : list var) :
  zip (gradients loss var_list) var_list
  = (fun v => (Grad loss v, v)) <$> var_list.
Proof.
  unfold gradients. induction var_list as [|v vl IH]; [reflexivity|].
  cbn. f_equal. apply IH.
Qed.

Section WakeSleepNoLatent.
Context {extra : Type}.
Variable check_and_maybe_build_latent_vars :
  option (list (rv * rv)) -> res (list (rv * rv)).
Variable check_and_maybe_build_data :
  option (list (dkey * dval)) -> res (list (dkey * dval)).
Variable transform : list (rv * rv) -> bool -> res (list (rv * rv) * extra).
Variable check_and_maybe_build_dict :
  option (gmap rv expr) -> res (gmap rv expr).
Variable check_and_maybe_build_var_list :
  option (list var) -> list (rv * rv) -> list (dkey * dval) -> res (list var).
Variable get_descendants : var -> list rv -> list rv.

Variable latent_vars0 : option (list (rv * rv)).
Variable data0 : option (list (dkey * dval)).
Variable n_samples : Z.
Variable phase_q : string.
Variable auto_transform : bool.
Variable scale0 : option (gmap rv expr).
Variable var_list0 : option (list var).
Variable collections : option (list string).

Variable latent_vars1 : list (rv * rv).
Variable x : extra.
Variable data : list (dkey * dval).
Variable scale : gmap rv expr.
Variable var_list : list var.
Hypothesis Hlatent :
  check_and_maybe_build_latent_vars latent_vars0 = Ok latent_vars1.
Hypothesis Hdata : check_and_maybe_build_data data0 = Ok data.
Hypothesis Htransform : transform latent_vars1 auto_transform = Ok ([], x).
Hypothesis Hscale : check_and_maybe_build_dict scale0 = Ok scale.
Hypothesis Hvars :
  check_and_maybe_build_var_list var_list0 [] data = Ok var_list.

(** X26.  With no latent variables left after the transformation, in
    either phase: the call returns (the sleep phase never reads the [z] no
    loop has bound), the sum for [q] of every sample stays [0.0], and, when
    nothing descends from an empty list of random variables, no variable
    gets the gradient of [loss_q]: the result pairs every variable of
    [var_list], in order, with the gradient of [loss_p]. *)
Theorem wake_sleep_no_latent_vars (g : graph) :
  (forall v, get_descendants v [] = []) ->
  exists ps g',
    objectives check_and_maybe_build_latent_vars check_and_maybe_build_data
      transform check_and_maybe_build_dict check_and_maybe_build_var_list
      latent_vars0 data0 n_samples phase_q auto_transform scale0 var_list0
      collections g
    = (Ok ([], var_list, loss_of ps (regularization_losses g),
           loss_of (replicate (Z.to_nat n_samples) (EFloat 0))
                   (regularization_losses g)), g')
    /\ wake_sleep check_and_maybe_build_latent_vars check_and_maybe_build_data
         transform check_and_maybe_build_dict check_and_maybe_build_var_list
         get_descendants
         latent_vars0 data0 n_samples phase_q auto_transform scale0 var_list0
         collections g
       = (Ok (loss_of ps (regularization_losses g),
              (fun v => (Grad (loss_of ps (regularization_losses g)) v, v))
                <$> var_list), g').
Proof.
  intros Hnone.
  destruct (objectives_with _ _ _ _ _ latent_vars0 data0 n_samples phase_q
              auto_transform scale0 var_list0 collections
              latent_vars1 [] x data scale var_list
              Hlatent Hdata Htransform Hscale Hvars
              (fun r _ => r.2 = replicate (Z.to_nat n_samples) (EFloat 0)) g)
    as (ps & qs & g1 & g' & Hobj & Hqs & _).
  { apply samples_no_latent. by rewrite length_replicate. }
  cbn [snd] in Hqs. subst qs.
  exists ps, g'. split; [exact Hobj|].
  apply (wake_sleep_unfold _ _ _ _ _ get_descendants) in Hobj.
  rewrite Hobj. cbv zeta. do 2 f_equal.
  rewrite q_vars_none by done. cbn [gradients map zip zip_with app].
  by rewrite p_vars_all, zip_gradients.
Qed.
End WakeSleepNoLatent.

(** ** The edges on concrete calls *)
Lemma wake_sleep_rejected_arguments_witness :
  wake_sleep (extra:=unit) (accept []) (reject TypeError) example_transform
    (accept ∅) example_var_list example_descendants
    (Some example_latent_vars) (Some example_data) 2 "sleep" true
    (Some example_scale) (Some [0; 1; 2]%nat) None example_graph
  = (Raise TypeError, example_graph).
Proof.
  exact (proj1 (proj2
           (wake_sleep_rejected_arguments (accept []) (reject TypeError)
              example_transform (accept ∅) example_var_list
              example_descendants
              (Some example_latent_vars) (Some example_data) 2 "sleep" true
              (Some example_scale) (Some [0; 1; 2]%nat) None
              TypeError example_graph))
           example_latent_vars eq_refl eq_refl).
Defined.

Lemma wake_sleep_no_samples_witness :
  fst (wake_sleep (accept []) (accept []) example_transform (accept ∅)
         example_var_list example_descendants
         (Some example_latent_vars) (Some example_data) (-1) "sleep" true
         (Some example_scale) (Some [0; 1; 2]%nat) None example_graph)
  = Ok (loss_of [] [EGiven 7],
        [(Grad (loss_of [] [EGiven 7]) 0%nat, 0%nat);
         (Grad (loss_of [] [EGiven 7]) 1%nat, 1%nat);
         (Grad (loss_of [] [EGiven 7]) 2%nat, 2%nat)]).
Proof.
  exact (f_equal fst
           (proj1 (wake_sleep_no_samples (accept []) (accept [])
                     example_transform (accept ∅) example_var_list
                     example_descendants
                     (Some example_latent_vars) (Some example_data) (-1)
                     "sleep" true (Some example_scale) (Some [0; 1; 2]%nat)
                     None
                     example_latent_vars example_latent_vars tt example_data
                     example_scale [0; 1; 2]%nat
                     eq_refl eq_refl eq_refl eq_refl eq_refl example_graph
                     ltac:(lia)))).
Defined.

Lemma wake_sleep_summaries_witness :
  exists ps qs g',
    snd (wake_sleep (accept []) (accept []) example_transform (accept ∅)
           example_var_list example_descendants
           (Some example_latent_vars) (Some example_data) 2 "wake" true
           (Some example_scale) (Some [0; 1; 2]%nat) (Some ["losses"])
           example_graph) = g'
    /\ summaries g'
       = [ {| s_name := "loss/p_log_prob"; s_tensor := EReduceMean (EPack ps);
              s_collections := ["losses"] |};
           {| s_name := "loss/q_log_prob"; s_tensor := EReduceMean (EPack qs);
              s_collections := ["losses"] |};
           {| s_name := "loss/reg_penalty";
              s_tensor := EReduceSum (EPack [EGiven 7]);
              s_collections := ["losses"] |} ].
Proof.
  destruct (wake_sleep_summaries (accept []) (accept []) example_transform
              (accept ∅) example_var_list example_descendants
              (Some example_latent_vars) (Some example_data) 2 "wake" true
              (Some example_scale) (Some [0; 1; 2]%nat) (Some ["losses"])
              example_latent_vars example_latent_vars tt example_data
              example_scale [0; 1; 2]%nat
              eq_refl eq_refl eq_refl eq_refl eq_refl example_graph)
    as (ps & qs & g' & Hrun & _ & Hsum).
  exists ps, qs, g'. split; [by rewrite Hrun | exact Hsum].
Defined.

Lemma wake_sleep_ignores_other_keys_witness :
  wake_sleep (accept []) (accept []) example_transform (accept ∅)
    example_var_list example_descendants
    (Some example_latent_vars)
    (Some ((KOther 9%nat, VTensor (EGiven 1)) :: example_data)) 2 "sleep" true
    (Some example_scale) (Some [0; 1; 2]%nat) None example_graph
  = wake_sleep (accept []) (accept []) example_transform (accept ∅)
      example_var_list example_descendants
      (Some example_latent_vars) (Some example_data) 2 "sleep" true
      (Some example_scale) (Some [0; 1; 2]%nat) None example_graph.
Proof.
  exact (wake_sleep_ignores_other_keys (accept []) (accept [])
           example_transform (accept ∅) example_var_list example_descendants
           (Some example_latent_vars)
           (Some ((KOther 9%nat, VTensor (EGiven 1)) :: example_data))
           2 "sleep" true (Some example_scale) (Some [0; 1; 2]%nat) None
           example_latent_vars example_latent_vars tt
           ((KOther 9%nat, VTensor (EGiven 1)) :: example_data)
           example_scale [0; 1; 2]%nat
           eq_refl eq_refl eq_refl eq_refl eq_refl
           (Some example_data) example_graph eq_refl eq_refl).
Defined.

Lemma wake_sleep_no_latent_vars_witness :
  exists ps g',
    wake_sleep (accept []) (accept []) example_transform (accept ∅)
      example_var_list (fun v rvs => rvs)
      (Some []) (Some example_data) 2 "sleep" true
      (Some example_scale) (Some [0; 1; 2]%nat) None example_graph
    = (Ok (loss_of ps [EGiven 7],
           [(Grad (loss_of ps [EGiven 7]) 0%nat, 0%nat);
            (Grad (loss_of ps [EGiven 7]) 1%nat, 1%nat);
            (Grad (loss_of ps [EGiven 7]) 2%nat, 2%nat)]), g').
Proof.
  destruct (wake_sleep_no_latent_vars (accept []) (accept [])
              example_transform (accept ∅) example_var_list
              (fun v rvs => rvs)
              (Some []) (Some example_data) 2 "sleep" true
              (Some example_scale) (Some [0; 1; 2]%nat) None
              [] tt example_data example_scale [0; 1; 2]%nat
              eq_refl eq_refl eq_refl eq_refl eq_refl example_graph
              (fun v => eq_refl))
    as (ps & g' & _ & Hrun).
  exists ps, g'. exact Hrun.
Defined.

Lemma wake_sleep_copies_witness :
  exists loss_p grads_and_vars g',
    wake_sleep (accept []) (accept []) example_transform (accept ∅)
      example_var_list example_descendants
      (Some example_latent_vars)
      (Some [(KRandomVariable 5%nat, VRandomVariable 6%nat)]) 2 "sleep" true
      (Some example_scale) (Some [0; 1; 2]%nat) None example_graph
    = (Ok (loss_p, grads_and_vars), g')
    /\ length (nodes g') = 20%nat
    /\ take 3 (copied <$> nodes g')
       = [(6%nat, false, "inference/q_sample");
          (11%nat, false, "inference/q_sample");
          (12%nat, false, "inference/q_sample")]
    /\ (copied <$> nodes g') !! 19%nat
       = Some (12%nat, true, "inference/p_sample_1").
Proof.
  destruct (wake_sleep_copies (accept []) (accept []) example_transform
              (accept ∅) example_var_list example_descendants
              (Some example_latent_vars)
              (Some [(KRandomVariable 5%nat, VRandomVariable 6%nat)])
              2 "sleep" true (Some example_scale) (Some [0; 1; 2]%nat) None
              example_latent_vars example_latent_vars tt
              [(KRandomVariable 5%nat, VRandomVariable 6%nat)]
              example_scale [0; 1; 2]%nat
              eq_refl eq_refl eq_refl eq_refl eq_refl example_graph)
    as (loss_p & gv & g' & new & Hrun & Hnodes & Hcopied & Hlen & _).
  exists loss_p, gv, g'. split; [exact Hrun|].
  cbn [example_graph nodes app] in Hnodes. rewrite Hnodes.
  split; [exact Hlen|]. rewrite Hcopied. split; reflexivity.
Defined.

Lemma wake_sleep_p_terms_scaled_witness :
  exists ps grads_and_vars g',
    wake_sleep (accept []) (accept []) example_transform (accept ∅)
      example_var_list example_descendants
      (Some example_latent_vars) (Some example_data) 2 "wake" true
      (Some example_scale) (Some [0; 1; 2]%nat) None example_graph
    = (Ok (loss_of ps [EGiven 7], grads_and_vars), g')
    /\ length ps = 2%nat
    /\ Forall (fun e => exists ts,
                 e = sum_of ts
                 /\ Forall2 (scaled_by example_scale) [1; 2; 5]%nat ts) ps.
Proof.
  exact (wake_sleep_p_terms_scaled (accept []) (accept []) example_transform
           (accept ∅) example_var_list example_descendants
           (Some example_latent_vars) (Some example_data) 2 "wake" true
           (Some example_scale) (Some [0; 1; 2]%nat) None
           example_latent_vars example_latent_vars tt example_data
           example_scale [0; 1; 2]%nat
           eq_refl eq_refl eq_refl eq_refl eq_refl example_graph).
Defined.
